(** * Emergency backend: duplicate matching, merge decision and priority ranking

    A shallow embedding of the decision core of the incident backend:
    - [utils/priorityScorer.js]: [calculatePriority], [calculateDistance],
      [sortIncidentsByPriority], [getPriorityLevel];
    - [utils/ai.js] (both revisions): [analyzeIncident], [detectDuplicates];
    - [models/Incident.js]: the enumerations the schema checks when a new
      document is saved;
    - [routes/incidents.js] (both revisions of the router): the handlers of
      [POST /report], [GET /check-duplicates], [GET /priority-queue],
      [GET /stats] and the handlers addressed by [:id].

    Numbers.  A JavaScript [Number] that carries a measurement (a coordinate,
    a distance, a score before rounding) is a real number here: the IEEE
    rounding of each operation and the values NaN and the infinities are not
    represented.  Quantities that the program keeps integral (epoch
    milliseconds of a [Date], the upvote counter, a rounded score) are in [Z]
    and enter real arithmetic through [IZR]. *)

From Stdlib Require Import Reals Lra Lia ZArith List String Bool.
From Stdlib Require Import Sorting.Permutation Sorting.Sorted.
From Stdlib Require Import Zfloor.
Import ListNotations.

Open Scope R_scope.

(** ** JavaScript [Math] on real numbers *)

Module JsMath.

(** [Math.floor] *)
Definition floor (x : R) : Z := Zfloor x.

(** [Math.round]: nearest integer, halves go up. *)
Definition round (x : R) : Z := Zfloor (x + 1 / 2).

(** [Math.atan2 (y, x)] *)
Definition atan2 (y x : R) : R :=
  if Rlt_dec 0 x then atan (y / x)
  else if Rlt_dec x 0 then
    (if Rle_dec 0 y then atan (y / x) + PI else atan (y / x) - PI)
  else if Rlt_dec 0 y then PI / 2
  else if Rlt_dec y 0 then - (PI / 2)
  else 0.

(** The comparison [x <= y] as a JavaScript boolean. *)
Definition leb (x y : R) : bool := if Rle_dec x y then true else false.

(** Truthiness of a number: every number but zero. *)
Definition truthy (x : R) : bool := if Req_dec_T x 0 then false else true.

End JsMath.

(** ** Great-circle distance

    The same function body appears three times in the source
    ([priorityScorer.js], [ai.js] and the router); it is embedded once. *)

Definition calculateDistance (lat1 lng1 lat2 lng2 : R) : R :=
  let R_earth := 6371000 in
  let phi1 := lat1 * PI / 180 in
  let phi2 := lat2 * PI / 180 in
  let dphi := (lat2 - lat1) * PI / 180 in
  let dlam := (lng2 - lng1) * PI / 180 in
  let a :=
    sin (dphi / 2) * sin (dphi / 2) +
    cos phi1 * cos phi2 * sin (dlam / 2) * sin (dlam / 2) in
  let c := 2 * JsMath.atan2 (sqrt a) (sqrt (1 - a)) in
  R_earth * c.

(** ** Data model *)

(** A plain [{ lat, lng }] object. *)
Record LatLng := mkLatLng { lat : R; lng : R }.

(** [location] of a stored incident: the GeoJSON point [[lng, lat]] kept for
    the geospatial index next to the plain coordinates and the address. *)
Record Location := mkLocation {
  position :> LatLng;
  coordinates : R * R;
  address : string
}.

(** [imageAnalysis] of an analysis result. *)
Record ImageAnalysis := mkImageAnalysis {
  isEmergency : bool;
  img_confidence : R
}.

(** What [analyzeIncident] resolves to, as far as the router reads it. *)
Record AiAnalysis := mkAiAnalysis {
  ai_severity : string;
  imageAnalysis : option ImageAnalysis;
  priorityScore : option R
}.

(** A document of the [Incident] collection (models/Incident.js). *)
Record Incident := mkIncident {
  _id : Z;
  type : string;
  description : string;
  location : Location;
  severity : string;
  status : string;
  ai_analysis : option AiAnalysis;
  reportedBy : string;
  mediaUrl : option string;
  upvotes : Z;
  verified : bool;
  timestamp : Z
}.

(** [incident.upvotes = v] on a document. *)
Definition set_upvotes (v : Z) (i : Incident) : Incident :=
  mkIncident (_id i) (type i) (description i) (location i) (severity i)
    (status i) (ai_analysis i) (reportedBy i) (mediaUrl i) v (verified i)
    (timestamp i).

(** The enumerations of the schema (models/Incident.js). *)
Definition schema_types : list string :=
  ["Fire"; "Accident"; "Medical"; "Crime"; "Infrastructure"]%string.

Definition schema_severities : list string :=
  ["Critical"; "High"; "Medium"; "Low"]%string.

Definition schema_statuses : list string :=
  ["Reported"; "Verified"; "In Progress"; "Dispatched"; "Resolved"; "Closed";
   "Pending"]%string.

(** The validators that [save] runs on a new document: [type] and
    [description] are required (an empty string does not count), [type],
    [severity] and [status] lie in their enumerations.  The other required
    paths ([location.lat], [location.lng], [location.coordinates]) are numbers
    by the type of [Location]. *)
Definition schema_accepts (i : Incident) : bool :=
  existsb (String.eqb (type i)) schema_types
  && negb (String.eqb (description i) "")
  && existsb (String.eqb (severity i)) schema_severities
  && existsb (String.eqb (status i)) schema_statuses.

(** ** Object literals used as lookup tables, and [||]

    The tables of numbers are looked up by their own keys: they are indexed
    by the [severity] and [type] of stored documents, which the schema
    restricts to enumerations, so names inherited from [Object.prototype]
    never reach them.  The table of [analyzeIncident], indexed by a type
    that no one has checked, is read with [lookup_string] further down. *)

Fixpoint lookup (table : list (string * R)) (key : string) : option R :=
  match table with
  | [] => None
  | (k, v) :: rest => if String.eqb k key then Some v else lookup rest key
  end.

(** [v || d] for a looked-up number: [undefined] and [0] are falsy. *)
Definition or_else (v : option R) (d : R) : R :=
  match v with
  | Some x => if JsMath.truthy x then x else d
  | None => d
  end.

(** ** [Array.prototype.sort], [slice] and [find]

    [sort] is specified to be stable; with a comparator [cmp] an element moves
    in front of an earlier one only when the comparator is positive on
    (earlier, later). *)

Section Arrays.
Context {A : Type}.

Fixpoint sort_insert (cmp : A -> A -> Z) (x : A) (l : list A) : list A :=
  match l with
  | [] => [x]
  | y :: l' =>
      if (0 <? cmp x y)%Z then y :: sort_insert cmp x l' else x :: y :: l'
  end.

Definition sort (cmp : A -> A -> Z) (l : list A) : list A :=
  fold_right (sort_insert cmp) [] l.

(** The comparator [(a, b) => b.key - a.key]. *)
Definition descending (key : A -> Z) : A -> A -> Z :=
  fun a b => (key b - key a)%Z.

End Arrays.

(** An integer argument as [parseInt] yields it. *)
Inductive JsInt := NaN | Int (z : Z).

(** [arr.slice(0, end)] *)
Definition slice0 {A : Type} (l : list A) (e : JsInt) : list A :=
  match e with
  | NaN => []
  | Int z =>
      if (z <? 0)%Z
      then firstn (Z.to_nat (Z.max (Z.of_nat (List.length l) + z) 0)) l
      else firstn (Z.to_nat z) l
  end.

(** ** utils/priorityScorer.js *)

Definition severityScores : list (string * R) :=
  [("Critical", 100); ("High", 70); ("Medium", 40); ("Low", 10)]%string.

Definition typeBonus : list (string * R) :=
  [("Medical", 10); ("Fire", 10); ("Crime", 5); ("Accident", 5);
   ("Infrastructure", 0)]%string.

Definition calculatePriority (now : Z) (incident : Incident)
    (responderLocation : option LatLng) : Z :=
  let score := 0 in
  (* 1. severity *)
  let score := score + or_else (lookup severityScores (severity incident)) 40 in
  (* 2. time decay *)
  let ageInMinutes := IZR (now - timestamp incident) / (1000 * 60) in
  let timeScore :=
    Rmax 0 (30 - IZR (JsMath.floor (ageInMinutes / 10)) * 5) in
  let score := score + timeScore in
  (* 3. upvote boost *)
  let upvoteScore := Rmin (IZR (upvotes incident) * 2) 20 in
  let score := score + upvoteScore in
  (* 4. distance penalty *)
  let score :=
    match responderLocation with
    | Some r =>
        let distance :=
          calculateDistance (lat r) (lng r)
            (lat (location incident)) (lng (location incident)) in
        let distanceInKm := distance / 1000 in
        let distancePenalty := Rmin (distanceInKm * 2) 30 in
        score - distancePenalty
    | None => score
    end in
  (* 5. verification bonus *)
  let score := if verified incident then score + 15 else score in
  (* 6. status adjustment *)
  let score :=
    if String.eqb (status incident) "In Progress" then score - 20
    else if String.eqb (status incident) "Resolved" then score - 50
    else score in
  (* 7. type bonus *)
  let score := score + or_else (lookup typeBonus (type incident)) 0 in
  Z.max 0 (Z.min 200 (JsMath.round score)).

(** An incident with its [priority] field added. *)
Record Ranked := mkRanked {
  ranked_incident : Incident;
  priority : Z
}.

Definition sortIncidentsByPriority (now : Z) (incidents : list Incident)
    (responderLocation : option LatLng) : list Ranked :=
  sort (descending priority)
    (map (fun incident =>
            mkRanked incident (calculatePriority now incident responderLocation))
         incidents).

Definition getPriorityLevel (score : Z) : string :=
  if (120 <=? score)%Z then "CRITICAL"
  else if (90 <=? score)%Z then "HIGH"
  else if (60 <=? score)%Z then "MEDIUM"
  else "LOW".

(** ** utils/ai.js: [detectDuplicates]

    The language model is an external oracle.  Its reply to the one prompt of
    a call, once the call has settled, is an [OracleOutcome]: the request
    rejects, the text holds no bracketed span, the span is not JSON, or the
    span parses to an array of entries.  A call that does not settle is
    [NeverSettles] of [Awaited] below. *)

Record OracleEntry := mkOracleEntry {
  index : Z;
  oracle_confidence : R;
  reason : string
}.

Inductive OracleOutcome :=
| OracleThrows
| OracleNoArray
| OracleBadJson
| OracleArray (entries : list OracleEntry).

(** The [{ type, description, location }] object handed to the detector. *)
Record NewIncident := mkNewIncident {
  new_type : string;
  new_description : string;
  new_location : LatLng
}.

(** One element of the array [detectDuplicates] resolves to. *)
Record AiDuplicate := mkAiDuplicate {
  incidentId : option Z;
  dup_incident : option Incident;
  ai_confidence : R;
  ai_reason : string
}.

(** [arr[i]]: [undefined] outside the array. *)
Definition js_index {A : Type} (l : list A) (i : Z) : option A :=
  if (i <? 0)%Z then None else nth_error l (Z.to_nat i).

Definition detectDuplicates (now : Z) (oracle : OracleOutcome)
    (newIncident : NewIncident) (existingIncidents : list Incident)
    : list AiDuplicate :=
  let twoHoursAgo := (now - 2 * 60 * 60 * 1000)%Z in
  let nearbyIncidents :=
    filter (fun incident =>
              if (timestamp incident <? twoHoursAgo)%Z then false
              else
                let distance :=
                  calculateDistance
                    (lat (new_location newIncident))
                    (lng (new_location newIncident))
                    (lat (location incident)) (lng (location incident)) in
                JsMath.leb distance 500)
           existingIncidents in
  match nearbyIncidents with
  | [] => []
  | _ :: _ =>
      match oracle with
      | OracleThrows => []          (* caught *)
      | OracleNoArray => []         (* jsonMatch is null *)
      | OracleBadJson => []         (* JSON.parse throws, caught *)
      | OracleArray duplicates =>
          filter (fun d => match incidentId d with Some _ => true | None => false end)
            (map (fun dup =>
                    let hit := js_index nearbyIncidents (index dup - 1) in
                    mkAiDuplicate (option_map _id hit) hit
                      (oracle_confidence dup) (reason dup))
                 duplicates)
      end
  end.

(** ** routes/incidents.js *)

(** Truthiness of an optional string: [undefined] and [''] are falsy. *)
Definition truthy_string (s : option string) : bool :=
  match s with
  | Some s => negb (String.eqb s "")
  | None => false
  end.

(** Truthiness of an optional number: [undefined] and [0] are falsy. *)
Definition truthy_number (x : option R) : bool :=
  match x with
  | Some x => JsMath.truthy x
  | None => false
  end.

(** [req.body.location] once the handler has parsed it: absent (or a falsy
    value), a text that [JSON.parse] rejects, or an object whose [lat], [lng]
    and [address] may each be missing. *)
Record ReqLocation := mkReqLocation {
  req_lat : option R;
  req_lng : option R;
  req_address : option string
}.

Inductive LocationField :=
| LocationUndefined
| LocationBadJson
| LocationObject (l : ReqLocation).

Record ReportRequest := mkReportRequest {
  body_type : option string;
  body_description : option string;
  body_reportedBy : option string;
  body_location : LocationField;
  file : option string
}.

(** What the handler of [POST /report] consults besides the request and the
    collection: the clock, the oracle's reply to the duplicate prompt,
    [analyzeIncident], and the identity the store assigns to a new document. *)
Record ReportEnv := mkReportEnv {
  env_now : Z;
  env_oracle : OracleOutcome;
  analyzeIncident : string -> string -> option string -> AiAnalysis;
  env_new_id : Z
}.

(** Status code and JSON body of a reply of [POST /report]. *)
Inductive ReportReply :=
| ReplyError (code : Z) (error : string)
| ReplyMerged (code : Z) (outcome : string) (incident : Incident)
| ReplyCreated (code : Z) (outcome : string) (incident : Incident)
    (aiAnalysis : AiAnalysis) (duplicates : option (list AiDuplicate)).

(** The test of the [if] that guards the required fields. *)
Definition missing_required (req : ReportRequest) : bool :=
  negb (truthy_string (body_type req))
  || negb (truthy_string (body_description req))
  || match body_location req with
     | LocationObject l =>
         negb (truthy_number (req_lat l)) || negb (truthy_number (req_lng l))
     | _ => true
     end.

(** The [for ... of] loop over [recentIncidents]: the first one within 100 m. *)
Fixpoint matchedIncident (lat0 lng0 : R) (recentIncidents : list Incident)
    : option Incident :=
  match recentIncidents with
  | [] => None
  | incident :: rest =>
      let distance :=
        calculateDistance lat0 lng0
          (lat (location incident)) (lng (location incident)) in
      if JsMath.leb distance 100 then Some incident
      else matchedIncident lat0 lng0 rest
  end.

(** [doc.save()] of a fetched document whose only modified path is [upvotes]:
    the stored document with that [_id] gets the new value. *)
Definition save_upvotes (doc : Incident) (db : list Incident) : list Incident :=
  map (fun stored =>
         if (_id stored =? _id doc)%Z then set_upvotes (upvotes doc) stored
         else stored)
      db.

(** The score the handler stores inside [ai_analysis] and the severity it
    settles on after looking at the image analysis. *)
Definition reportSeverityScores : list (string * R) :=
  [("Critical", 40); ("High", 30); ("Medium", 20); ("Low", 10)]%string.

Definition adjust_analysis (aiAnalysis : AiAnalysis) : AiAnalysis :=
  let priorityScore := 50 in
  let severityBonus :=
    or_else (lookup reportSeverityScores (ai_severity aiAnalysis)) 20 in
  let priorityScore := priorityScore + severityBonus in
  let '(priorityScore, sev) :=
    match imageAnalysis aiAnalysis with
    | Some img =>
        if isEmergency img then
          (priorityScore + IZR (JsMath.round (img_confidence img * (2 / 10))),
           ai_severity aiAnalysis)
        else
          (priorityScore - 30,
           if String.eqb (ai_severity aiAnalysis) "Critical" then "Medium"%string
           else if String.eqb (ai_severity aiAnalysis) "High" then "Medium"%string
           else ai_severity aiAnalysis)
    | None => (priorityScore, ai_severity aiAnalysis)
    end in
  let priorityScore := Rmax 10 (Rmin 100 priorityScore) in
  mkAiAnalysis sev (imageAnalysis aiAnalysis) (Some priorityScore).

(** The two revisions of the router: [routes/incidents.js] ([Basic]) and
    [unnamed/part_000] ([Extended]).  They differ in the accepted categories
    and in what happens to the analysis of a report that is not merged. *)
Inductive Revision := Basic | Extended.

Definition validTypes (rev : Revision) : list string :=
  match rev with
  | Basic => ["Fire"; "Accident"; "Medical"; "Crime"; "Infrastructure"]
  | Extended =>
      ["Fire"; "Accident"; "Medical"; "Crime"; "Infrastructure"; "Natural";
       "Other"]
  end%string.

Definition missing_fields_error : string :=
  "Missing required fields: type, description, location (lat, lng)".

(** [Incident.find({ timestamp: { $gte: twoHoursAgo } })] *)
Definition find_since (since : Z) (db : list Incident) : list Incident :=
  filter (fun i => (since <=? timestamp i)%Z) db.

(** [Incident.find({ type: type, timestamp: { $gte: thirtyMinutesAgo } })] *)
Definition find_type_since (type0 : string) (since : Z) (db : list Incident)
    : list Incident :=
  filter (fun i => String.eqb (type i) type0 && (since <=? timestamp i)%Z) db.

(** The analysis a report that is not merged ends up with. *)
Definition report_analysis (rev : Revision) (env : ReportEnv)
    (req : ReportRequest) (description0 type0 : string) : AiAnalysis :=
  match rev with
  | Basic => analyzeIncident env description0 type0 None
  | Extended =>
      let imagePath :=
        option_map (fun name => "uploads/" ++ name)%string (file req) in
      adjust_analysis (analyzeIncident env description0 type0 imagePath)
  end.

(** [new Incident({ ... })] *)
Definition new_incident (env : ReportEnv) (req : ReportRequest)
    (type0 description0 : string) (l : ReqLocation) (lat0 lng0 : R)
    (aiAnalysis : AiAnalysis) : Incident :=
  mkIncident (env_new_id env) type0 description0
    (mkLocation (mkLatLng lat0 lng0) (lng0, lat0)
       (match req_address l with
        | Some a => a
        | None => ""
        end)%string)
    (ai_severity aiAnalysis) "Reported" (Some aiAnalysis)
    (if truthy_string (body_reportedBy req)
     then match body_reportedBy req with
          | Some r => r
          | None => "Anonymous"
          end
     else "Anonymous")%string
    (option_map (fun name => "/uploads/" ++ name)%string (file req))
    1%Z false (env_now env).

(** The handler of [POST /report]: the reply and the collection afterwards,
    once the call to the oracle, if one is made, has settled with
    [env_oracle env] (the wait itself is [post_report_awaited] below).

    The whole body sits in one [try]: whatever throws ends in the reply 500
    of the [catch].  [save] of the new document throws when the schema
    refuses it, and then nothing is stored.  [save] of a merged document,
    which came into the collection under the same schema, changes the stored
    [upvotes].  Failures of the store itself and the socket broadcasts that
    follow a decision are left out. *)
Definition post_report (rev : Revision) (env : ReportEnv)
    (db : list Incident) (req : ReportRequest)
    : ReportReply * list Incident :=
  match body_location req with
  | LocationBadJson => (ReplyError 500 "Failed to report incident", db)
  | _ =>
    if missing_required req then (ReplyError 400 missing_fields_error, db)
    else
      match body_type req, body_description req, body_location req with
      | Some type0, Some description0, LocationObject l =>
        match req_lat l, req_lng l with
        | Some lat0, Some lng0 =>
          if negb (existsb (String.eqb type0) (validTypes rev)) then
            (ReplyError 400
               ("Invalid type. Must be one of: "
                  ++ String.concat ", " (validTypes rev)), db)
          else
            let now := env_now env in
            let twoHoursAgo := (now - 2 * 60 * 60 * 1000)%Z in
            let existingIncidents := find_since twoHoursAgo db in
            let duplicates :=
              detectDuplicates now (env_oracle env)
                (mkNewIncident type0 description0 (mkLatLng lat0 lng0))
                existingIncidents in
            let thirtyMinutesAgo := (now - 30 * 60 * 1000)%Z in
            let recentIncidents := find_type_since type0 thirtyMinutesAgo db in
            match matchedIncident lat0 lng0 recentIncidents with
            | Some matched =>
                let matched := set_upvotes (upvotes matched + 1) matched in
                (ReplyMerged 200 "merged" matched, save_upvotes matched db)
            | None =>
                let aiAnalysis :=
                  report_analysis rev env req description0 type0 in
                let newIncident :=
                  new_incident env req type0 description0 l lat0 lng0
                    aiAnalysis in
                if schema_accepts newIncident then
                  (ReplyCreated 201 "created" newIncident aiAnalysis
                     (match duplicates with
                      | [] => None
                      | _ :: _ => Some duplicates
                      end),
                   db ++ [newIncident])
                else (ReplyError 500 "Failed to report incident", db)
            end
        | _, _ => (ReplyError 400 missing_fields_error, db)
        end
      | _, _, _ => (ReplyError 400 missing_fields_error, db)
      end
  end.

(** *** [GET /check-duplicates] (only in [unnamed/part_000]) *)

(** The query string once read: [type], [lat] and [lng] are present or not
    (a present [lat] or [lng] is the number [parseFloat] makes of it), and
    [description] defaults to the empty string. *)
Record CheckQuery := mkCheckQuery {
  q_type : option string;
  q_lat : option R;
  q_lng : option R;
  q_description : string
}.

(** One element of the returned [duplicates] array: the fields copied from the
    incident, the confidence, the rounded distance and the oracle's reason. *)
Record DuplicateCandidate := mkDuplicateCandidate {
  candidate : Incident;
  confidence : Z;
  distance : Z;
  aiReason : option string
}.

Inductive CheckReply :=
| CheckError (code : Z) (error : string)
| CheckOk (code : Z) (duplicates : list DuplicateCandidate).

(** The body of the [map] callback: the heuristic score of one candidate. *)
Definition score_candidate (now : Z) (type0 : string) (latitude longitude : R)
    (incident : Incident) : DuplicateCandidate :=
  let distance :=
    calculateDistance latitude longitude
      (lat (location incident)) (lng (location incident)) in
  let distanceScore := Rmax 0 (100 - distance / 5) in
  let timeDiff := IZR (now - timestamp incident) in
  let timeScore := Rmax 0 (100 - timeDiff / (2 * 60 * 60 * 10)) in
  let typeBonus := if String.eqb (type incident) type0 then 20 else 0 in
  let confidence :=
    JsMath.round ((distanceScore + timeScore + typeBonus) / (22 / 10)) in
  mkDuplicateCandidate incident (Z.min 100 confidence)
    (JsMath.round distance) None.

(** [nearbyIncidents.map(...).filter(d => d.confidence > 40).sort(...)] *)
Definition heuristic_duplicates (now : Z) (type0 : string)
    (latitude longitude : R) (nearbyIncidents : list Incident)
    : list DuplicateCandidate :=
  sort (descending confidence)
    (filter (fun d => (40 <? confidence d)%Z)
       (map (score_candidate now type0 latitude longitude) nearbyIncidents)).

(** The body of the [forEach] callback that blends in the oracle's opinion. *)
Definition fuse (aiDuplicates : list AiDuplicate) (dup : DuplicateCandidate)
    : DuplicateCandidate :=
  match
    find (fun ai => match incidentId ai with
                    | Some i => (i =? _id (candidate dup))%Z
                    | None => false
                    end) aiDuplicates
  with
  | Some aiMatch =>
      mkDuplicateCandidate (candidate dup)
        (JsMath.round ((IZR (confidence dup) + ai_confidence aiMatch) / 2))
        (distance dup) (Some (ai_reason aiMatch))
  | None => dup
  end.

(** The handler of [GET /check-duplicates].  [nearbyIncidents] is the answer
    of the store to the geospatial query of the handler (newer than two
    hours, status neither Resolved nor Closed, within 500 m of the point);
    the metric and the order of that index are the store's. *)
Definition check_duplicates (now : Z) (oracle : OracleOutcome)
    (q : CheckQuery) (nearbyIncidents : list Incident) : CheckReply :=
  match q_type q, q_lat q, q_lng q with
  | Some type0, Some latitude, Some longitude =>
    if negb (truthy_string (q_type q)) then
      CheckError 400 "Missing required query parameters: type, lat, lng"
    else
      match nearbyIncidents with
      | [] => CheckOk 200 []
      | _ :: _ =>
        let duplicates :=
          heuristic_duplicates now type0 latitude longitude nearbyIncidents in
        let duplicates :=
          if truthy_string (Some (q_description q))
             && (0 <? Z.of_nat (List.length duplicates))%Z
          then
            let aiDuplicates :=
              detectDuplicates now oracle
                (mkNewIncident type0 (q_description q)
                   (mkLatLng latitude longitude))
                nearbyIncidents in
            sort (descending confidence)
              (map (fuse aiDuplicates) duplicates)
          else duplicates in
        CheckOk 200 duplicates
      end
  | _, _, _ =>
    CheckError 400 "Missing required query parameters: type, lat, lng"
  end.

(** *** [GET /priority-queue] *)

Record QueueQuery := mkQueueQuery {
  pq_lat : option R;
  pq_lng : option R;
  pq_limit : option JsInt
}.

(** One element of the returned [incidents] array. *)
Record QueueEntry := mkQueueEntry {
  entry : Ranked;
  priorityLevel : string
}.

(** [Incident.find({ status: { $nin: ['Resolved', 'Closed'] } })] *)
Definition find_active (db : list Incident) : list Incident :=
  filter (fun i => negb (existsb (String.eqb (status i)) ["Resolved"; "Closed"]%string))
         db.

(** [const { lat, lng, limit = 20 } = req.query] followed by
    [parseInt(limit)]. *)
Definition queue_limit (q : QueueQuery) : JsInt :=
  match pq_limit q with
  | Some n => n
  | None => Int 20
  end.

(** The handler of [GET /priority-queue]: the [incidents] array of the reply
    and the collection afterwards (the handler only reads it). *)
Definition priority_queue (now : Z) (db : list Incident) (q : QueueQuery)
    : list QueueEntry * list Incident :=
  let limit := queue_limit q in
  let incidents := find_active db in
  let responderLocation :=
    match pq_lat q, pq_lng q with
    | Some la, Some ln => Some (mkLatLng la ln)
    | _, _ => None
    end in
  (map (fun inc => mkQueueEntry inc (getPriorityLevel (priority inc)))
     (slice0 (sortIncidentsByPriority now incidents responderLocation) limit),
   db).

Definition clamp (lo hi z : Z) : Z := Z.max lo (Z.min hi z).

(** ** Requests that pass validation, and the 100 m test *)

(** The request carries a non-empty accepted category, a non-empty
    description and a parsed location with non-zero [lat] and [lng]. *)
Definition accepted (rev : Revision) (req : ReportRequest)
    (type0 description0 : string) (l : ReqLocation) (lat0 lng0 : R) : Prop :=
  body_type req = Some type0 /\ type0 <> ""%string /\
  body_description req = Some description0 /\ description0 <> ""%string /\
  body_location req = LocationObject l /\
  req_lat l = Some lat0 /\ lat0 <> 0 /\
  req_lng l = Some lng0 /\ lng0 <> 0 /\
  In type0 (validTypes rev).

(** Distance in meters from the reported point to a stored incident. *)
Definition meters_to (lat0 lng0 : R) (i : Incident) : R :=
  calculateDistance lat0 lng0 (lat (location i)) (lng (location i)).

(** Two documents that agree on every field but the upvote counter. *)
Definition same_but_upvotes (a b : Incident) : Prop :=
  _id b = _id a /\ type b = type a /\ description b = description a /\
  location b = location a /\ severity b = severity a /\
  status b = status a /\ ai_analysis b = ai_analysis a /\
  reportedBy b = reportedBy a /\ mediaUrl b = mediaUrl a /\
  verified b = verified a /\ timestamp b = timestamp a.

(** ** The heuristic confidence as the specification words it *)

Definition heuristicConfidence (distanceMeters elapsedMs : R)
    (sameCategory : bool) : Z :=
  clamp 0 100
    (JsMath.round
       ((Rmax 0 (100 - distanceMeters / 5)
         + Rmax 0 (100 - elapsedMs / 72000)
         + (if sameCategory then 20 else 0)) / (22 / 10))).

(** ** Oracle failures *)

(** The call settled without a usable answer: it rejected, or its text could
    not be parsed. *)
Definition oracle_failed (o : OracleOutcome) : Prop :=
  o = OracleThrows \/ o = OracleNoArray \/ o = OracleBadJson.

(** The environment of a report with another oracle reply. *)
Definition with_oracle (o : OracleOutcome) (env : ReportEnv) : ReportEnv :=
  mkReportEnv (env_now env) o (analyzeIncident env) (env_new_id env).

(** A reply with its advisory [duplicates] field set to [null]. *)
Definition without_duplicates (r : ReportReply) : ReportReply :=
  match r with
  | ReplyCreated code outcome incident aiAnalysis _ =>
      ReplyCreated code outcome incident aiAnalysis None
  | _ => r
  end.

(** ** Waiting for the oracle

    [detectDuplicates] awaits [model.generateContent] and sets no time limit,
    and the handler of [POST /report] awaits [detectDuplicates] before it
    queries the candidates of a merge. *)

(** An awaited promise: it settles with a value, or it stays pending. *)
Inductive Awaited (A : Type) :=
| Settles (a : A)
| NeverSettles.

Arguments Settles {A} a.
Arguments NeverSettles {A}.

(** The incidents [detectDuplicates] keeps before it turns to the model:
    the model is called when there is one. *)
Definition nearbyIncidents (now : Z) (newIncident : NewIncident)
    (existingIncidents : list Incident) : list Incident :=
  let twoHoursAgo := (now - 2 * 60 * 60 * 1000)%Z in
  filter (fun incident =>
            if (timestamp incident <? twoHoursAgo)%Z then false
            else
              let distance :=
                calculateDistance
                  (lat (new_location newIncident))
                  (lng (new_location newIncident))
                  (lat (location incident)) (lng (location incident)) in
              JsMath.leb distance 500)
         existingIncidents.

(** Whether the handler of [POST /report] gets as far as the call of the
    model: the request passes both validations and the detector keeps an
    incident. *)
Definition oracle_is_called (rev : Revision) (env : ReportEnv)
    (db : list Incident) (req : ReportRequest) : bool :=
  match body_location req with
  | LocationObject l =>
      if missing_required req then false
      else
        match body_type req, body_description req, req_lat l, req_lng l with
        | Some type0, Some description0, Some lat0, Some lng0 =>
            existsb (String.eqb type0) (validTypes rev)
            && match
                 nearbyIncidents (env_now env)
                   (mkNewIncident type0 description0 (mkLatLng lat0 lng0))
                   (find_since (env_now env - 2 * 60 * 60 * 1000)%Z db)
               with
               | [] => false
               | _ :: _ => true
               end
        | _, _, _, _ => false
        end
  | _ => false
  end.

(** The handler of [POST /report] with the call of the model as a promise:
    [None] when the handler waits for a call that never settles, and then
    no reply is sent and nothing is stored. *)
Definition post_report_awaited (rev : Revision) (env : ReportEnv)
    (call : Awaited OracleOutcome) (db : list Incident) (req : ReportRequest)
    : option (ReportReply * list Incident) :=
  match call with
  | Settles o => Some (post_report rev (with_oracle o env) db req)
  | NeverSettles =>
      if oracle_is_called rev env db req then None
      else Some (post_report rev env db req)
  end.

(** The call failed, timed out or gave a text that could not be parsed, as
    the specification lists it; the code having no timer, a call that
    outlasts every time limit is one that stays pending. *)
Definition call_failed (call : Awaited OracleOutcome) : Prop :=
  match call with
  | Settles o => oracle_failed o
  | NeverSettles => True
  end.

(** ** Order of a returned list *)

(** Non-increasing keys along the list. *)
Definition descending_sorted {A : Type} (key : A -> Z) (l : list A) : Prop :=
  StronglySorted (fun a b => (key b <= key a)%Z) l.

(** ** The ranking formula as the specification words it *)

Definition severityBase (sev : string) : R :=
  if String.eqb sev "Critical" then 100
  else if String.eqb sev "High" then 70
  else if String.eqb sev "Medium" then 40
  else if String.eqb sev "Low" then 10
  else 40.

Definition ageMinutes (now : Z) (incident : Incident) : R :=
  IZR (now - timestamp incident) / 60000.

Definition timeDecay (age : R) : R :=
  Rmax 0 (30 - IZR (Zfloor (age / 10)) * 5).

Definition corroborationBoost (count : Z) : R := Rmin (IZR count * 2) 20.

Definition distancePenalty (incident : Incident) (responder : option LatLng) : R :=
  match responder with
  | Some r =>
      Rmin (calculateDistance (lat r) (lng r)
              (lat (location incident)) (lng (location incident)) / 1000 * 2) 30
  | None => 0
  end.

Definition verificationBonus (v : bool) : R := if v then 15 else 0.

Definition statusAdjustment (st : string) : R :=
  if String.eqb st "In Progress" then -20
  else if String.eqb st "Resolved" then -50
  else 0.

Definition categoryBonus (cat : string) : R :=
  if String.eqb cat "Medical" || String.eqb cat "Fire" then 10
  else if String.eqb cat "Crime" || String.eqb cat "Accident" then 5
  else 0.

Definition prioritySum (now : Z) (incident : Incident)
    (responder : option LatLng) : R :=
  severityBase (severity incident)
  + timeDecay (ageMinutes now incident)
  + corroborationBoost (upvotes incident)
  - distancePenalty incident responder
  + verificationBonus (verified incident)
  + statusAdjustment (status incident)
  + categoryBonus (type incident).

(** ** Sample data

    Incidents placed a given number of meters due north of the point
    (10, 20), a clock reading of 1600000 ms and a report from that point. *)

Definition north_of (meters : R) : Location :=
  let la := 10 + meters * 180 / (6371000 * PI) in
  mkLocation (mkLatLng la 20) (20, la) "".

Definition sample_incident (id : Z) (type0 status0 : string) (meters : R)
    (ts : Z) : Incident :=
  mkIncident id type0 "Smoke over the depot" (north_of meters) "High" status0
    None "Anonymous" None 1 false ts.

Definition sample_env (oracle : OracleOutcome) : ReportEnv :=
  mkReportEnv 1600000 oracle (fun _ _ _ => mkAiAnalysis "High" None None) 99.

Definition sample_location : ReqLocation :=
  mkReqLocation (Some 10) (Some 20) None.

Definition sample_request (type0 : string) : ReportRequest :=
  mkReportRequest (Some type0) (Some "Flames at the depot"%string) None
    (LocationObject sample_location) None.

(** ** utils/ai.js: [analyzeIncident]

    The reply of the language model to the analysis prompt: the request
    rejects, the text holds no braced span, the span is not JSON, or it
    parses to an object.  Of that object the function reads the fields
    below.  [severity] is [None] when it is no string, the response time when
    it is no number, the two lists when they are no arrays, the summary when
    it is absent or falsy, and the image analysis when it is absent. *)

Record ParsedAnalysis := mkParsedAnalysis {
  parsed_severity : option string;
  parsed_suggestedCategory : option string;
  parsed_estimatedResponseTime : option R;
  parsed_keyDetails : option (list string);
  parsed_tags : option (list string);
  parsed_summary : option string;
  parsed_imageAnalysis : option ImageAnalysis
}.

Inductive AnalysisOutcome :=
| AnalysisThrows
| AnalysisNoObject
| AnalysisBadJson
| AnalysisObject (a : ParsedAnalysis).

(** The value of a [severity] field: a string, or what a property access
    finds under a name that [Object.prototype] defines (a built-in function,
    or the prototype object itself under [__proto__]). *)
Inductive SeverityValue :=
| SeverityString (s : string)
| SeverityInherited (name : string).

(** The object [analyzeIncident] resolves to. *)
Record Analysis := mkAnalysis {
  an_severity : SeverityValue;
  an_suggestedCategory : option string;
  an_estimatedResponseTime : R;
  an_keyDetails : list string;
  an_tags : list string;
  an_summary : string;
  an_imageAnalysis : option ImageAnalysis;
  an_aiStatus : option string
}.

Definition validSeverities : list string :=
  ["Critical"; "High"; "Medium"; "Low"]%string.

(** The checks both revisions run on the parsed object. *)
Definition normalize_analysis (a : ParsedAnalysis) : Analysis :=
  mkAnalysis
    (SeverityString
       (match parsed_severity a with
        | Some s =>
            if existsb (String.eqb s) validSeverities then s else "Medium"
        | None => "Medium"
        end)%string)
    (parsed_suggestedCategory a)
    (match parsed_estimatedResponseTime a with
     | Some t => t
     | None => 15
     end)
    (match parsed_keyDetails a with Some l => l | None => [] end)
    (match parsed_tags a with Some l => l | None => [] end)
    (match parsed_summary a with
     | Some t => if String.eqb t "" then "Emergency incident reported" else t
     | None => "Emergency incident reported"
     end)%string
    (parsed_imageAnalysis a)
    None.

(** [x < y] as a JavaScript boolean. *)
Definition js_lt (x y : R) : bool := if Rlt_dec x y then true else false.

(** [v === text] for the value of a [severity] field. *)
Definition severity_is (v : SeverityValue) (text : string) : bool :=
  match v with
  | SeverityString s => String.eqb s text
  | SeverityInherited _ => false
  end.

(** The extra check of the later revision: an image that shows no emergency,
    or shows one with confidence below 30, takes Critical down to Medium. *)
Definition image_check (a : Analysis) : Analysis :=
  match an_imageAnalysis a with
  | Some img =>
      if negb (isEmergency img) || js_lt (img_confidence img) 30 then
        if severity_is (an_severity a) "Critical" then
          mkAnalysis (SeverityString "Medium") (an_suggestedCategory a)
            (an_estimatedResponseTime a) (an_keyDetails a) (an_tags a)
            (an_summary a) (an_imageAnalysis a) (an_aiStatus a)
        else a
      else a
  | None => a
  end.

Definition typeSeverityMap : list (string * string) :=
  [("Fire", "High"); ("Medical", "High"); ("Accident", "High");
   ("Crime", "Medium"); ("Natural", "High"); ("Other", "Medium");
   ("Infrastructure", "Low")]%string.

(** The own properties of an object literal. *)
Fixpoint own_value (table : list (string * string)) (key : string)
    : option string :=
  match table with
  | [] => None
  | (k, v) :: rest => if String.eqb k key then Some v else own_value rest key
  end.

(** The names an object literal inherits from [Object.prototype]. *)
Definition object_prototype_names : list string :=
  ["constructor"; "__defineGetter__"; "__defineSetter__"; "hasOwnProperty";
   "__lookupGetter__"; "__lookupSetter__"; "isPrototypeOf";
   "propertyIsEnumerable"; "toString"; "valueOf"; "__proto__";
   "toLocaleString"]%string.

(** [table[key]]: the own property when there is one, else the inherited
    one, else [undefined]. *)
Inductive PropertyValue :=
| OwnProperty (v : string)
| InheritedProperty (name : string)
| NoProperty.

Definition lookup_string (table : list (string * string)) (key : string)
    : PropertyValue :=
  match own_value table key with
  | Some v => OwnProperty v
  | None =>
      if existsb (String.eqb key) object_prototype_names
      then InheritedProperty key
      else NoProperty
  end.

(** [analyzeIncident] of [utils/ai.js] as [routes/incidents.js] uses it. *)
Definition analyzeIncident_basic (outcome : AnalysisOutcome) : Analysis :=
  match outcome with
  | AnalysisObject a => normalize_analysis a
  | _ =>
      mkAnalysis (SeverityString "Medium") None 15 ["Emergency reported"]
        ["emergency"; "incident"]
        "Emergency incident reported - AI analysis unavailable" None None
  end%string.

(** [analyzeIncident] of the later revision.  [toLowerCase] is the string
    method of that name.  In [typeSeverityMap[type] || 'Medium'] an own
    property is a string (falsy when empty), an inherited one is a function
    or an object and so truthy. *)
Definition analyzeIncident_extended (toLowerCase : string -> string)
    (outcome : AnalysisOutcome) (type0 : string) : Analysis :=
  match outcome with
  | AnalysisObject a => image_check (normalize_analysis a)
  | _ =>
      let fallbackSeverity :=
        match lookup_string typeSeverityMap type0 with
        | OwnProperty s =>
            if String.eqb s "" then SeverityString "Medium"
            else SeverityString s
        | InheritedProperty name => SeverityInherited name
        | NoProperty => SeverityString "Medium"
        end in
      mkAnalysis fallbackSeverity None
        (if String.eqb type0 "Fire" then 8
         else if String.eqb type0 "Medical" then 5 else 12)
        [type0 ++ " emergency reported"; "Location captured";
         "Awaiting responder dispatch"]
        ["emergency"; toLowerCase type0]
        (type0 ++ " emergency incident reported. AI analysis temporarily unavailable.")
        None (Some "fallback")
  end%string.

(** The text an inherited property value turns into where the router uses
    it as a property key: the source text of the built-in function, or of
    [Object.prototype] under [__proto__].  As the [severity] of a new
    document either is refused by the schema.  The handler of [POST /report]
    checks the type against [validTypes] first, none of which is such a
    name. *)
Definition inherited_text (name : string) : string :=
  (if String.eqb name "__proto__" then "[object Object]"
   else if String.eqb name "constructor"
        then "function Object() { [native code] }"
        else "function " ++ name ++ "() { [native code] }")%string.

Definition severity_text (v : SeverityValue) : string :=
  match v with
  | SeverityString s => s
  | SeverityInherited name => inherited_text name
  end.

(** The value is one of the four severities. *)
Definition valid_severity (v : SeverityValue) : Prop :=
  exists s : string, v = SeverityString s /\ In s validSeverities.

(** What the router reads of an analysis, with the [severity] as the text
    of its value. *)
Definition router_view (a : Analysis) : AiAnalysis :=
  mkAiAnalysis (severity_text (an_severity a)) (an_imageAnalysis a) None.

(** The environment of a report whose [analyzeIncident] is the function of
    the revision, given the reply of the model to each prompt. *)
Definition analysis_env (rev : Revision) (toLowerCase : string -> string)
    (answers : string -> string -> option string -> AnalysisOutcome)
    (now : Z) (oracle : OracleOutcome) (new_id : Z) : ReportEnv :=
  mkReportEnv now oracle
    (fun description0 type0 imagePath =>
       router_view
         (match rev with
          | Basic => analyzeIncident_basic (answers description0 type0 imagePath)
          | Extended =>
              analyzeIncident_extended toLowerCase
                (answers description0 type0 imagePath) type0
          end))
    new_id.

(** ** routes/incidents.js: the handlers addressed by [:id] *)

(** [incident.status = v], [incident.verified = v] and the two assignments
    of the re-analysis, on a document. *)
Definition set_status (v : string) (i : Incident) : Incident :=
  mkIncident (_id i) (type i) (description i) (location i) (severity i)
    v (ai_analysis i) (reportedBy i) (mediaUrl i) (upvotes i) (verified i)
    (timestamp i).

Definition set_verified (v : bool) (i : Incident) : Incident :=
  mkIncident (_id i) (type i) (description i) (location i) (severity i)
    (status i) (ai_analysis i) (reportedBy i) (mediaUrl i) (upvotes i) v
    (timestamp i).

Definition set_analysis (a : AiAnalysis) (i : Incident) : Incident :=
  mkIncident (_id i) (type i) (description i) (location i) (ai_severity a)
    (status i) (Some a) (reportedBy i) (mediaUrl i) (upvotes i) (verified i)
    (timestamp i).

(** [Incident.findById(id)] *)
Definition findById (id : Z) (db : list Incident) : option Incident :=
  find (fun i => (_id i =? id)%Z) db.

(** [Incident.findByIdAndUpdate(id, update, { new: true })]: the updated
    document, if one has that [_id], and the collection afterwards. *)
Fixpoint findByIdAndUpdate (id : Z) (update : Incident -> Incident)
    (db : list Incident) : option Incident * list Incident :=
  match db with
  | [] => (None, [])
  | i :: rest =>
      if (_id i =? id)%Z then (Some (update i), update i :: rest)
      else
        let '(found, rest') := findByIdAndUpdate id update rest in
        (found, i :: rest')
  end.

(** [Incident.findByIdAndDelete(id)] *)
Fixpoint findByIdAndDelete (id : Z) (db : list Incident)
    : option Incident * list Incident :=
  match db with
  | [] => (None, [])
  | i :: rest =>
      if (_id i =? id)%Z then (Some i, rest)
      else
        let '(found, rest') := findByIdAndDelete id rest in
        (found, i :: rest')
  end.

(** Status code and body of a reply. *)
Inductive Reply (A : Type) :=
| Failure (code : Z) (error : string)
| Success (code : Z) (body : A).

Arguments Failure {A} code error.
Arguments Success {A} code body.

(** [PATCH /:id/upvote]: the reply carries the new counter. *)
Definition patch_upvote (id : Z) (db : list Incident)
    : Reply Z * list Incident :=
  match findByIdAndUpdate id (fun i => set_upvotes (upvotes i + 1) i) db with
  | (Some incident, db') => (Success 200 (upvotes incident), db')
  | (None, db') => (Failure 404 "Incident not found", db')
  end.

(** [PATCH /:id/verify] *)
Definition patch_verify (id : Z) (db : list Incident)
    : Reply Incident * list Incident :=
  match
    findByIdAndUpdate id (fun i => set_status "Verified" (set_verified true i)) db
  with
  | (Some incident, db') => (Success 200 incident, db')
  | (None, db') => (Failure 404 "Incident not found", db')
  end.

(** The body of [PATCH /:id/status].  [responderNotes] and [assignedTo] go to
    fields of the document that the record here does not carry. *)
Record StatusBody := mkStatusBody {
  sb_status : option string;
  sb_responderNotes : option string;
  sb_assignedTo : option string
}.

Definition validStatuses : list string :=
  ["Reported"; "Verified"; "In Progress"; "Dispatched"; "Resolved"; "Closed"]%string.

(** [PATCH /:id/status] *)
Definition patch_status (id : Z) (body : StatusBody) (db : list Incident)
    : Reply Incident * list Incident :=
  match sb_status body with
  | Some st =>
      if truthy_string (Some st) && negb (existsb (String.eqb st) validStatuses)
      then
        (Failure 400
           ("Invalid status. Must be one of: "
              ++ String.concat ", " validStatuses), db)
      else
        match
          findByIdAndUpdate id
            (fun i => if truthy_string (Some st) then set_status st i else i) db
        with
        | (Some incident, db') => (Success 200 incident, db')
        | (None, db') => (Failure 404 "Incident not found", db')
        end
  | None =>
      match findByIdAndUpdate id (fun i => i) db with
      | (Some incident, db') => (Success 200 incident, db')
      | (None, db') => (Failure 404 "Incident not found", db')
      end
  end.

(** [DELETE /:id] *)
Definition delete_incident (id : Z) (db : list Incident)
    : Reply string * list Incident :=
  match findByIdAndDelete id db with
  | (Some _, db') => (Success 200 "Incident deleted successfully"%string, db')
  | (None, db') => (Failure 404 "Incident not found", db')
  end.

(** [GET /:id]: the incident with its [priority] and [priorityLevel]. *)
Definition get_incident (now : Z) (id : Z) (db : list Incident)
    : Reply QueueEntry :=
  match findById id db with
  | Some incident =>
      let priority := calculatePriority now incident None in
      Success 200
        (mkQueueEntry (mkRanked incident priority) (getPriorityLevel priority))
  | None => Failure 404 "Incident not found"
  end.

(** [POST /:id/analyze] (later revision): the document gets the fresh
    analysis and its severity. *)
Definition post_analyze (now : Z)
    (analyze : string -> string -> option string -> AiAnalysis)
    (id : Z) (db : list Incident) : Reply QueueEntry * list Incident :=
  match findById id db with
  | Some incident =>
      let aiAnalysis := analyze (description incident) (type incident) None in
      let incident := set_analysis aiAnalysis incident in
      let priority := calculatePriority now incident None in
      (Success 200
         (mkQueueEntry (mkRanked incident priority) (getPriorityLevel priority)),
       map (fun stored =>
              if (_id stored =? _id incident)%Z
              then set_analysis aiAnalysis stored else stored) db)
  | None => (Failure 404 "Incident not found", db)
  end.

(** *** [GET /stats] *)

(** [Incident.countDocuments(filter)] *)
Definition countDocuments (p : Incident -> bool) (db : list Incident) : Z :=
  Z.of_nat (List.length (filter p db)).

(** One more document of category [t] in the groups of
    [{ $group: { _id: '$type', count: { $sum: 1 } } }]. *)
Fixpoint count_in_group (t : string) (groups : list (string * Z))
    : list (string * Z) :=
  match groups with
  | [] => [(t, 1%Z)]
  | (k, n) :: rest =>
      if String.eqb k t then (k, (n + 1)%Z) :: rest
      else (k, n) :: count_in_group t rest
  end.

(** The groups of the aggregation, which the handler folds into the object
    [byType]; the order of the groups is the store's. *)
Definition group_by_type (db : list Incident) : list (string * Z) :=
  fold_right (fun i groups => count_in_group (type i) groups) [] db.

(** [byType[t]] *)
Fixpoint by_type (groups : list (string * Z)) (t : string) : option Z :=
  match groups with
  | [] => None
  | (k, n) :: rest => if String.eqb k t then Some n else by_type rest t
  end.

Record Stats := mkStats {
  st_total : Z;
  st_critical : Z;
  st_high : Z;
  st_inProgress : Z;
  st_resolved : Z;
  st_pending : Z;
  st_last24h : Z;
  st_byType : list (string * Z)
}.

(** The handler of [GET /stats]. *)
Definition get_stats (now : Z) (db : list Incident) : Stats :=
  let total := countDocuments (fun _ => true) db in
  let critical := countDocuments (fun i => String.eqb (severity i) "Critical") db in
  let high := countDocuments (fun i => String.eqb (severity i) "High") db in
  let inProgress :=
    countDocuments (fun i => String.eqb (status i) "In Progress") db in
  let resolved := countDocuments (fun i => String.eqb (status i) "Resolved") db in
  let pending :=
    countDocuments
      (fun i => existsb (String.eqb (status i)) ["Pending"; "Reported"]%string)
      db in
  let byType := group_by_type db in
  let dayAgo := (now - 24 * 60 * 60 * 1000)%Z in
  let last24h := countDocuments (fun i => (dayAgo <=? timestamp i)%Z) db in
  mkStats total critical high inProgress resolved pending last24h byType.

(** The sum of the counts of the groups. *)
Definition sum_counts (groups : list (string * Z)) : Z :=
  fold_right (fun g acc => (snd g + acc)%Z) 0%Z groups.

(** ** Properties of a collection *)

(** No stored upvote counter is below 1. *)
Definition upvotes_positive (db : list Incident) : Prop :=
  Forall (fun i => (1 <= upvotes i)%Z) db.

(** Identities are unique. *)
Definition unique_ids (db : list Incident) : Prop := NoDup (map _id db).

(** Every record lies more than 100 m from each earlier record of its
    category that was at most 30 minutes older than it. *)
Definition tight_separated (db : list Incident) : Prop :=
  forall (j k : nat) (a b : Incident),
    (j < k)%nat ->
    nth_error db j = Some a -> nth_error db k = Some b ->
    type a = type b ->
    (timestamp b - 30 * 60 * 1000 <= timestamp a)%Z ->
    100 < meters_to (lat (location b)) (lng (location b)) a.

(** * Properties *)

(** ** Evaluating [Math] on given numbers *)

Lemma leb_true (x y : R) : x <= y -> JsMath.leb x y = true.
Proof. intros H. unfold JsMath.leb. destruct (Rle_dec x y); [reflexivity | contradiction]. Qed.

Lemma leb_false (x y : R) : y < x -> JsMath.leb x y = false.
Proof. intros H. unfold JsMath.leb. destruct (Rle_dec x y); [exfalso; lra | reflexivity]. Qed.

Lemma leb_true_iff (x y : R) : JsMath.leb x y = true <-> x <= y.
Proof.
  unfold JsMath.leb. destruct (Rle_dec x y); split; intros; auto; discriminate.
Qed.

Lemma leb_false_iff (x y : R) : JsMath.leb x y = false <-> y < x.
Proof.
  unfold JsMath.leb. destruct (Rle_dec x y); split; intros; auto; try discriminate; lra.
Qed.

Lemma truthy_nonzero (x : R) : x <> 0 -> JsMath.truthy x = true.
Proof. intros H. unfold JsMath.truthy. destruct (Req_dec_T x 0); [contradiction | reflexivity]. Qed.

Lemma truthy_zero : JsMath.truthy 0 = false.
Proof. unfold JsMath.truthy. destruct (Req_dec_T 0 0); [reflexivity | contradiction]. Qed.

Lemma truthy_true_iff (x : R) : JsMath.truthy x = true <-> x <> 0.
Proof.
  unfold JsMath.truthy.
  destruct (Req_dec_T x 0); split; intros; auto; try discriminate; try contradiction.
Qed.

Lemma floor_eq (z : Z) (x : R) : IZR z <= x < IZR z + 1 -> JsMath.floor x = z.
Proof. apply Zfloor_eq. Qed.

(** [Math.round] returns the integer [n] with [n - 1/2 <= x < n + 1/2]. *)
Lemma round_eq (z : Z) (x : R) :
  IZR z - 1 / 2 <= x < IZR z + 1 / 2 -> JsMath.round x = z.
Proof. intros H. unfold JsMath.round. apply Zfloor_eq. lra. Qed.

Lemma round_bound (x : R) :
  IZR (JsMath.round x) - 1 / 2 <= x < IZR (JsMath.round x) + 1 / 2.
Proof.
  unfold JsMath.round. pose proof (Zfloor_bound (x + 1 / 2)). lra.
Qed.

Lemma round_IZR (z : Z) : JsMath.round (IZR z) = z.
Proof. apply round_eq. lra. Qed.

Lemma round_nonneg (x : R) : 0 <= x -> (0 <= JsMath.round x)%Z.
Proof.
  intros H. unfold JsMath.round. apply Zfloor_lub. simpl. lra.
Qed.

(** ** The great-circle distance *)

Lemma atan2_0_1 : JsMath.atan2 0 1 = 0.
Proof.
  unfold JsMath.atan2.
  destruct (Rlt_dec 0 1) as [_ | H]; [| exfalso; lra].
  replace (0 / 1) with 0 by lra. apply atan_0.
Qed.

Lemma atan2_1_0 : JsMath.atan2 1 0 = PI / 2.
Proof.
  unfold JsMath.atan2.
  destruct (Rlt_dec 0 0) as [H | _]; [exfalso; lra |].
  destruct (Rlt_dec 0 1) as [_ | H]; [reflexivity | exfalso; lra].
Qed.

Lemma calculateDistance_same (lat0 lng0 : R) :
  calculateDistance lat0 lng0 lat0 lng0 = 0.
Proof.
  unfold calculateDistance.
  replace ((lat0 - lat0) * PI / 180 / 2) with 0 by lra.
  replace ((lng0 - lng0) * PI / 180 / 2) with 0 by lra.
  rewrite sin_0.
  replace (0 * 0 + cos (lat0 * PI / 180) * cos (lat0 * PI / 180) * 0 * 0)
    with 0 by lra.
  rewrite sqrt_0, Rminus_0_r, sqrt_1, atan2_0_1. lra.
Qed.

(** The squared half-angle sine does not see the direction of a difference. *)
Lemma sin_half_diff_sq (x y : R) :
  sin ((y - x) * PI / 180 / 2) * sin ((y - x) * PI / 180 / 2) =
  sin ((x - y) * PI / 180 / 2) * sin ((x - y) * PI / 180 / 2).
Proof.
  replace ((y - x) * PI / 180 / 2) with (- ((x - y) * PI / 180 / 2)) by lra.
  rewrite sin_neg. ring.
Qed.

Lemma calculateDistance_sym (lat1 lng1 lat2 lng2 : R) :
  calculateDistance lat1 lng1 lat2 lng2 = calculateDistance lat2 lng2 lat1 lng1.
Proof.
  unfold calculateDistance.
  assert (Ha :
    sin ((lat2 - lat1) * PI / 180 / 2) * sin ((lat2 - lat1) * PI / 180 / 2) +
    cos (lat1 * PI / 180) * cos (lat2 * PI / 180) *
      sin ((lng2 - lng1) * PI / 180 / 2) * sin ((lng2 - lng1) * PI / 180 / 2) =
    sin ((lat1 - lat2) * PI / 180 / 2) * sin ((lat1 - lat2) * PI / 180 / 2) +
    cos (lat2 * PI / 180) * cos (lat1 * PI / 180) *
      sin ((lng1 - lng2) * PI / 180 / 2) * sin ((lng1 - lng2) * PI / 180 / 2)).
  { pose proof (sin_half_diff_sq lat1 lat2) as H1.
    pose proof (sin_half_diff_sq lng1 lng2) as H2.
    rewrite H1.
    rewrite !Rmult_assoc. rewrite H2. ring. }
  rewrite Ha. reflexivity.
Qed.

(** Within the valid range of latitudes both square roots of the formula are
    taken of a number between 0 and 1. *)
Lemma haversine_a_range (lat1 lng1 lat2 lng2 : R) :
  -90 <= lat1 <= 90 -> -90 <= lat2 <= 90 ->
  0 <=
    sin ((lat2 - lat1) * PI / 180 / 2) * sin ((lat2 - lat1) * PI / 180 / 2) +
    cos (lat1 * PI / 180) * cos (lat2 * PI / 180) *
      sin ((lng2 - lng1) * PI / 180 / 2) * sin ((lng2 - lng1) * PI / 180 / 2)
  <= 1.
Proof.
  intros H1 H2. pose proof PI_RGT_0 as Hpi.
  set (p1 := lat1 * PI / 180). set (p2 := lat2 * PI / 180).
  set (y := (lng2 - lng1) * PI / 180 / 2).
  replace ((lat2 - lat1) * PI / 180 / 2) with ((p2 - p1) / 2)
    by (subst p1 p2; lra).
  set (x := (p2 - p1) / 2).
  assert (Hc1 : 0 <= cos p1) by (apply cos_ge_0; subst p1; nra).
  assert (Hc2 : 0 <= cos p2) by (apply cos_ge_0; subst p2; nra).
  assert (Hsy : 0 <= sin y * sin y <= 1).
  { pose proof (sin2_cos2 y) as H. unfold Rsqr in H.
    pose proof (Rle_0_sqr (sin y)) as Hs. pose proof (Rle_0_sqr (cos y)) as Hc.
    unfold Rsqr in Hs, Hc. lra. }
  assert (Hsx : sin x * sin x = (1 - (cos p2 * cos p1 + sin p2 * sin p1)) / 2).
  { rewrite <- cos_minus. replace (p2 - p1) with (2 * x) by (subst x; lra).
    rewrite cos_2a_sin. lra. }
  assert (Hsum : cos p1 * cos p2 - sin p1 * sin p2 <= 1).
  { rewrite <- cos_plus. pose proof (COS_bound (p1 + p2)). lra. }
  assert (Hsx0 : 0 <= sin x * sin x).
  { pose proof (Rle_0_sqr (sin x)) as H. unfold Rsqr in H. exact H. }
  assert (Hprod : 0 <= cos p1 * cos p2) by (apply Rmult_le_pos; assumption).
  assert (Hterm : 0 <= cos p1 * cos p2 * sin y * sin y <= cos p1 * cos p2).
  { rewrite Rmult_assoc. split; nra. }
  lra.
Qed.

(** The quadrant rule returns a non-negative angle for non-negative inputs. *)
Lemma atan2_nonneg (y x : R) : 0 <= y -> 0 <= x -> 0 <= JsMath.atan2 y x.
Proof.
  intros Hy Hx. unfold JsMath.atan2. pose proof PI_RGT_0 as Hpi.
  destruct (Rlt_dec 0 x) as [Hpos | _].
  - rewrite <- atan_0.
    destruct (Req_dec_T (y / x) 0) as [E | N]; [rewrite E; lra |].
    apply Rlt_le, atan_increasing.
    assert (0 <= y / x)
      by (apply Rmult_le_pos; [exact Hy | apply Rlt_le, Rinv_0_lt_compat, Hpos]).
    lra.
  - destruct (Rlt_dec x 0); [exfalso; lra |].
    destruct (Rlt_dec 0 y); [lra |].
    destruct (Rlt_dec y 0); [exfalso; lra | lra].
Qed.

Lemma calculateDistance_nonneg (lat1 lng1 lat2 lng2 : R) :
  0 <= calculateDistance lat1 lng1 lat2 lng2.
Proof.
  unfold calculateDistance.
  pose proof (atan2_nonneg _ _ (sqrt_pos
    (sin ((lat2 - lat1) * PI / 180 / 2) * sin ((lat2 - lat1) * PI / 180 / 2) +
     cos (lat1 * PI / 180) * cos (lat2 * PI / 180) *
       sin ((lng2 - lng1) * PI / 180 / 2) * sin ((lng2 - lng1) * PI / 180 / 2)))
    (sqrt_pos (1 -
    (sin ((lat2 - lat1) * PI / 180 / 2) * sin ((lat2 - lat1) * PI / 180 / 2) +
     cos (lat1 * PI / 180) * cos (lat2 * PI / 180) *
       sin ((lng2 - lng1) * PI / 180 / 2) * sin ((lng2 - lng1) * PI / 180 / 2)))))
    as H.
  lra.
Qed.

(** From pole to pole the distance is half the circumference. *)
Lemma calculateDistance_poles (lng0 : R) :
  calculateDistance 90 lng0 (-90) lng0 = 6371000 * PI.
Proof.
  unfold calculateDistance.
  replace ((-90 - 90) * PI / 180 / 2) with (- (PI / 2)) by lra.
  replace ((lng0 - lng0) * PI / 180 / 2) with 0 by lra.
  replace (90 * PI / 180) with (PI / 2) by lra.
  rewrite sin_neg, sin_PI2, sin_0, cos_PI2.
  replace (-(1) * -(1) + 0 * cos (-90 * PI / 180) * 0 * 0) with 1 by lra.
  rewrite sqrt_1. replace (1 - 1) with 0 by lra.
  rewrite sqrt_0, atan2_1_0. lra.
Qed.

Lemma calculateDistance_poles_far (lng0 : R) :
  500 < calculateDistance 90 lng0 (-90) lng0.
Proof.
  rewrite calculateDistance_poles. pose proof PI2_3_2. lra.
Qed.

(** Due north along a meridian the distance is the arc of the latitude
    difference. *)
Lemma calculateDistance_meridian (lat1 lat2 lng0 : R) :
  0 <= lat2 - lat1 < 180 ->
  calculateDistance lat1 lng0 lat2 lng0 = 6371000 * ((lat2 - lat1) * PI / 180).
Proof.
  intros [Hlo Hhi]. unfold calculateDistance.
  replace ((lng0 - lng0) * PI / 180 / 2) with 0 by lra.
  rewrite sin_0.
  set (x := (lat2 - lat1) * PI / 180 / 2).
  pose proof PI_RGT_0 as Hpi.
  assert (Hx0 : 0 <= x) by (subst x; nra).
  assert (Hx1 : x < PI / 2) by (subst x; nra).
  assert (Hsin : 0 <= sin x) by (apply sin_ge_0; lra).
  assert (Hcos : 0 < cos x) by (apply cos_gt_0; lra).
  replace (sin x * sin x + cos (lat1 * PI / 180) * cos (lat2 * PI / 180) * 0 * 0)
    with (sin x * sin x) by lra.
  rewrite (sqrt_square (sin x) Hsin).
  replace (1 - sin x * sin x) with (cos x * cos x)
    by (pose proof (sin2_cos2 x) as H; unfold Rsqr in H; lra).
  rewrite (sqrt_square (cos x)) by lra.
  unfold JsMath.atan2.
  destruct (Rlt_dec 0 (cos x)) as [_ | N]; [| contradiction].
  change (sin x / cos x) with (tan x).
  rewrite atan_tan by lra.
  subst x. lra.
Qed.

Lemma meters_to_north_of (id : Z) (type0 status0 : string) (meters : R)
    (ts : Z) :
  0 <= meters <= 1000 ->
  meters_to 10 20 (sample_incident id type0 status0 meters ts) = meters.
Proof.
  intros [Hlo Hhi]. unfold meters_to, sample_incident, north_of.
  cbn [location position lat lng].
  pose proof PI_RGT_0 as Hpi. pose proof PI2_3_2 as Hpi3.
  assert (Hd : 0 < 6371000 * PI) by nra.
  assert (Hq : 0 <= meters * 180 / (6371000 * PI) < 180).
  { split.
    - apply Rmult_le_pos; [nra | apply Rlt_le, Rinv_0_lt_compat, Hd].
    - apply (Rmult_lt_reg_r (6371000 * PI)); [exact Hd |].
      unfold Rdiv. rewrite Rmult_assoc, Rinv_l by lra. nra. }
  rewrite calculateDistance_meridian by lra.
  field. lra.
Qed.

(** C8.  The distance from a point to itself is zero, and the distance does
    not depend on the order of the two points. *)
Theorem calculateDistance_identity_symmetry :
  (forall lat0 lng0 : R, calculateDistance lat0 lng0 lat0 lng0 = 0) /\
  (forall lat1 lng1 lat2 lng2 : R,
      calculateDistance lat1 lng1 lat2 lng2 =
      calculateDistance lat2 lng2 lat1 lng1).
Proof.
  split.
  - exact calculateDistance_same.
  - exact calculateDistance_sym.
Qed.

(** ** The priority score *)

Lemma severity_lookup (sev : string) :
  or_else (lookup severityScores sev) 40 = severityBase sev.
Proof.
  unfold severityBase, severityScores, lookup.
  rewrite (String.eqb_sym "Critical" sev), (String.eqb_sym "High" sev),
    (String.eqb_sym "Medium" sev), (String.eqb_sym "Low" sev).
  destruct (String.eqb sev "Critical");
    [simpl; rewrite truthy_nonzero; [reflexivity | lra] |].
  destruct (String.eqb sev "High");
    [simpl; rewrite truthy_nonzero; [reflexivity | lra] |].
  destruct (String.eqb sev "Medium");
    [simpl; rewrite truthy_nonzero; [reflexivity | lra] |].
  destruct (String.eqb sev "Low");
    [simpl; rewrite truthy_nonzero; [reflexivity | lra] |].
  reflexivity.
Qed.

Lemma category_lookup (cat : string) :
  or_else (lookup typeBonus cat) 0 = categoryBonus cat.
Proof.
  unfold categoryBonus, typeBonus, lookup.
  rewrite (String.eqb_sym "Medical" cat), (String.eqb_sym "Fire" cat),
    (String.eqb_sym "Crime" cat), (String.eqb_sym "Accident" cat),
    (String.eqb_sym "Infrastructure" cat).
  destruct (String.eqb cat "Medical");
    [simpl; rewrite truthy_nonzero; [reflexivity | lra] |].
  destruct (String.eqb cat "Fire");
    [simpl; rewrite truthy_nonzero; [reflexivity | lra] |].
  destruct (String.eqb cat "Crime");
    [simpl; rewrite truthy_nonzero; [reflexivity | lra] |].
  destruct (String.eqb cat "Accident");
    [simpl; rewrite truthy_nonzero; [reflexivity | lra] |].
  destruct (String.eqb cat "Infrastructure");
    [simpl; rewrite truthy_zero; reflexivity |].
  reflexivity.
Qed.

Lemma calculatePriority_formula (now : Z) (incident : Incident)
    (responder : option LatLng) :
  calculatePriority now incident responder =
  clamp 0 200 (JsMath.round (prioritySum now incident responder)).
Proof.
  unfold calculatePriority, clamp, prioritySum.
  rewrite severity_lookup, category_lookup.
  do 3 f_equal.
  unfold timeDecay, ageMinutes, corroborationBoost, distancePenalty,
    verificationBonus, statusAdjustment, JsMath.floor.
  replace (1000 * 60) with 60000 by lra.
  destruct responder as [r |]; destruct (verified incident);
    destruct (String.eqb (status incident) "In Progress");
    destruct (String.eqb (status incident) "Resolved"); lra.
Qed.

Lemma calculatePriority_range (now : Z) (incident : Incident)
    (responder : option LatLng) :
  (0 <= calculatePriority now incident responder <= 200)%Z.
Proof. unfold calculatePriority. lia. Qed.

Lemma getPriorityLevel_spec (score : Z) :
  (getPriorityLevel score = "CRITICAL"%string <-> (120 <= score)%Z) /\
  (getPriorityLevel score = "HIGH"%string <-> (90 <= score < 120)%Z) /\
  (getPriorityLevel score = "MEDIUM"%string <-> (60 <= score < 90)%Z) /\
  (getPriorityLevel score = "LOW"%string <-> (score < 60)%Z).
Proof.
  unfold getPriorityLevel.
  destruct (Z.leb_spec 120 score); [| destruct (Z.leb_spec 90 score);
    [| destruct (Z.leb_spec 60 score)]];
    repeat split; intros; try discriminate; try lia; reflexivity.
Qed.

Lemma worked_example_score (id : Z) (desc : string) (loc : Location)
    (ai : option AiAnalysis) (who : string) (media : option string) (ts : Z) :
  calculatePriority (ts + 25 * 60 * 1000)
    (mkIncident id "Medical" desc loc "Critical" "Reported" ai who media 3 true ts)
    None = 151%Z.
Proof.
  rewrite calculatePriority_formula.
  unfold prioritySum, ageMinutes, timeDecay, corroborationBoost,
    distancePenalty, verificationBonus. simpl.
  replace (ts + 1500000 - ts)%Z with 1500000%Z by lia.
  replace (1500000 / 60000 / 10) with (25 / 10) by lra.
  rewrite (Zfloor_eq 2 (25 / 10)) by lra.
  rewrite Rmax_right by lra.
  rewrite Rmin_left by lra.
  unfold severityBase, statusAdjustment, categoryBonus. simpl.
  replace (100 + (30 - 2 * 5) + 3 * 2 - 0 + 15 + 0 + 10) with (IZR 151) by lra.
  rewrite round_IZR. reflexivity.
Qed.

(** C1.  [calculatePriority] is the clamp to [0, 200] of the rounded sum of
    the seven terms (severity base, stepped time decay, corroboration boost,
    minus the distance penalty when a responder coordinate is given,
    verification bonus, status adjustment, category bonus); [getPriorityLevel]
    cuts the score at 120, 90 and 60; and the worked example (Critical, 25
    minutes old, corroboration 3, verified, Reported, Medical, no responder)
    scores 151, CRITICAL. *)
Theorem calculatePriority_contract :
  (forall (now : Z) (incident : Incident) (responder : option LatLng),
      calculatePriority now incident responder =
      clamp 0 200
        (JsMath.round
           (severityBase (severity incident)
            + Rmax 0 (30 - IZR (Zfloor (ageMinutes now incident / 10)) * 5)
            + Rmin (IZR (upvotes incident) * 2) 20
            - match responder with
              | Some r =>
                  Rmin (calculateDistance (lat r) (lng r)
                          (lat (location incident)) (lng (location incident))
                        / 1000 * 2) 30
              | None => 0
              end
            + (if verified incident then 15 else 0)
            + statusAdjustment (status incident)
            + categoryBonus (type incident)))) /\
  (forall score : Z,
      (getPriorityLevel score = "CRITICAL"%string <-> (120 <= score)%Z) /\
      (getPriorityLevel score = "HIGH"%string <-> (90 <= score < 120)%Z) /\
      (getPriorityLevel score = "MEDIUM"%string <-> (60 <= score < 90)%Z) /\
      (getPriorityLevel score = "LOW"%string <-> (score < 60)%Z)) /\
  (forall (id : Z) (desc : string) (loc : Location) (ai : option AiAnalysis)
          (who : string) (media : option string) (ts : Z),
      let incident :=
        mkIncident id "Medical" desc loc "Critical" "Reported" ai who media
          3 true ts in
      let score := calculatePriority (ts + 25 * 60 * 1000) incident None in
      score = 151%Z /\ getPriorityLevel score = "CRITICAL"%string).
Proof.
  split; [| split].
  - intros. apply calculatePriority_formula.
  - apply getPriorityLevel_spec.
  - intros. subst incident score. rewrite worked_example_score.
    split; reflexivity.
Qed.

(** ** The stable descending sort *)

Section SortFacts.
Context {A : Type}.
Variable key : A -> Z.

Lemma sort_insert_perm (cmp : A -> A -> Z) (x : A) (l : list A) :
  Permutation (sort_insert cmp x l) (x :: l).
Proof.
  induction l as [| y l IH]; simpl.
  - apply Permutation_refl.
  - destruct (0 <? cmp x y)%Z.
    + apply perm_trans with (y :: x :: l).
      * apply perm_skip, IH.
      * apply perm_swap.
    + apply Permutation_refl.
Qed.

Lemma sort_perm (cmp : A -> A -> Z) (l : list A) :
  Permutation (sort cmp l) l.
Proof.
  induction l as [| x l IH]; simpl.
  - apply perm_nil.
  - apply perm_trans with (x :: sort cmp l).
    + apply sort_insert_perm.
    + apply perm_skip, IH.
Qed.

Lemma sort_In (cmp : A -> A -> Z) (l : list A) (x : A) :
  In x (sort cmp l) <-> In x l.
Proof.
  split; apply Permutation_in.
  - apply sort_perm.
  - apply Permutation_sym, sort_perm.
Qed.

Lemma sort_length (cmp : A -> A -> Z) (l : list A) :
  List.length (sort cmp l) = List.length l.
Proof. apply Permutation_length, sort_perm. Qed.

Lemma sort_insert_sorted (x : A) (l : list A) :
  descending_sorted key l -> descending_sorted key (sort_insert (descending key) x l).
Proof.
  unfold descending_sorted.
  induction l as [| y l IH]; intros Hs; simpl.
  - constructor; [constructor | constructor].
  - inversion Hs as [| ? ? Hl Hy]; subst.
    unfold descending at 1.
    destruct (Z.ltb_spec 0 (key y - key x)) as [Hlt | Hge].
    + constructor.
      * apply IH, Hl.
      * apply Forall_forall. intros z Hz.
        apply (Permutation_in _ (sort_insert_perm (descending key) x l)) in Hz.
        destruct Hz as [<- | Hz]; [lia |].
        rewrite Forall_forall in Hy. apply Hy, Hz.
    + constructor; [exact Hs |].
      constructor; [lia |].
      apply Forall_forall. intros z Hz.
      rewrite Forall_forall in Hy. specialize (Hy z Hz). lia.
Qed.

Lemma sort_sorted (l : list A) : descending_sorted key (sort (descending key) l).
Proof.
  induction l as [| x l IH]; simpl.
  - constructor.
  - apply sort_insert_sorted, IH.
Qed.

(** Stability: among the elements of any one key the order is the input's. *)
Lemma sort_insert_stable (k : Z) (x : A) (l : list A) :
  filter (fun a => (key a =? k)%Z) (sort_insert (descending key) x l) =
  filter (fun a => (key a =? k)%Z) (x :: l).
Proof.
  induction l as [| y l IH]; [reflexivity |].
  simpl sort_insert. unfold descending at 1.
  destruct (Z.ltb_spec 0 (key y - key x)) as [Hlt | Hge]; [| reflexivity].
  simpl. simpl in IH. rewrite IH.
  destruct (Z.eqb_spec (key y) k), (Z.eqb_spec (key x) k); try reflexivity.
  lia.
Qed.

Lemma sort_stable (k : Z) (l : list A) :
  filter (fun a => (key a =? k)%Z) (sort (descending key) l) =
  filter (fun a => (key a =? k)%Z) l.
Proof.
  induction l as [| x l IH]; [reflexivity |].
  simpl sort. rewrite sort_insert_stable. simpl. rewrite IH. reflexivity.
Qed.

(** Sorting a list that is already in order returns it. *)
Lemma sort_sorted_id (l : list A) :
  descending_sorted key l -> sort (descending key) l = l.
Proof.
  unfold descending_sorted.
  induction l as [| x l IH]; intros Hs; [reflexivity |].
  inversion Hs as [| ? ? Hl Hx]; subst.
  simpl. rewrite (IH Hl).
  destruct l as [| y l]; [reflexivity |].
  simpl. unfold descending.
  inversion Hx as [| ? ? Hy _]; subst.
  destruct (Z.ltb_spec 0 (key y - key x)); [lia | reflexivity].
Qed.

Lemma In_firstn (n : nat) (l : list A) (x : A) :
  In x (firstn n l) -> In x l.
Proof.
  revert n. induction l as [| y l IH]; intros n H; destruct n; simpl in *;
    try contradiction.
  destruct H as [H | H]; [left; exact H | right; apply (IH n H)].
Qed.

Lemma sort_idempotent (l : list A) :
  sort (descending key) (sort (descending key) l) = sort (descending key) l.
Proof. apply sort_sorted_id, sort_sorted. Qed.

Lemma descending_sorted_firstn (n : nat) (l : list A) :
  descending_sorted key l -> descending_sorted key (firstn n l).
Proof.
  unfold descending_sorted. revert n.
  induction l as [| x l IH]; intros n Hs; destruct n; simpl; try constructor.
  - inversion Hs; subst. apply IH. assumption.
  - inversion Hs as [| ? ? _ Hx]; subst.
    apply Forall_forall. intros z Hz.
    rewrite Forall_forall in Hx. apply Hx.
    apply (In_firstn n l z Hz).
Qed.

End SortFacts.

(** ** The priority queue *)

Lemma find_active_In (db : list Incident) (i : Incident) :
  In i (find_active db) <->
  In i db /\ status i <> "Resolved"%string /\ status i <> "Closed"%string.
Proof.
  unfold find_active. rewrite filter_In. simpl.
  destruct (String.eqb_spec (status i) "Resolved") as [E1 | E1];
    destruct (String.eqb_spec (status i) "Closed") as [E2 | E2]; simpl;
    split; intros [H1 H2]; try discriminate; try (split; [exact H1 | ]);
    try (split; assumption); try reflexivity;
    try (destruct H2 as [H2 H3]; contradiction).
Qed.

Lemma sortIncidentsByPriority_In (now : Z) (l : list Incident)
    (responder : option LatLng) (r : Ranked) :
  In r (sortIncidentsByPriority now l responder) <->
  In (ranked_incident r) l /\
  priority r = calculatePriority now (ranked_incident r) responder.
Proof.
  unfold sortIncidentsByPriority. rewrite sort_In, in_map_iff. split.
  - intros (i & <- & Hi). simpl. split; [exact Hi | reflexivity].
  - intros [Hi Hp]. exists (ranked_incident r). split; [| exact Hi].
    destruct r as [i p]. simpl in *. rewrite Hp. reflexivity.
Qed.

Lemma sortIncidentsByPriority_stable (now : Z) (l : list Incident)
    (responder : option LatLng) (s : Z) :
  map ranked_incident
    (filter (fun r => (priority r =? s)%Z)
       (sortIncidentsByPriority now l responder)) =
  filter (fun i => (calculatePriority now i responder =? s)%Z) l.
Proof.
  unfold sortIncidentsByPriority. rewrite sort_stable.
  induction l as [| i l IH]; [reflexivity |].
  simpl. destruct (calculatePriority now i responder =? s)%Z; simpl;
    rewrite IH; reflexivity.
Qed.

Lemma queue_entries (l : list Ranked) :
  map entry
    (map (fun inc => mkQueueEntry inc (getPriorityLevel (priority inc))) l) = l.
Proof.
  rewrite map_map. simpl. apply map_id.
Qed.

Lemma slice0_firstn {A : Type} (l : list A) (cap : Z) :
  (0 <= cap)%Z -> slice0 l (Int cap) = firstn (Z.to_nat cap) l.
Proof.
  intros H. unfold slice0.
  destruct (Z.ltb_spec cap 0); [lia | reflexivity].
Qed.

(** C6.  The queue holds no Resolved or Closed incident; every entry is a
    stored incident with its computed score and the label of that score; the
    entries are the first [cap] of the non-terminal incidents put in
    non-increasing order of score, incidents of equal score staying in
    retrieval order; and the collection is left as it was. *)
Theorem priority_queue_contract (now : Z) (db : list Incident)
    (q : QueueQuery) (cap : Z) :
  queue_limit q = Int cap ->
  (0 <= cap)%Z ->
  let responder :=
    match pq_lat q, pq_lng q with
    | Some la, Some ln => Some (mkLatLng la ln)
    | _, _ => None
    end in
  let out := fst (priority_queue now db q) in
  let ranked := sortIncidentsByPriority now (find_active db) responder in
  Forall (fun e =>
            status (ranked_incident (entry e)) <> "Resolved"%string /\
            status (ranked_incident (entry e)) <> "Closed"%string /\
            In (ranked_incident (entry e)) db /\
            priority (entry e) =
              calculatePriority now (ranked_incident (entry e)) responder /\
            priorityLevel e = getPriorityLevel (priority (entry e))) out /\
  descending_sorted priority (map entry out) /\
  map entry out = firstn (Z.to_nat cap) ranked /\
  List.length out = Nat.min (Z.to_nat cap) (List.length (find_active db)) /\
  (forall i : Incident,
      In i (map ranked_incident ranked) <->
      In i db /\ status i <> "Resolved"%string /\ status i <> "Closed"%string) /\
  descending_sorted priority ranked /\
  (forall s : Z,
      map ranked_incident (filter (fun r => (priority r =? s)%Z) ranked) =
      filter (fun i => (calculatePriority now i responder =? s)%Z)
        (find_active db)) /\
  snd (priority_queue now db q) = db.
Proof.
  intros Hlim Hcap responder out ranked.
  assert (Hout : out =
    map (fun inc => mkQueueEntry inc (getPriorityLevel (priority inc)))
      (firstn (Z.to_nat cap) ranked)).
  { subst out ranked responder. unfold priority_queue. rewrite Hlim.
    cbn [fst]. rewrite slice0_firstn by exact Hcap. reflexivity. }
  assert (Hsorted : descending_sorted priority ranked).
  { subst ranked. unfold sortIncidentsByPriority. apply sort_sorted. }
  split.
  { rewrite Hout. apply Forall_forall. intros e He.
    apply in_map_iff in He. destruct He as (r & <- & Hr). simpl.
    apply In_firstn in Hr. subst ranked.
    apply sortIncidentsByPriority_In in Hr. destruct Hr as [Hi Hp].
    apply find_active_In in Hi. destruct Hi as (Hi & H1 & H2).
    repeat split; assumption. }
  split.
  { rewrite Hout, queue_entries. apply descending_sorted_firstn, Hsorted. }
  split.
  { rewrite Hout, queue_entries. reflexivity. }
  split.
  { rewrite Hout, length_map, length_firstn. subst ranked.
    unfold sortIncidentsByPriority. rewrite sort_length, length_map.
    reflexivity. }
  split.
  { intros i. split.
    - intros Hi. apply in_map_iff in Hi. destruct Hi as (r & <- & Hr).
      subst ranked. apply sortIncidentsByPriority_In in Hr.
      destruct Hr as [Hi _]. apply find_active_In in Hi. exact Hi.
    - intros Hi. subst ranked. apply in_map_iff.
      exists (mkRanked i (calculatePriority now i responder)).
      split; [reflexivity |].
      apply sortIncidentsByPriority_In. simpl. split; [| reflexivity].
      apply find_active_In. exact Hi. }
  split; [exact Hsorted |].
  split; [| reflexivity].
  intros s. subst ranked. apply sortIncidentsByPriority_stable.
Qed.

(** ** The report handler *)

Lemma existsb_eqb_In (s : string) (l : list string) :
  existsb (String.eqb s) l = true <-> In s l.
Proof.
  rewrite existsb_exists. split.
  - intros (x & Hx & E). apply String.eqb_eq in E. subst. exact Hx.
  - intros H. exists s. split; [exact H | apply String.eqb_refl].
Qed.

Lemma truthy_string_true (o : option string) :
  truthy_string o = true <-> exists s, o = Some s /\ s <> ""%string.
Proof.
  unfold truthy_string. destruct o as [s |].
  - destruct (String.eqb_spec s ""); simpl; split.
    + discriminate.
    + intros (s' & E & N). inversion E; subst. contradiction.
    + intros _. exists s. split; [reflexivity | assumption].
    + reflexivity.
  - split; [discriminate | intros (s & E & _); discriminate].
Qed.

Lemma truthy_number_true (o : option R) :
  truthy_number o = true <-> exists x, o = Some x /\ x <> 0.
Proof.
  unfold truthy_number. destruct o as [x |].
  - rewrite truthy_true_iff. split.
    + intros N. exists x. split; [reflexivity | assumption].
    + intros (x' & E & N). inversion E; subst. assumption.
  - split; [discriminate | intros (x & E & _); discriminate].
Qed.

Lemma accepted_not_missing (rev : Revision) (req : ReportRequest)
    (type0 description0 : string) (l : ReqLocation) (lat0 lng0 : R) :
  accepted rev req type0 description0 l lat0 lng0 ->
  missing_required req = false.
Proof.
  intros (Ht & Nt & Hd & Nd & Hl & Hla & Nla & Hln & Nln & _).
  unfold missing_required. rewrite Ht, Hd, Hl, Hla, Hln.
  assert (E1 : truthy_string (Some type0) = true)
    by (apply truthy_string_true; eauto).
  assert (E2 : truthy_string (Some description0) = true)
    by (apply truthy_string_true; eauto).
  assert (E3 : truthy_number (Some lat0) = true)
    by (apply truthy_number_true; eauto).
  assert (E4 : truthy_number (Some lng0) = true)
    by (apply truthy_number_true; eauto).
  rewrite E1, E2, E3, E4. reflexivity.
Qed.

(** What the schema says of the document of a report that passed
    validation: its category and its severity decide. *)
Lemma schema_accepts_new_incident (env : ReportEnv) (req : ReportRequest)
    (type0 description0 : string) (l : ReqLocation) (lat0 lng0 : R)
    (ai : AiAnalysis) :
  description0 <> ""%string ->
  schema_accepts (new_incident env req type0 description0 l lat0 lng0 ai) =
  existsb (String.eqb type0) schema_types
  && existsb (String.eqb (ai_severity ai)) schema_severities.
Proof.
  intros Nd. unfold schema_accepts.
  cbn [new_incident type description severity status].
  apply String.eqb_neq in Nd. rewrite Nd.
  destruct (existsb (String.eqb type0) schema_types),
           (existsb (String.eqb (ai_severity ai)) schema_severities);
    reflexivity.
Qed.

(** What the handler does with a request that passes validation. *)
Lemma post_report_accepted (rev : Revision) (env : ReportEnv)
    (db : list Incident) (req : ReportRequest)
    (type0 description0 : string) (l : ReqLocation) (lat0 lng0 : R) :
  accepted rev req type0 description0 l lat0 lng0 ->
  post_report rev env db req =
  match
    matchedIncident lat0 lng0
      (find_type_since type0 (env_now env - 30 * 60 * 1000) db)
  with
  | Some m =>
      (ReplyMerged 200 "merged" (set_upvotes (upvotes m + 1) m),
       save_upvotes (set_upvotes (upvotes m + 1) m) db)
  | None =>
      let aiAnalysis := report_analysis rev env req description0 type0 in
      let newIncident :=
        new_incident env req type0 description0 l lat0 lng0 aiAnalysis in
      if schema_accepts newIncident then
        (ReplyCreated 201 "created" newIncident aiAnalysis
           (match
              detectDuplicates (env_now env) (env_oracle env)
                (mkNewIncident type0 description0 (mkLatLng lat0 lng0))
                (find_since (env_now env - 2 * 60 * 60 * 1000) db)
            with
            | [] => None
            | d :: ds => Some (d :: ds)
            end),
         db ++ [newIncident])
      else (ReplyError 500 "Failed to report incident", db)
  end.
Proof.
  intros Hacc.
  pose proof (accepted_not_missing _ _ _ _ _ _ _ Hacc) as Hmiss.
  destruct Hacc as (Ht & Nt & Hd & Nd & Hl & Hla & Nla & Hln & Nln & Hin).
  unfold post_report. rewrite Hmiss, Hl, Ht, Hd, Hla, Hln.
  apply existsb_eqb_In in Hin. rewrite Hin. cbn [negb].
  destruct (matchedIncident lat0 lng0
              (find_type_since type0 (env_now env - 30 * 60 * 1000) db));
    [reflexivity |].
  cbv zeta.
  destruct (detectDuplicates (env_now env) (env_oracle env)
              (mkNewIncident type0 description0 (mkLatLng lat0 lng0))
              (find_since (env_now env - 2 * 60 * 60 * 1000) db));
    reflexivity.
Qed.

(** A reply other than an error comes from a request that passed validation. *)
Lemma post_report_not_error (rev : Revision) (env : ReportEnv)
    (db : list Incident) (req : ReportRequest) :
  (exists code msg, post_report rev env db req = (ReplyError code msg, db)) \/
  (exists type0 description0 l lat0 lng0,
      accepted rev req type0 description0 l lat0 lng0).
Proof.
  unfold post_report.
  destruct (missing_required req) eqn:Hmiss.
  { left. destruct (body_location req); eauto. }
  unfold missing_required in Hmiss.
  apply orb_false_elim in Hmiss. destruct Hmiss as [Hmiss Hloc].
  apply orb_false_elim in Hmiss. destruct Hmiss as [Ht Hd].
  apply negb_false_iff in Ht, Hd.
  apply truthy_string_true in Ht, Hd.
  destruct Ht as (type0 & Ht & Nt). destruct Hd as (description0 & Hd & Nd).
  destruct (body_location req) as [| | l] eqn:Hl; try discriminate.
  apply orb_false_elim in Hloc. destruct Hloc as [Hla Hln].
  apply negb_false_iff in Hla, Hln.
  apply truthy_number_true in Hla, Hln.
  destruct Hla as (lat0 & Hla & Nla). destruct Hln as (lng0 & Hln & Nln).
  rewrite Ht, Hd, Hla, Hln.
  destruct (existsb (String.eqb type0) (validTypes rev)) eqn:Hin.
  - right. apply existsb_eqb_In in Hin.
    exists type0, description0, l, lat0, lng0. repeat split; assumption.
  - left. cbn [negb]. eauto.
Qed.

(** A request either fails one of the two validations, whatever the
    environment, or passes both. *)
Lemma post_report_validation (rev : Revision) (db : list Incident)
    (req : ReportRequest) :
  (exists code msg, forall env : ReportEnv,
      post_report rev env db req = (ReplyError code msg, db)) \/
  (exists type0 description0 l lat0 lng0,
      accepted rev req type0 description0 l lat0 lng0).
Proof.
  destruct (missing_required req) eqn:Hmiss.
  { left. unfold post_report. rewrite Hmiss.
    destruct (body_location req); do 2 eexists; intros; reflexivity. }
  pose proof Hmiss as Hmiss'.
  unfold missing_required in Hmiss.
  apply orb_false_elim in Hmiss. destruct Hmiss as [Hmiss Hloc].
  apply orb_false_elim in Hmiss. destruct Hmiss as [Ht Hd].
  apply negb_false_iff in Ht, Hd.
  apply truthy_string_true in Ht, Hd.
  destruct Ht as (type0 & Ht & Nt). destruct Hd as (description0 & Hd & Nd).
  destruct (body_location req) as [| | l] eqn:Hl; try discriminate.
  apply orb_false_elim in Hloc. destruct Hloc as [Hla Hln].
  apply negb_false_iff in Hla, Hln.
  apply truthy_number_true in Hla, Hln.
  destruct Hla as (lat0 & Hla & Nla). destruct Hln as (lng0 & Hln & Nln).
  destruct (existsb (String.eqb type0) (validTypes rev)) eqn:Hin.
  - right. apply existsb_eqb_In in Hin.
    exists type0, description0, l, lat0, lng0. repeat split; assumption.
  - left. do 2 eexists. intros env. unfold post_report.
    rewrite Hl, Hmiss', Ht, Hd, Hla, Hln, Hin. reflexivity.
Qed.

(** The loop returns the first candidate within 100 m, if there is one. *)
Lemma matchedIncident_first (lat0 lng0 : R) (pre post : list Incident)
    (m : Incident) :
  Forall (fun c => 100 < meters_to lat0 lng0 c) pre ->
  meters_to lat0 lng0 m <= 100 ->
  matchedIncident lat0 lng0 (pre ++ m :: post) = Some m.
Proof.
  unfold meters_to. intros Hpre Hm.
  induction Hpre as [| c pre Hc _ IH]; simpl.
  - rewrite leb_true by exact Hm. reflexivity.
  - rewrite leb_false by exact Hc. exact IH.
Qed.

Lemma matchedIncident_none (lat0 lng0 : R) (l : list Incident) :
  Forall (fun c => 100 < meters_to lat0 lng0 c) l ->
  matchedIncident lat0 lng0 l = None.
Proof.
  unfold meters_to. intros H.
  induction H as [| c l Hc _ IH]; simpl; [reflexivity |].
  rewrite leb_false by exact Hc. exact IH.
Qed.

Lemma matchedIncident_Some (lat0 lng0 : R) (l : list Incident) (m : Incident) :
  matchedIncident lat0 lng0 l = Some m ->
  exists pre post,
    l = pre ++ m :: post /\
    Forall (fun c => 100 < meters_to lat0 lng0 c) pre /\
    meters_to lat0 lng0 m <= 100.
Proof.
  unfold meters_to.
  induction l as [| c l IH]; simpl; [discriminate |].
  destruct (JsMath.leb _ 100) eqn:E.
  - intros H. inversion H; subst.
    exists [], l. split; [reflexivity | split; [constructor |]].
    apply leb_true_iff. exact E.
  - intros H. destruct (IH H) as (pre & post & -> & Hpre & Hm).
    exists (c :: pre), post. split; [reflexivity | split; [| exact Hm]].
    constructor; [| exact Hpre]. apply leb_false_iff. exact E.
Qed.

Lemma find_type_since_In (type0 : string) (since : Z) (db : list Incident)
    (i : Incident) :
  In i (find_type_since type0 since db) <->
  In i db /\ type i = type0 /\ (since <= timestamp i)%Z.
Proof.
  unfold find_type_since. rewrite filter_In, andb_true_iff.
  rewrite String.eqb_eq, Z.leb_le. tauto.
Qed.

(** What saving the merged document does to the collection. *)
Lemma save_upvotes_Forall2 (doc : Incident) (db : list Incident) :
  Forall2 (fun before after =>
             (_id before = _id doc ->
              after = set_upvotes (upvotes doc) before) /\
             (_id before <> _id doc -> after = before))
          db (save_upvotes doc db).
Proof.
  induction db as [| r db IH]; simpl; constructor; [| exact IH].
  destruct (Z.eqb_spec (_id r) (_id doc)); split; intros; try reflexivity;
    contradiction.
Qed.

Lemma set_upvotes_same_but_upvotes (v : Z) (i : Incident) :
  same_but_upvotes i (set_upvotes v i).
Proof. unfold same_but_upvotes. simpl. repeat split. Qed.

Lemma save_upvotes_length (doc : Incident) (db : list Incident) :
  List.length (save_upvotes doc db) = List.length db.
Proof. unfold save_upvotes. apply length_map. Qed.

Lemma save_upvotes_In (doc m : Incident) (db : list Incident) :
  In m db -> _id m = _id doc ->
  In (set_upvotes (upvotes doc) m) (save_upvotes doc db).
Proof.
  intros Hin Hid. unfold save_upvotes. apply in_map_iff.
  exists m. split; [| exact Hin].
  apply Z.eqb_eq in Hid. rewrite Hid. reflexivity.
Qed.

(** The merge of a request that passes validation and has a first candidate
    within 100 m. *)
Lemma post_report_merges (rev : Revision) (env : ReportEnv)
    (db : list Incident) (req : ReportRequest)
    (type0 description0 : string) (l : ReqLocation) (lat0 lng0 : R)
    (pre post : list Incident) (m : Incident) :
  accepted rev req type0 description0 l lat0 lng0 ->
  find_type_since type0 (env_now env - 30 * 60 * 1000) db = pre ++ m :: post ->
  Forall (fun c => 100 < meters_to lat0 lng0 c) pre ->
  meters_to lat0 lng0 m <= 100 ->
  post_report rev env db req =
  (ReplyMerged 200 "merged" (set_upvotes (upvotes m + 1) m),
   save_upvotes (set_upvotes (upvotes m + 1) m) db).
Proof.
  intros Hacc Hcands Hpre Hm.
  rewrite (post_report_accepted _ _ _ _ _ _ _ _ _ Hacc), Hcands.
  rewrite (matchedIncident_first _ _ _ _ _ Hpre Hm). reflexivity.
Qed.

(** C2.  For a request that passes validation the candidates are the stored
    incidents of the reported category that are at most 30 minutes old, in
    lookup order.  If one of them is within 100 m, the first such one is
    merged: the reply is 'merged', the stored record gets its upvote counter
    raised by exactly 1 and the collection keeps its size.  If none is within
    100 m, a record with upvote counter 1 and status 'Reported' is built and
    saved.  When its category and severity are among those of the schema the
    reply is 'created' and the record is appended; when the schema refuses
    it (the categories 'Natural' and 'Other' of the later router are not in
    the schema) the reply is the error 500 and nothing is stored. *)
Theorem report_merge_or_create (rev : Revision) (env : ReportEnv)
    (db : list Incident) (req : ReportRequest)
    (type0 description0 : string) (l : ReqLocation) (lat0 lng0 : R) :
  accepted rev req type0 description0 l lat0 lng0 ->
  let candidates :=
    find_type_since type0 (env_now env - 30 * 60 * 1000) db in
  let ai := report_analysis rev env req description0 type0 in
  (forall i : Incident,
      In i candidates <->
      In i db /\ type i = type0 /\
      (env_now env - 30 * 60 * 1000 <= timestamp i)%Z) /\
  (forall (pre post : list Incident) (m : Incident),
      candidates = pre ++ m :: post ->
      Forall (fun c => 100 < meters_to lat0 lng0 c) pre ->
      meters_to lat0 lng0 m <= 100 ->
      exists (merged : Incident) (db' : list Incident),
        post_report rev env db req = (ReplyMerged 200 "merged" merged, db') /\
        same_but_upvotes m merged /\
        upvotes merged = (upvotes m + 1)%Z /\
        In merged db' /\
        List.length db' = List.length db) /\
  (Forall (fun c => 100 < meters_to lat0 lng0 c) candidates ->
      In type0 schema_types -> In (ai_severity ai) schema_severities ->
      exists (created : Incident) (dups : option (list AiDuplicate)),
        post_report rev env db req =
          (ReplyCreated 201 "created" created ai dups, db ++ [created]) /\
        upvotes created = 1%Z /\
        status created = "Reported"%string /\
        type created = type0) /\
  (Forall (fun c => 100 < meters_to lat0 lng0 c) candidates ->
      ~ In type0 schema_types \/ ~ In (ai_severity ai) schema_severities ->
      post_report rev env db req =
        (ReplyError 500 "Failed to report incident", db)) /\
  (rev = Basic -> In type0 schema_types) /\
  (rev = Extended ->
      In type0 schema_types \/ type0 = "Natural"%string \/
      type0 = "Other"%string).
Proof.
  intros Hacc candidates ai. split; [| split; [| split; [| split; [| split]]]].
  - intros i. apply find_type_since_In.
  - intros pre post m Hc Hpre Hm.
    exists (set_upvotes (upvotes m + 1) m),
           (save_upvotes (set_upvotes (upvotes m + 1) m) db).
    split; [apply (post_report_merges _ _ _ _ _ _ _ _ _ _ _ _ Hacc Hc Hpre Hm) |].
    split; [apply set_upvotes_same_but_upvotes |].
    split; [reflexivity |].
    split; [| apply save_upvotes_length].
    apply (save_upvotes_In (set_upvotes (upvotes m + 1) m) m db);
      [| reflexivity].
    assert (Hin : In m candidates)
      by (rewrite Hc; apply in_or_app; right; left; reflexivity).
    apply find_type_since_In in Hin. tauto.
  - intros Hfar Hty Hsev.
    rewrite (post_report_accepted _ _ _ _ _ _ _ _ _ Hacc).
    fold candidates. rewrite (matchedIncident_none _ _ _ Hfar).
    cbv zeta. fold ai.
    rewrite schema_accepts_new_incident by apply Hacc.
    apply existsb_eqb_In in Hty, Hsev. rewrite Hty, Hsev. cbn [andb].
    eexists _, _. split; [reflexivity |].
    split; [reflexivity | split; reflexivity].
  - intros Hfar Hbad.
    rewrite (post_report_accepted _ _ _ _ _ _ _ _ _ Hacc).
    fold candidates. rewrite (matchedIncident_none _ _ _ Hfar).
    cbv zeta. fold ai.
    rewrite schema_accepts_new_incident by apply Hacc.
    destruct (existsb (String.eqb type0) schema_types) eqn:Ety.
    + destruct (existsb (String.eqb (ai_severity ai)) schema_severities)
        eqn:Esev; [| reflexivity].
      apply existsb_eqb_In in Ety, Esev. tauto.
    + reflexivity.
  - intros ->. apply Hacc.
  - intros ->.
    destruct Hacc as (_ & _ & _ & _ & _ & _ & _ & _ & _ & Hin).
    unfold schema_types. simpl in Hin. simpl.
    repeat (destruct Hin as [Hin | Hin]; [subst; auto 10 |]).
    contradiction.
Qed.

(** C7.  When the reply is a merge, the merged record is a stored record with
    its upvote counter raised by 1 and every other field as before; in the
    collection, a record differs from its former self in the upvote counter
    at most, and a record with another identity does not differ at all. *)
Theorem merge_changes_upvotes_only (rev : Revision) (env : ReportEnv)
    (db db' : list Incident) (req : ReportRequest)
    (code : Z) (outcome : string) (merged : Incident) :
  post_report rev env db req = (ReplyMerged code outcome merged, db') ->
  exists m : Incident,
    In m db /\
    merged = set_upvotes (upvotes m + 1) m /\
    type merged = type m /\ description merged = description m /\
    location merged = location m /\ severity merged = severity m /\
    status merged = status m /\ verified merged = verified m /\
    timestamp merged = timestamp m /\
    same_but_upvotes m merged /\
    Forall2 (fun before after =>
               same_but_upvotes before after /\
               (_id before <> _id m -> after = before))
            db db'.
Proof.
  intros Hrun.
  destruct (post_report_not_error rev env db req)
    as [(c & msg & Herr) | (type0 & description0 & l & lat0 & lng0 & Hacc)].
  { rewrite Herr in Hrun. discriminate. }
  rewrite (post_report_accepted _ _ _ _ _ _ _ _ _ Hacc) in Hrun.
  destruct (matchedIncident lat0 lng0
              (find_type_since type0 (env_now env - 30 * 60 * 1000) db))
    as [m |] eqn:Hm;
    [| cbv zeta in Hrun; destruct (schema_accepts _); discriminate].
  inversion Hrun; subst. clear Hrun.
  apply matchedIncident_Some in Hm.
  destruct Hm as (pre & post & Hc & _ & _).
  assert (Hin : In m db).
  { assert (H : In m (find_type_since type0 (env_now env - 30 * 60 * 1000) db))
      by (rewrite Hc; apply in_or_app; right; left; reflexivity).
    apply find_type_since_In in H. tauto. }
  exists m. repeat (split; [first [exact Hin | reflexivity] |]).
  split; [apply set_upvotes_same_but_upvotes |].
  eapply Forall2_impl; [| apply save_upvotes_Forall2].
  intros before after [Hsame Hother]. simpl in Hsame, Hother. split.
  - destruct (Z.eq_dec (_id before) (_id m)) as [E | N].
    + rewrite (Hsame E). apply set_upvotes_same_but_upvotes.
    + rewrite (Hother N). unfold same_but_upvotes. repeat split.
  - exact Hother.
Qed.

(** C10.  The candidates of the auto-merge are selected by category and age
    alone, whatever their status; a report whose first candidate within 100 m
    is Resolved or Closed is merged into it: the reply is 'merged', the
    counter of that record goes up by 1, its status stays, and no record is
    added. *)
Theorem merge_ignores_status (rev : Revision) (env : ReportEnv)
    (db : list Incident) (req : ReportRequest)
    (type0 description0 : string) (l : ReqLocation) (lat0 lng0 : R)
    (pre post : list Incident) (m : Incident) :
  accepted rev req type0 description0 l lat0 lng0 ->
  find_type_since type0 (env_now env - 30 * 60 * 1000) db = pre ++ m :: post ->
  Forall (fun c => 100 < meters_to lat0 lng0 c) pre ->
  meters_to lat0 lng0 m <= 100 ->
  status m = "Resolved"%string \/ status m = "Closed"%string ->
  (forall i : Incident,
      In i db -> type i = type0 ->
      (env_now env - 30 * 60 * 1000 <= timestamp i)%Z ->
      In i (find_type_since type0 (env_now env - 30 * 60 * 1000) db)) /\
  exists (merged : Incident) (db' : list Incident),
    post_report rev env db req = (ReplyMerged 200 "merged" merged, db') /\
    upvotes merged = (upvotes m + 1)%Z /\
    status merged = status m /\
    same_but_upvotes m merged /\
    In merged db' /\
    List.length db' = List.length db.
Proof.
  intros Hacc Hc Hpre Hm Hst. split.
  - intros i Hi Ht Hts. apply find_type_since_In. tauto.
  - exists (set_upvotes (upvotes m + 1) m),
           (save_upvotes (set_upvotes (upvotes m + 1) m) db).
    split; [apply (post_report_merges _ _ _ _ _ _ _ _ _ _ _ _ Hacc Hc Hpre Hm) |].
    split; [reflexivity |]. split; [reflexivity |].
    split; [apply set_upvotes_same_but_upvotes |].
    split; [| apply save_upvotes_length].
    apply (save_upvotes_In (set_upvotes (upvotes m + 1) m) m db);
      [| reflexivity].
    assert (Hin : In m (find_type_since type0 (env_now env - 30 * 60 * 1000) db))
      by (rewrite Hc; apply in_or_app; right; left; reflexivity).
    apply find_type_since_In in Hin. tauto.
Qed.

(** C9.  A report whose parsed location has [lat] or [lng] equal to 0 gets
    the 400 reply 'Missing required fields' and the collection is untouched,
    whatever the clock, the oracle and the analysis would have said. *)
Theorem zero_coordinate_rejected (rev : Revision) (env : ReportEnv)
    (db : list Incident) (req : ReportRequest) (l : ReqLocation) :
  body_location req = LocationObject l ->
  req_lat l = Some 0 \/ req_lng l = Some 0 ->
  post_report rev env db req = (ReplyError 400 missing_fields_error, db).
Proof.
  intros Hl Hzero.
  assert (Hmiss : missing_required req = true).
  { unfold missing_required. rewrite Hl.
    destruct Hzero as [H | H]; rewrite H; simpl; rewrite truthy_zero; simpl;
      rewrite ?orb_true_r; reflexivity. }
  unfold post_report. rewrite Hl, Hmiss. reflexivity.
Qed.

(** ** The heuristic duplicate scorer *)

Lemma score_candidate_confidence (now : Z) (type0 : string)
    (latitude longitude : R) (c : Incident) :
  confidence (score_candidate now type0 latitude longitude c) =
  heuristicConfidence (meters_to latitude longitude c)
    (IZR (now - timestamp c)) (String.eqb (type c) type0).
Proof.
  unfold score_candidate, heuristicConfidence, meters_to, clamp. simpl.
  replace (2 * 60 * 60 * 10) with 72000 by lra.
  set (x := (Rmax 0 (100 - calculateDistance latitude longitude
                             (lat (location c)) (lng (location c)) / 5)
             + Rmax 0 (100 - IZR (now - timestamp c) / 72000)
             + (if String.eqb (type c) type0 then 20 else 0)) / (22 / 10)).
  assert (Hx : 0 <= x).
  { subst x.
    pose proof (Rmax_l 0 (100 - calculateDistance latitude longitude
                                  (lat (location c)) (lng (location c)) / 5)).
    pose proof (Rmax_l 0 (100 - IZR (now - timestamp c) / 72000)).
    assert (0 <= (if String.eqb (type c) type0 then 20 else 0))
      by (destruct (String.eqb (type c) type0); lra).
    apply Rmult_le_pos; [lra |].
    apply Rlt_le, Rinv_0_lt_compat. lra. }
  pose proof (round_nonneg x Hx). lia.
Qed.

Lemma heuristic_duplicates_In (now : Z) (type0 : string)
    (latitude longitude : R) (nearby : list Incident) (d : DuplicateCandidate) :
  In d (heuristic_duplicates now type0 latitude longitude nearby) <->
  In d (map (score_candidate now type0 latitude longitude) nearby) /\
  (40 < confidence d)%Z.
Proof.
  unfold heuristic_duplicates. rewrite sort_In, filter_In, Z.ltb_lt. tauto.
Qed.

Lemma fuse_nil (dups : list DuplicateCandidate) : map (fuse []) dups = dups.
Proof. unfold fuse. simpl. apply map_id. Qed.

Lemma detectDuplicates_failed (now : Z) (oracle : OracleOutcome)
    (n : NewIncident) (existing : list Incident) :
  oracle_failed oracle -> detectDuplicates now oracle n existing = [].
Proof.
  intros [-> | [-> | ->]]; unfold detectDuplicates;
    destruct (filter _ existing); reflexivity.
Qed.

(** Without a description the handler returns the heuristic list. *)
Lemma check_duplicates_no_description (now : Z) (oracle : OracleOutcome)
    (type0 : string) (latitude longitude : R) (nearby : list Incident) :
  type0 <> ""%string ->
  check_duplicates now oracle
    (mkCheckQuery (Some type0) (Some latitude) (Some longitude) "") nearby =
  CheckOk 200 (heuristic_duplicates now type0 latitude longitude nearby).
Proof.
  intros Ht. unfold check_duplicates. cbn [q_type q_lat q_lng q_description].
  assert (E : truthy_string (Some type0) = true)
    by (apply truthy_string_true; eauto).
  rewrite E. cbn [negb]. destruct nearby; reflexivity.
Qed.

(** With a failed oracle the handler returns the heuristic list. *)
Lemma check_duplicates_failed (now : Z) (oracle : OracleOutcome)
    (q : CheckQuery) (type0 : string) (latitude longitude : R)
    (nearby : list Incident) :
  oracle_failed oracle ->
  q_type q = Some type0 -> type0 <> ""%string ->
  q_lat q = Some latitude -> q_lng q = Some longitude ->
  check_duplicates now oracle q nearby =
  CheckOk 200 (heuristic_duplicates now type0 latitude longitude nearby).
Proof.
  intros Hf Ht Nt Hla Hln. unfold check_duplicates. rewrite Ht, Hla, Hln.
  assert (E : truthy_string (Some type0) = true)
    by (apply truthy_string_true; eauto).
  rewrite E. cbn [negb]. destruct nearby as [| c nearby]; [reflexivity |].
  f_equal.
  destruct (truthy_string (Some (q_description q))
            && (0 <? Z.of_nat (List.length
                  (heuristic_duplicates now type0 latitude longitude
                     (c :: nearby))))%Z); [| reflexivity].
  rewrite (detectDuplicates_failed _ _ _ _ Hf), fuse_nil.
  unfold heuristic_duplicates. apply sort_idempotent.
Qed.

(** C3.  The confidence of a candidate is the rounded, clamped blend of its
    distance score, time score and category bonus; the heuristic list holds
    exactly the scored candidates whose confidence exceeds 40, in
    non-increasing order of confidence; and it is what the handler returns
    when no description is given. *)
Theorem heuristic_duplicates_contract (now : Z) (type0 : string)
    (latitude longitude : R) (nearby : list Incident) :
  let scored := map (score_candidate now type0 latitude longitude) nearby in
  let out := heuristic_duplicates now type0 latitude longitude nearby in
  (forall c : Incident,
      candidate (score_candidate now type0 latitude longitude c) = c /\
      confidence (score_candidate now type0 latitude longitude c) =
      clamp 0 100
        (JsMath.round
           ((Rmax 0 (100 - meters_to latitude longitude c / 5)
             + Rmax 0 (100 - IZR (now - timestamp c) / 72000)
             + (if String.eqb (type c) type0 then 20 else 0)) / (22 / 10)))) /\
  (forall d : DuplicateCandidate,
      In d out <-> In d scored /\ (40 < confidence d)%Z) /\
  Permutation out (filter (fun d => (40 <? confidence d)%Z) scored) /\
  descending_sorted confidence out /\
  (forall oracle : OracleOutcome,
      type0 <> ""%string ->
      check_duplicates now oracle
        (mkCheckQuery (Some type0) (Some latitude) (Some longitude) "")
        nearby = CheckOk 200 out).
Proof.
  intros scored out. split; [| split; [| split; [| split]]].
  - intros c. split; [reflexivity | apply score_candidate_confidence].
  - intros d. apply heuristic_duplicates_In.
  - apply sort_perm.
  - apply sort_sorted.
  - intros oracle Ht. apply check_duplicates_no_description, Ht.
Qed.

Lemma js_index_In {A : Type} (l : list A) (i : Z) (x : A) :
  js_index l i = Some x -> In x l.
Proof.
  unfold js_index. destruct (i <? 0)%Z; [discriminate |].
  apply nth_error_In.
Qed.

(** Every warning points at an existing incident of the last two hours
    within 500 m of the report. *)
Lemma detectDuplicates_In (now : Z) (oracle : OracleOutcome)
    (n : NewIncident) (existing : list Incident) (d : AiDuplicate) :
  In d (detectDuplicates now oracle n existing) ->
  exists inc : Incident,
    dup_incident d = Some inc /\ incidentId d = Some (_id inc) /\
    In inc existing /\
    (now - 2 * 60 * 60 * 1000 <= timestamp inc)%Z /\
    meters_to (lat (new_location n)) (lng (new_location n)) inc <= 500.
Proof.
  unfold detectDuplicates.
  set (nearby := filter _ existing).
  assert (Hnear : forall inc, In inc nearby ->
            In inc existing /\
            (now - 2 * 60 * 60 * 1000 <= timestamp inc)%Z /\
            meters_to (lat (new_location n)) (lng (new_location n)) inc <= 500).
  { intros inc Hin. subst nearby. apply filter_In in Hin.
    destruct Hin as [Hin Hc]. split; [exact Hin |].
    destruct (Z.ltb_spec (timestamp inc) (now - 2 * 60 * 60 * 1000));
      [discriminate |].
    split; [assumption |]. apply leb_true_iff in Hc. exact Hc. }
  destruct nearby as [| c rest] eqn:E; [contradiction |].
  destruct oracle as [| | | entries]; try contradiction.
  intros Hd. apply filter_In in Hd. destruct Hd as [Hd Hid].
  apply in_map_iff in Hd. destruct Hd as (dup & <- & _).
  simpl in Hid |- *.
  destruct (js_index (c :: rest) (index dup - 1)) as [inc |] eqn:Hhit;
    [| discriminate].
  exists inc. split; [reflexivity | split; [reflexivity |]].
  apply Hnear. apply (js_index_In _ _ _ Hhit).
Qed.

Lemma fuse_candidate (ai : list AiDuplicate) (d : DuplicateCandidate) :
  candidate (fuse ai d) = candidate d.
Proof. unfold fuse. destruct (find _ ai); reflexivity. Qed.

Lemma check_duplicates_candidates (now : Z) (oracle : OracleOutcome)
    (q : CheckQuery) (nearby : list Incident) (dups : list DuplicateCandidate) :
  check_duplicates now oracle q nearby = CheckOk 200 dups ->
  Forall (fun d => In (candidate d) nearby) dups.
Proof.
  unfold check_duplicates.
  destruct (q_type q) as [type0 |]; [| discriminate].
  destruct (q_lat q) as [latitude |]; [| discriminate].
  destruct (q_lng q) as [longitude |]; [| discriminate].
  destruct (negb (truthy_string (Some type0))); [discriminate |].
  destruct nearby as [| c rest].
  { intros H. inversion H. constructor. }
  set (nearby := c :: rest).
  assert (Hh : forall d,
            In d (heuristic_duplicates now type0 latitude longitude nearby) ->
            In (candidate d) nearby).
  { intros d Hd. apply heuristic_duplicates_In in Hd.
    destruct Hd as [Hd _]. apply in_map_iff in Hd.
    destruct Hd as (i & <- & Hi). exact Hi. }
  destruct (truthy_string (Some (q_description q))
            && (0 <? Z.of_nat (List.length
                  (heuristic_duplicates now type0 latitude longitude nearby)))%Z);
    intros H; inversion H; subst; clear H;
    apply Forall_forall; intros d Hd.
  - apply sort_In, in_map_iff in Hd. destruct Hd as (d0 & <- & Hd0).
    rewrite fuse_candidate. apply Hh, Hd0.
  - apply Hh, Hd.
Qed.

(** C4 (amended).  A warning of the detector always points at an existing
    incident that is at most two hours old and within 500 m of the report,
    and an entry returned by the duplicate check always comes from the answer
    of the geospatial lookup; the category plays no part in either
    selection: a scored candidate is returned as soon as its confidence
    exceeds 40, whatever its category. *)
Theorem duplicate_warnings_window (now : Z) (oracle : OracleOutcome) :
  (forall (n : NewIncident) (existing : list Incident) (d : AiDuplicate),
      In d (detectDuplicates now oracle n existing) ->
      exists inc : Incident,
        dup_incident d = Some inc /\ incidentId d = Some (_id inc) /\
        In inc existing /\
        (now - 2 * 60 * 60 * 1000 <= timestamp inc)%Z /\
        meters_to (lat (new_location n)) (lng (new_location n)) inc <= 500) /\
  (forall (q : CheckQuery) (nearby : list Incident)
          (dups : list DuplicateCandidate),
      check_duplicates now oracle q nearby = CheckOk 200 dups ->
      Forall (fun d => In (candidate d) nearby) dups) /\
  (forall (type0 : string) (latitude longitude : R) (nearby : list Incident)
          (c : Incident),
      In c nearby ->
      (40 < confidence (score_candidate now type0 latitude longitude c))%Z ->
      In (score_candidate now type0 latitude longitude c)
         (heuristic_duplicates now type0 latitude longitude nearby)).
Proof.
  split; [| split].
  - intros n existing d. apply detectDuplicates_In.
  - intros q nearby dups. apply check_duplicates_candidates.
  - intros type0 latitude longitude nearby c Hc Hconf.
    apply heuristic_duplicates_In. split; [| exact Hconf].
    apply in_map. exact Hc.
Qed.

(** ** Oracle failure *)

Lemma report_analysis_with_oracle (rev : Revision) (o : OracleOutcome)
    (env : ReportEnv) (req : ReportRequest) (description0 type0 : string) :
  report_analysis rev (with_oracle o env) req description0 type0 =
  report_analysis rev env req description0 type0.
Proof. destruct rev; reflexivity. Qed.

Lemma post_report_oracle_failed (rev : Revision) (env : ReportEnv)
    (db : list Incident) (req : ReportRequest) (failed other : OracleOutcome) :
  oracle_failed failed ->
  fst (post_report rev (with_oracle failed env) db req) =
    without_duplicates (fst (post_report rev (with_oracle other env) db req)) /\
  snd (post_report rev (with_oracle failed env) db req) =
    snd (post_report rev (with_oracle other env) db req).
Proof.
  intros Hf.
  destruct (post_report_validation rev db req)
    as [(c & msg & Herr) | (type0 & description0 & l & lat0 & lng0 & Hacc)].
  - rewrite !Herr. split; reflexivity.
  - rewrite !(post_report_accepted _ _ _ _ _ _ _ _ _ Hacc).
    simpl env_now. simpl env_oracle.
    destruct (matchedIncident lat0 lng0 _); [split; reflexivity |].
    rewrite (detectDuplicates_failed _ _ _ _ Hf). cbv zeta.
    rewrite !report_analysis_with_oracle.
    change (new_incident (with_oracle failed env))
      with (new_incident (with_oracle other env)).
    destruct (schema_accepts _); [| split; reflexivity].
    destruct (detectDuplicates _ other _ _); split; reflexivity.
Qed.

(** The detector returns nothing when it keeps no incident, and the model
    is then not asked. *)
Lemma detectDuplicates_not_called (now : Z) (oracle : OracleOutcome)
    (n : NewIncident) (existing : list Incident) :
  nearbyIncidents now n existing = [] ->
  detectDuplicates now oracle n existing = [].
Proof.
  unfold detectDuplicates, nearbyIncidents. cbv zeta. intros ->. reflexivity.
Qed.

(** When the handler does not get as far as the call of the model, its reply
    and the collection do not depend on what the model would have said. *)
Lemma post_report_oracle_unused (rev : Revision) (env : ReportEnv)
    (db : list Incident) (req : ReportRequest) (o : OracleOutcome) :
  oracle_is_called rev env db req = false ->
  post_report rev (with_oracle o env) db req = post_report rev env db req.
Proof.
  intros Hcall.
  destruct (post_report_validation rev db req)
    as [(c & msg & Herr) | (type0 & description0 & l & lat0 & lng0 & Hacc)].
  - rewrite !Herr. reflexivity.
  - rewrite !(post_report_accepted _ _ _ _ _ _ _ _ _ Hacc).
    unfold oracle_is_called in Hcall.
    rewrite (accepted_not_missing _ _ _ _ _ _ _ Hacc) in Hcall.
    destruct Hacc as (Ht & Nt & Hd & Nd & Hl & Hla & Nla & Hln & Nln & Hin).
    rewrite Hl, Ht, Hd, Hla, Hln in Hcall.
    apply existsb_eqb_In in Hin. rewrite Hin in Hcall. cbn [andb] in Hcall.
    assert (Hnone : nearbyIncidents (env_now env)
                      (mkNewIncident type0 description0 (mkLatLng lat0 lng0))
                      (find_since (env_now env - 2 * 60 * 60 * 1000) db) = []).
    { destruct (nearbyIncidents _ _ _); [reflexivity | discriminate]. }
    simpl env_now. simpl env_oracle.
    rewrite !(detectDuplicates_not_called _ _ _ _ Hnone).
    rewrite report_analysis_with_oracle. reflexivity.
Qed.

(** C5 (amended).  When the oracle call rejects or returns text that cannot
    be parsed, the detector yields no warning, the duplicate check returns
    the heuristic list as it is, and the report handler replies and stores
    exactly what it would under any other reply of the oracle, the advisory
    [duplicates] field aside: an accepted report whose record the schema
    takes is merged, or created with no warnings.  A call that has settled
    always gets the handler's reply. *)
Theorem oracle_failure_is_soft (oracle : OracleOutcome) :
  oracle_failed oracle ->
  (forall (now : Z) (n : NewIncident) (existing : list Incident),
      detectDuplicates now oracle n existing = []) /\
  (forall (now : Z) (q : CheckQuery) (type0 : string) (latitude longitude : R)
          (nearby : list Incident),
      q_type q = Some type0 -> type0 <> ""%string ->
      q_lat q = Some latitude -> q_lng q = Some longitude ->
      check_duplicates now oracle q nearby =
      CheckOk 200 (heuristic_duplicates now type0 latitude longitude nearby)) /\
  (forall (rev : Revision) (env : ReportEnv) (db : list Incident)
          (req : ReportRequest) (other : OracleOutcome),
      fst (post_report rev (with_oracle oracle env) db req) =
        without_duplicates
          (fst (post_report rev (with_oracle other env) db req)) /\
      snd (post_report rev (with_oracle oracle env) db req) =
        snd (post_report rev (with_oracle other env) db req)) /\
  (forall (rev : Revision) (env : ReportEnv) (db : list Incident)
          (req : ReportRequest) (type0 description0 : string)
          (l : ReqLocation) (lat0 lng0 : R),
      accepted rev req type0 description0 l lat0 lng0 ->
      let ai := report_analysis rev env req description0 type0 in
      In type0 schema_types -> In (ai_severity ai) schema_severities ->
      exists (inc : Incident) (db' : list Incident),
        post_report rev (with_oracle oracle env) db req =
          (ReplyMerged 200 "merged" inc, db') \/
        post_report rev (with_oracle oracle env) db req =
          (ReplyCreated 201 "created" inc ai None, db')) /\
  (forall (rev : Revision) (env : ReportEnv) (db : list Incident)
          (req : ReportRequest),
      post_report_awaited rev env (Settles oracle) db req =
      Some (post_report rev (with_oracle oracle env) db req)).
Proof.
  intros Hf. split; [| split; [| split; [| split]]].
  - intros. apply detectDuplicates_failed, Hf.
  - intros now q type0 latitude longitude nearby Ht Nt Hla Hln.
    apply (check_duplicates_failed _ _ _ _ _ _ _ Hf Ht Nt Hla Hln).
  - intros. apply post_report_oracle_failed, Hf.
  - intros rev env db req type0 description0 l lat0 lng0 Hacc ai Hty Hsev.
    rewrite (post_report_accepted _ _ _ _ _ _ _ _ _ Hacc).
    simpl env_now. simpl env_oracle.
    destruct (matchedIncident lat0 lng0 _) as [m |].
    + eexists _, _. left. reflexivity.
    + rewrite (detectDuplicates_failed _ _ _ _ Hf). cbv zeta.
      rewrite report_analysis_with_oracle. fold ai.
      rewrite schema_accepts_new_incident by apply Hacc.
      apply existsb_eqb_In in Hty, Hsev. rewrite Hty, Hsev. cbn [andb].
      eexists _, _. right. reflexivity.
  - intros. reflexivity.
Qed.

(** * Worked cases *)

Lemma sample_accepted (rev : Revision) (type0 : string) :
  type0 <> ""%string -> In type0 (validTypes rev) ->
  accepted rev (sample_request type0) type0 "Flames at the depot"
    sample_location 10 20.
Proof.
  intros Nt Hin. unfold accepted, sample_request, sample_location. simpl.
  repeat split; try reflexivity; try assumption; try discriminate;
    intros H; lra.
Qed.

(** The analysis of the sample environment says High, and the schema takes
    the record of a sample report of one of its categories. *)
Lemma sample_analysis_severity (rev : Revision) (oracle : OracleOutcome)
    (req : ReportRequest) (description0 type0 : string) :
  ai_severity (report_analysis rev (sample_env oracle) req description0 type0) =
  "High"%string.
Proof. destruct rev; reflexivity. Qed.

Lemma sample_schema_accepts (rev : Revision) (oracle : OracleOutcome)
    (req : ReportRequest) (type0 description0 : string) (l : ReqLocation)
    (lat0 lng0 : R) :
  In type0 schema_types -> description0 <> ""%string ->
  schema_accepts
    (new_incident (sample_env oracle) req type0 description0 l lat0 lng0
       (report_analysis rev (sample_env oracle) req description0 type0)) = true.
Proof.
  intros Hty Nd. rewrite schema_accepts_new_incident by exact Nd.
  rewrite sample_analysis_severity.
  apply existsb_eqb_In in Hty. rewrite Hty. reflexivity.
Qed.

(** Category Fire, 80 m away, 10 minutes old: merged. *)
Lemma tight_tier_merge_80m (rev : Revision) (oracle : OracleOutcome) :
  let fire := sample_incident 1 "Fire" "Reported" 80 1000000 in
  post_report rev (sample_env oracle) [fire] (sample_request "Fire") =
  (ReplyMerged 200 "merged" (set_upvotes 2 fire), [set_upvotes 2 fire]).
Proof.
  intros fire.
  assert (Hacc : accepted rev (sample_request "Fire") "Fire"
                   "Flames at the depot" sample_location 10 20).
  { apply sample_accepted; [discriminate |]. destruct rev; simpl; auto. }
  rewrite (post_report_merges rev (sample_env oracle) [fire]
             (sample_request "Fire") _ _ _ _ _ [] [] fire Hacc).
  - reflexivity.
  - reflexivity.
  - constructor.
  - subst fire. rewrite meters_to_north_of; lra.
Qed.

(** Same category, 150 m away: created. *)
Lemma tight_tier_create_150m (rev : Revision) (oracle : OracleOutcome) :
  let fire := sample_incident 1 "Fire" "Reported" 150 1000000 in
  exists (created : Incident) (ai : AiAnalysis)
         (dups : option (list AiDuplicate)),
    post_report rev (sample_env oracle) [fire] (sample_request "Fire") =
      (ReplyCreated 201 "created" created ai dups, [fire; created]) /\
    upvotes created = 1%Z /\ status created = "Reported"%string /\
    type created = "Fire"%string /\ _id created = 99%Z.
Proof.
  intros fire.
  assert (Hacc : accepted rev (sample_request "Fire") "Fire"
                   "Flames at the depot" sample_location 10 20).
  { apply sample_accepted; [discriminate |]. destruct rev; simpl; auto. }
  rewrite (post_report_accepted _ _ _ _ _ _ _ _ _ Hacc).
  replace (find_type_since "Fire" (env_now (sample_env oracle) - 30 * 60 * 1000)
             [fire]) with [fire] by reflexivity.
  rewrite matchedIncident_none.
  - cbv zeta.
    rewrite sample_schema_accepts by (simpl; auto || discriminate).
    eexists _, _, _. split; [reflexivity |].
    repeat split; reflexivity.
  - constructor; [| constructor].
    subst fire. rewrite meters_to_north_of; lra.
Qed.

(** The same report with no settled call of the model to rely on: the
    handler waits in the detector, before it looks for a record to merge
    with. *)
Lemma unsettled_call_at_80m (rev : Revision) (oracle : OracleOutcome) :
  let fire := sample_incident 1 "Fire" "Reported" 80 1000000 in
  post_report_awaited rev (sample_env oracle) NeverSettles [fire]
    (sample_request "Fire") = None.
Proof.
  intros fire.
  assert (Hacc : accepted rev (sample_request "Fire") "Fire"
                   "Flames at the depot" sample_location 10 20).
  { apply sample_accepted; [discriminate |]. destruct rev; simpl; auto. }
  unfold post_report_awaited, oracle_is_called.
  rewrite (accepted_not_missing _ _ _ _ _ _ _ Hacc).
  cbn [body_location body_type body_description sample_request req_lat
       req_lng sample_location].
  replace (existsb (String.eqb "Fire") (validTypes rev)) with true
    by (destruct rev; reflexivity).
  replace (find_since (env_now (sample_env oracle) - 2 * 60 * 60 * 1000)
             [fire]) with [fire] by reflexivity.
  unfold nearbyIncidents. cbv zeta. cbn [filter].
  replace (timestamp fire <? env_now (sample_env oracle) - 2 * 60 * 60 * 1000)%Z
    with false by reflexivity.
  cbn [new_location lat lng].
  rewrite leb_true; [reflexivity |].
  subst fire. fold (meters_to 10 20 (sample_incident 1 "Fire" "Reported" 80 1000000)).
  rewrite meters_to_north_of; lra.
Qed.

(** A report of the category Natural, which the later router takes and the
    schema does not: the record is refused when it is saved. *)
Lemma natural_report_fails (oracle : OracleOutcome) (db : list Incident) :
  Forall (fun c => 100 < meters_to 10 20 c)
    (find_type_since "Natural"
       (env_now (sample_env oracle) - 30 * 60 * 1000) db) ->
  post_report Extended (sample_env oracle) db (sample_request "Natural") =
  (ReplyError 500 "Failed to report incident", db).
Proof.
  intros Hfar.
  assert (Hacc : accepted Extended (sample_request "Natural") "Natural"
                   "Flames at the depot" sample_location 10 20).
  { apply sample_accepted; [discriminate | simpl; auto 10]. }
  rewrite (post_report_accepted _ _ _ _ _ _ _ _ _ Hacc).
  rewrite (matchedIncident_none _ _ _ Hfar). cbv zeta.
  rewrite schema_accepts_new_incident by discriminate.
  reflexivity.
Qed.

Lemma detectDuplicates_single (now : Z) (n : NewIncident) (inc : Incident)
    (e : OracleEntry) :
  (now - 2 * 60 * 60 * 1000 <= timestamp inc)%Z ->
  meters_to (lat (new_location n)) (lng (new_location n)) inc <= 500 ->
  index e = 1%Z ->
  detectDuplicates now (OracleArray [e]) n [inc] =
  [mkAiDuplicate (Some (_id inc)) (Some inc) (oracle_confidence e) (reason e)].
Proof.
  unfold meters_to. intros Hts Hd He. unfold detectDuplicates.
  cbn [filter].
  destruct (Z.ltb_spec (timestamp inc) (now - 2 * 60 * 60 * 1000)); [lia |].
  rewrite (leb_true _ _ Hd). cbn [map]. rewrite He. reflexivity.
Qed.

(** A Medical report next to a Fire incident, with an oracle that names the
    first candidate: the report is created and warned about the Fire
    incident. *)
Lemma cross_category_report :
  let fire := sample_incident 1 "Fire" "Reported" 80 1000000 in
  let entry0 := mkOracleEntry 1 90 "Same depot" in
  exists (created : Incident) (ai : AiAnalysis),
    post_report Extended (sample_env (OracleArray [entry0])) [fire]
      (sample_request "Medical") =
    (ReplyCreated 201 "created" created ai
       (Some [mkAiDuplicate (Some 1%Z) (Some fire) 90 "Same depot"]),
     [fire; created]).
Proof.
  intros fire entry0.
  assert (Hacc : accepted Extended (sample_request "Medical") "Medical"
                   "Flames at the depot" sample_location 10 20).
  { apply sample_accepted; [discriminate | simpl; auto]. }
  rewrite (post_report_accepted _ _ _ _ _ _ _ _ _ Hacc).
  replace (find_type_since "Medical"
             (env_now (sample_env (OracleArray [entry0])) - 30 * 60 * 1000)
             [fire]) with (@nil Incident) by reflexivity.
  replace (find_since
             (env_now (sample_env (OracleArray [entry0])) - 2 * 60 * 60 * 1000)
             [fire]) with [fire] by reflexivity.
  cbn [matchedIncident env_oracle sample_env]. cbv zeta.
  rewrite sample_schema_accepts by (simpl; auto || discriminate).
  rewrite detectDuplicates_single.
  - eexists _, _. reflexivity.
  - simpl. lia.
  - cbn [new_location lat lng]. subst fire.
    rewrite meters_to_north_of; lra.
  - reflexivity.
Qed.

(** C4, the claim as stated: it fails for the Medical report above. *)
Lemma warnings_cross_categories :
  ~ (forall (rev : Revision) (env : ReportEnv) (db db' : list Incident)
            (req : ReportRequest) (created : Incident) (ai : AiAnalysis)
            (dups : list AiDuplicate) (d : AiDuplicate) (inc : Incident),
        post_report rev env db req =
          (ReplyCreated 201 "created" created ai (Some dups), db') ->
        In d dups -> dup_incident d = Some inc -> In inc db ->
        body_type req = Some (type inc)).
Proof.
  intros Hclaim.
  destruct cross_category_report as (created & ai & Hrun).
  specialize (Hclaim _ _ _ _ _ _ _ _ _ _ Hrun (or_introl eq_refl) eq_refl
                (or_introl eq_refl)).
  discriminate Hclaim.
Qed.

(** C5, the claim as stated: a failed call never keeps the handler from its
    reply.  It fails for a call that stays pending, which the code awaits
    without a time limit. *)
Lemma unsettled_call_blocks_report :
  ~ (forall (rev : Revision) (env : ReportEnv) (call : Awaited OracleOutcome)
            (db : list Incident) (req : ReportRequest),
        call_failed call ->
        exists (reply : ReportReply) (db' : list Incident),
          post_report_awaited rev env call db req = Some (reply, db')).
Proof.
  intros Hclaim.
  destruct (Hclaim Basic (sample_env OracleThrows) NeverSettles
              [sample_incident 1 "Fire" "Reported" 80 1000000]
              (sample_request "Fire") I) as (reply & db' & Hrun).
  rewrite (unsettled_call_at_80m Basic OracleThrows) in Hrun.
  discriminate Hrun.
Qed.

(** The same Fire incident, seen by the duplicate check of a Medical report
    filed at its very place and time: confidence 91. *)
Lemma cross_category_confidence (la ln : R) (now : Z) (inc : Incident) :
  lat (location inc) = la -> lng (location inc) = ln ->
  timestamp inc = now -> type inc = "Fire"%string ->
  confidence (score_candidate now "Medical" la ln inc) = 91%Z.
Proof.
  intros Hla Hln Hts Hty.
  rewrite score_candidate_confidence. unfold heuristicConfidence, meters_to.
  rewrite Hla, Hln, Hts, Hty, calculateDistance_same, Z.sub_diag.
  simpl String.eqb.
  replace (0 / 5) with 0 by lra. replace (0 / 72000) with 0 by lra.
  rewrite Rminus_0_r, Rmax_right by lra.
  rewrite (round_eq 91) by lra. reflexivity.
Qed.

(** ** The theorems at the sample data *)

Lemma report_merge_or_create_witness :
  accepted Extended (sample_request "Fire") "Fire" "Flames at the depot"
    sample_location 10 20 /\
  (exists (merged : Incident) (db' : list Incident),
      post_report Extended (sample_env OracleThrows)
        [sample_incident 1 "Fire" "Reported" 80 1000000]
        (sample_request "Fire") = (ReplyMerged 200 "merged" merged, db') /\
      upvotes merged = 2%Z /\ List.length db' = 1%nat) /\
  (exists (created : Incident) (ai : AiAnalysis)
          (dups : option (list AiDuplicate)),
      post_report Extended (sample_env OracleThrows)
        [sample_incident 1 "Fire" "Reported" 150 1000000]
        (sample_request "Fire") =
        (ReplyCreated 201 "created" created ai dups,
         [sample_incident 1 "Fire" "Reported" 150 1000000] ++ [created]) /\
      upvotes created = 1%Z /\ status created = "Reported"%string) /\
  accepted Extended (sample_request "Natural") "Natural" "Flames at the depot"
    sample_location 10 20 /\
  post_report Extended (sample_env OracleThrows)
    [sample_incident 1 "Fire" "Reported" 80 1000000]
    (sample_request "Natural") =
  (ReplyError 500 "Failed to report incident",
   [sample_incident 1 "Fire" "Reported" 80 1000000]).
Proof.
  assert (Hacc : accepted Extended (sample_request "Fire") "Fire"
                   "Flames at the depot" sample_location 10 20).
  { apply sample_accepted; [discriminate | simpl; auto]. }
  assert (Hnat : accepted Extended (sample_request "Natural") "Natural"
                   "Flames at the depot" sample_location 10 20).
  { apply sample_accepted; [discriminate | simpl; auto 10]. }
  split; [exact Hacc | split; [| split; [| split; [exact Hnat |]]]].
  - destruct (report_merge_or_create Extended (sample_env OracleThrows)
                [sample_incident 1 "Fire" "Reported" 80 1000000]
                (sample_request "Fire") _ _ _ _ _ Hacc) as (_ & Hmerge & _).
    destruct (Hmerge [] [] (sample_incident 1 "Fire" "Reported" 80 1000000))
      as (merged & db' & Hrun & _ & Hup & _ & Hlen).
    + reflexivity.
    + constructor.
    + rewrite meters_to_north_of; lra.
    + exists merged, db'. split; [exact Hrun | split; [exact Hup | exact Hlen]].
  - destruct (report_merge_or_create Extended (sample_env OracleThrows)
                [sample_incident 1 "Fire" "Reported" 150 1000000]
                (sample_request "Fire") _ _ _ _ _ Hacc)
      as (_ & _ & Hcreate & _).
    destruct Hcreate as (created & dups & Hrun & Hup & Hst & _).
    + constructor; [| constructor]. rewrite meters_to_north_of; lra.
    + simpl. auto.
    + rewrite sample_analysis_severity. simpl. auto.
    + exists created. eexists. exists dups.
      split; [exact Hrun | split; [exact Hup | exact Hst]].
  - destruct (report_merge_or_create Extended (sample_env OracleThrows)
                [sample_incident 1 "Fire" "Reported" 80 1000000]
                (sample_request "Natural") _ _ _ _ _ Hnat)
      as (_ & _ & _ & Hrefuse & _).
    apply Hrefuse.
    + constructor.
    + left. simpl. intros H.
      repeat (destruct H as [H | H]; [discriminate H |]). exact H.
Defined.

Lemma heuristic_duplicates_contract_witness :
  "Medical"%string <> ""%string /\
  check_duplicates 1000000 OracleThrows
    (mkCheckQuery (Some "Medical"%string) (Some 10) (Some 20) "")
    [sample_incident 1 "Fire" "Reported" 0 1000000] =
  CheckOk 200
    (heuristic_duplicates 1000000 "Medical" 10 20
       [sample_incident 1 "Fire" "Reported" 0 1000000]).
Proof.
  split; [discriminate |].
  apply (heuristic_duplicates_contract 1000000 "Medical" 10 20
           [sample_incident 1 "Fire" "Reported" 0 1000000]).
  discriminate.
Defined.

Lemma duplicate_warnings_window_witness :
  In (mkAiDuplicate (Some 1%Z)
        (Some (sample_incident 1 "Fire" "Reported" 80 1000000)) 90 "Same depot")
     (detectDuplicates 1600000 (OracleArray [mkOracleEntry 1 90 "Same depot"])
        (mkNewIncident "Medical" "Flames at the depot" (mkLatLng 10 20))
        [sample_incident 1 "Fire" "Reported" 80 1000000]) /\
  exists inc : Incident,
    In inc [sample_incident 1 "Fire" "Reported" 80 1000000] /\
    type inc = "Fire"%string /\
    (1600000 - 2 * 60 * 60 * 1000 <= timestamp inc)%Z /\
    meters_to 10 20 inc <= 500.
Proof.
  assert (Hin :
    In (mkAiDuplicate (Some 1%Z)
          (Some (sample_incident 1 "Fire" "Reported" 80 1000000)) 90 "Same depot")
       (detectDuplicates 1600000 (OracleArray [mkOracleEntry 1 90 "Same depot"])
          (mkNewIncident "Medical" "Flames at the depot" (mkLatLng 10 20))
          [sample_incident 1 "Fire" "Reported" 80 1000000])).
  { rewrite detectDuplicates_single.
    - left. reflexivity.
    - simpl. lia.
    - cbn [new_location lat lng]. rewrite meters_to_north_of; lra.
    - reflexivity. }
  split; [exact Hin |].
  destruct (duplicate_warnings_window 1600000
              (OracleArray [mkOracleEntry 1 90 "Same depot"])) as (Hwin & _ & _).
  destruct (Hwin _ _ _ Hin) as (inc & Hd & _ & Hex & Hts & Hm).
  exists inc. simpl in Hd. inversion Hd; subst inc.
  split; [exact Hex | split; [reflexivity | split; [exact Hts | exact Hm]]].
Defined.

Lemma oracle_failure_is_soft_witness :
  oracle_failed OracleThrows /\
  detectDuplicates 1600000 OracleThrows
    (mkNewIncident "Fire" "Flames at the depot" (mkLatLng 10 20))
    [sample_incident 1 "Fire" "Reported" 80 1000000] = [] /\
  fst (post_report Extended (with_oracle OracleThrows (sample_env OracleNoArray))
         [sample_incident 1 "Fire" "Reported" 150 1000000]
         (sample_request "Fire")) =
  without_duplicates
    (fst (post_report Extended
            (with_oracle (OracleArray [mkOracleEntry 1 90 "Same depot"])
               (sample_env OracleNoArray))
            [sample_incident 1 "Fire" "Reported" 150 1000000]
            (sample_request "Fire"))) /\
  post_report_awaited Extended (sample_env OracleNoArray) (Settles OracleThrows)
    [sample_incident 1 "Fire" "Reported" 150 1000000] (sample_request "Fire") =
  Some (post_report Extended (with_oracle OracleThrows (sample_env OracleNoArray))
          [sample_incident 1 "Fire" "Reported" 150 1000000]
          (sample_request "Fire")) /\
  accepted Extended (sample_request "Fire") "Fire" "Flames at the depot"
    sample_location 10 20 /\
  In "Fire"%string schema_types /\
  exists (inc : Incident) (db' : list Incident),
    post_report Extended (with_oracle OracleThrows (sample_env OracleNoArray))
      [sample_incident 1 "Fire" "Reported" 150 1000000]
      (sample_request "Fire") = (ReplyMerged 200 "merged" inc, db') \/
    post_report Extended (with_oracle OracleThrows (sample_env OracleNoArray))
      [sample_incident 1 "Fire" "Reported" 150 1000000]
      (sample_request "Fire") =
    (ReplyCreated 201 "created" inc
       (report_analysis Extended (sample_env OracleNoArray)
          (sample_request "Fire") "Flames at the depot" "Fire") None, db').
Proof.
  assert (Hf : oracle_failed OracleThrows) by (left; reflexivity).
  assert (Hacc : accepted Extended (sample_request "Fire") "Fire"
                   "Flames at the depot" sample_location 10 20).
  { apply sample_accepted; [discriminate | simpl; auto]. }
  assert (Hty : In "Fire"%string schema_types) by (simpl; auto).
  destruct (oracle_failure_is_soft OracleThrows Hf)
    as (Hdet & _ & Hsame & Hrun & Hsettled).
  split; [exact Hf |].
  split; [apply Hdet |].
  split; [apply Hsame |].
  split; [apply Hsettled |].
  split; [exact Hacc |].
  split; [exact Hty |].
  apply (Hrun Extended (sample_env OracleNoArray) _ (sample_request "Fire")
           "Fire"%string "Flames at the depot"%string sample_location 10 20
           Hacc Hty).
  rewrite sample_analysis_severity. simpl. auto.
Defined.

Lemma priority_queue_contract_witness :
  queue_limit (mkQueueQuery None None (Some (Int 2))) = Int 2 /\
  (0 <= 2)%Z /\
  List.length
    (fst (priority_queue 1600000
            [sample_incident 1 "Fire" "Resolved" 0 1000000;
             sample_incident 2 "Crime" "Reported" 0 1000000;
             sample_incident 3 "Medical" "In Progress" 0 1000000;
             sample_incident 4 "Fire" "Closed" 0 1000000;
             sample_incident 5 "Fire" "Verified" 0 1000000]
            (mkQueueQuery None None (Some (Int 2))))) = 2%nat.
Proof.
  split; [reflexivity | split; [lia |]].
  destruct (priority_queue_contract 1600000
              [sample_incident 1 "Fire" "Resolved" 0 1000000;
               sample_incident 2 "Crime" "Reported" 0 1000000;
               sample_incident 3 "Medical" "In Progress" 0 1000000;
               sample_incident 4 "Fire" "Closed" 0 1000000;
               sample_incident 5 "Fire" "Verified" 0 1000000]
              (mkQueueQuery None None (Some (Int 2))) 2 eq_refl)
    as (_ & _ & _ & Hlen & _).
  - lia.
  - rewrite Hlen. reflexivity.
Defined.

Lemma merge_changes_upvotes_only_witness :
  post_report Extended (sample_env OracleThrows)
    [sample_incident 1 "Fire" "Reported" 80 1000000;
     sample_incident 2 "Crime" "Reported" 80 1000000]
    (sample_request "Fire") =
  (ReplyMerged 200 "merged"
     (set_upvotes 2 (sample_incident 1 "Fire" "Reported" 80 1000000)),
   [set_upvotes 2 (sample_incident 1 "Fire" "Reported" 80 1000000);
    sample_incident 2 "Crime" "Reported" 80 1000000]) /\
  exists m : Incident,
    In m [sample_incident 1 "Fire" "Reported" 80 1000000;
          sample_incident 2 "Crime" "Reported" 80 1000000] /\
    same_but_upvotes m
      (set_upvotes 2 (sample_incident 1 "Fire" "Reported" 80 1000000)).
Proof.
  assert (Hrun :
    post_report Extended (sample_env OracleThrows)
      [sample_incident 1 "Fire" "Reported" 80 1000000;
       sample_incident 2 "Crime" "Reported" 80 1000000]
      (sample_request "Fire") =
    (ReplyMerged 200 "merged"
       (set_upvotes 2 (sample_incident 1 "Fire" "Reported" 80 1000000)),
     [set_upvotes 2 (sample_incident 1 "Fire" "Reported" 80 1000000);
      sample_incident 2 "Crime" "Reported" 80 1000000])).
  { rewrite (post_report_merges Extended (sample_env OracleThrows) _
               (sample_request "Fire") "Fire" "Flames at the depot"
               sample_location 10 20 [] []
               (sample_incident 1 "Fire" "Reported" 80 1000000)).
    - reflexivity.
    - apply sample_accepted; [discriminate | simpl; auto].
    - reflexivity.
    - constructor.
    - rewrite meters_to_north_of; lra. }
  split; [exact Hrun |].
  destruct (merge_changes_upvotes_only _ _ _ _ _ _ _ _ Hrun)
    as (m & Hin & _ & _ & _ & _ & _ & _ & _ & _ & Hsame & _).
  exists m. split; [exact Hin | exact Hsame].
Defined.

Lemma zero_coordinate_rejected_witness :
  body_location
    (mkReportRequest (Some "Fire"%string) (Some "Flames at the depot"%string)
       None (LocationObject (mkReqLocation (Some 0) (Some 20) None)) None) =
    LocationObject (mkReqLocation (Some 0) (Some 20) None) /\
  (req_lat (mkReqLocation (Some 0) (Some 20) None) = Some 0 \/
   req_lng (mkReqLocation (Some 0) (Some 20) None) = Some 0) /\
  post_report Extended (sample_env OracleThrows)
    [sample_incident 1 "Fire" "Reported" 80 1000000]
    (mkReportRequest (Some "Fire"%string) (Some "Flames at the depot"%string)
       None (LocationObject (mkReqLocation (Some 0) (Some 20) None)) None) =
  (ReplyError 400 missing_fields_error,
   [sample_incident 1 "Fire" "Reported" 80 1000000]).
Proof.
  split; [reflexivity | split; [left; reflexivity |]].
  apply (zero_coordinate_rejected Extended (sample_env OracleThrows) _ _
           (mkReqLocation (Some 0) (Some 20) None)).
  - reflexivity.
  - left. reflexivity.
Defined.

Lemma merge_ignores_status_witness :
  accepted Basic (sample_request "Fire") "Fire" "Flames at the depot"
    sample_location 10 20 /\
  status (sample_incident 1 "Fire" "Resolved" 80 1000000) = "Resolved"%string /\
  meters_to 10 20 (sample_incident 1 "Fire" "Resolved" 80 1000000) <= 100 /\
  exists (merged : Incident) (db' : list Incident),
    post_report Basic (sample_env OracleThrows)
      [sample_incident 1 "Fire" "Resolved" 80 1000000]
      (sample_request "Fire") = (ReplyMerged 200 "merged" merged, db') /\
    upvotes merged = 2%Z /\ status merged = "Resolved"%string /\
    List.length db' = 1%nat.
Proof.
  assert (Hacc : accepted Basic (sample_request "Fire") "Fire"
                   "Flames at the depot" sample_location 10 20).
  { apply sample_accepted; [discriminate | simpl; auto]. }
  assert (Hnear :
    meters_to 10 20 (sample_incident 1 "Fire" "Resolved" 80 1000000) <= 100).
  { rewrite meters_to_north_of; lra. }
  split; [exact Hacc | split; [reflexivity | split; [exact Hnear |]]].
  destruct (merge_ignores_status Basic (sample_env OracleThrows)
              [sample_incident 1 "Fire" "Resolved" 80 1000000]
              (sample_request "Fire") _ _ _ _ _ [] []
              (sample_incident 1 "Fire" "Resolved" 80 1000000)
              Hacc eq_refl (Forall_nil _) Hnear (or_introl eq_refl))
    as (_ & merged & db' & Hrun & Hup & Hst & _ & _ & Hlen).
  exists merged, db'.
  split; [exact Hrun | split; [exact Hup | split; [exact Hst | exact Hlen]]].
Defined.

(** * Further properties of the ranking *)

Lemma round_le (x y : R) : x <= y -> (JsMath.round x <= JsMath.round y)%Z.
Proof. intros H. unfold JsMath.round. apply Zfloor_le. lra. Qed.

Lemma round_minus_Z (x : R) (z : Z) :
  JsMath.round (x - IZR z) = (JsMath.round x - z)%Z.
Proof.
  unfold JsMath.round.
  replace (x - IZR z + 1 / 2) with (x + 1 / 2 + IZR (- z))
    by (rewrite opp_IZR; lra).
  rewrite Zfloor_addz. lia.
Qed.

Lemma clamp_le (lo hi x y : Z) : (x <= y)%Z -> (clamp lo hi x <= clamp lo hi y)%Z.
Proof. unfold clamp. lia. Qed.

Lemma timeDecay_antitone (a b : R) : a <= b -> timeDecay b <= timeDecay a.
Proof.
  intros H. unfold timeDecay.
  assert (Hf : (Zfloor (a / 10) <= Zfloor (b / 10))%Z) by (apply Zfloor_le; lra).
  apply IZR_le in Hf.
  apply Rmax_case_strong; intros; [apply Rmax_l |].
  apply Rle_trans with (30 - IZR (Zfloor (a / 10)) * 5); [lra | apply Rmax_r].
Qed.

Lemma timeDecay_old (a : R) : 60 <= a -> timeDecay a = 0.
Proof.
  intros H. unfold timeDecay.
  assert (Hf : (6 <= Zfloor (a / 10))%Z) by (apply Zfloor_lub; simpl; lra).
  apply IZR_le in Hf. apply Rmax_left. lra.
Qed.

(** X1.  As the clock advances the score of an incident never goes up, and
    once the incident is an hour old the clock no longer changes it. *)
Theorem priority_decays_with_time (now1 now2 : Z) (incident : Incident)
    (responder : option LatLng) :
  (now1 <= now2)%Z ->
  (calculatePriority now2 incident responder
   <= calculatePriority now1 incident responder)%Z /\
  ((timestamp incident + 60 * 60 * 1000 <= now1)%Z ->
   calculatePriority now2 incident responder =
   calculatePriority now1 incident responder).
Proof.
  intros Hnow. rewrite !calculatePriority_formula. unfold prioritySum.
  assert (Hage : ageMinutes now1 incident <= ageMinutes now2 incident).
  { unfold ageMinutes.
    assert (H : IZR (now1 - timestamp incident) <= IZR (now2 - timestamp incident))
      by (apply IZR_le; lia).
    lra. }
  split.
  - apply clamp_le, round_le.
    pose proof (timeDecay_antitone _ _ Hage). lra.
  - intros Hold.
    assert (H1 : 60 <= ageMinutes now1 incident).
    { unfold ageMinutes.
      assert (H : IZR 3600000 <= IZR (now1 - timestamp incident))
        by (apply IZR_le; lia).
      lra. }
    rewrite (timeDecay_old _ H1), (timeDecay_old (ageMinutes now2 incident))
      by lra.
    reflexivity.
Qed.

Lemma priority_decays_with_time_witness :
  (1600000 <= 5200000)%Z /\
  (calculatePriority 5200000 (sample_incident 1 "Fire" "Reported" 0 1000000) None
   <= calculatePriority 1600000 (sample_incident 1 "Fire" "Reported" 0 1000000)
        None)%Z.
Proof.
  split; [lia |].
  apply (priority_decays_with_time 1600000 5200000). lia.
Defined.

(** X2.  More upvotes never lower the score, and beyond ten upvotes further
    ones no longer change it. *)
Theorem priority_grows_with_upvotes (now : Z) (incident : Incident)
    (responder : option LatLng) (v1 v2 : Z) :
  (v1 <= v2)%Z ->
  (calculatePriority now (set_upvotes v1 incident) responder
   <= calculatePriority now (set_upvotes v2 incident) responder)%Z /\
  ((10 <= v1)%Z ->
   calculatePriority now (set_upvotes v1 incident) responder =
   calculatePriority now (set_upvotes v2 incident) responder).
Proof.
  intros Hv. rewrite !calculatePriority_formula.
  unfold prioritySum, ageMinutes, distancePenalty, corroborationBoost.
  cbn [set_upvotes severity timestamp upvotes location verified status type].
  assert (H12 : IZR v1 <= IZR v2) by (apply IZR_le; exact Hv).
  split.
  - apply clamp_le, round_le.
    assert (Rmin (IZR v1 * 2) 20 <= Rmin (IZR v2 * 2) 20).
    { apply Rmin_glb; [| apply Rmin_r].
      apply Rle_trans with (IZR v1 * 2); [apply Rmin_l | lra]. }
    lra.
  - intros H10. apply IZR_le in H10.
    rewrite (Rmin_right (IZR v1 * 2)), (Rmin_right (IZR v2 * 2)) by lra.
    reflexivity.
Qed.

Lemma priority_grows_with_upvotes_witness :
  (3 <= 12)%Z /\
  (calculatePriority 1600000
     (set_upvotes 3 (sample_incident 1 "Fire" "Reported" 0 1000000)) None
   <= calculatePriority 1600000
        (set_upvotes 12 (sample_incident 1 "Fire" "Reported" 0 1000000)) None)%Z.
Proof.
  split; [lia |].
  apply (priority_grows_with_upvotes 1600000
           (sample_incident 1 "Fire" "Reported" 0 1000000) None 3 12).
  lia.
Defined.

Lemma distancePenalty_range (incident : Incident) (responder : option LatLng) :
  0 <= distancePenalty incident responder <= 30.
Proof.
  unfold distancePenalty. destruct responder as [r |]; [| lra].
  split; [| apply Rmin_r].
  apply Rmin_glb; [| lra].
  pose proof (calculateDistance_nonneg (lat r) (lng r)
                (lat (location incident)) (lng (location incident))).
  lra.
Qed.

(** X3.  Giving the position of a responder never raises the score of an
    incident and lowers it by at most 30. *)
Theorem responder_distance_only_lowers (now : Z) (incident : Incident)
    (r : LatLng) :
  (calculatePriority now incident (Some r)
   <= calculatePriority now incident None
   <= calculatePriority now incident (Some r) + 30)%Z.
Proof.
  rewrite !calculatePriority_formula.
  pose proof (distancePenalty_range incident (Some r)) as Hp.
  set (base := prioritySum now incident None).
  assert (Hsum : prioritySum now incident (Some r) =
                 base - distancePenalty incident (Some r)).
  { subst base. unfold prioritySum.
    change (distancePenalty incident None) with 0. lra. }
  rewrite Hsum.
  assert (H1 : (JsMath.round (base - distancePenalty incident (Some r))
                <= JsMath.round base)%Z) by (apply round_le; lra).
  assert (H2 : (JsMath.round base - 30
                <= JsMath.round (base - distancePenalty incident (Some r)))%Z).
  { rewrite <- (round_minus_Z base 30). apply round_le. lra. }
  unfold clamp. lia.
Qed.

Lemma categoryBonus_range (cat : string) : 0 <= categoryBonus cat <= 10.
Proof.
  unfold categoryBonus.
  destruct (String.eqb cat "Medical" || String.eqb cat "Fire"); [lra |].
  destruct (String.eqb cat "Crime" || String.eqb cat "Accident"); lra.
Qed.

Lemma timeDecay_zero : timeDecay 0 = 30.
Proof.
  unfold timeDecay. replace (0 / 10) with (IZR 0) by lra.
  rewrite ZfloorZ, Rmax_right by lra. lra.
Qed.

Lemma fresh_report_sum (env : ReportEnv) (req : ReportRequest)
    (type0 description0 : string) (l : ReqLocation) (lat0 lng0 : R)
    (ai : AiAnalysis) :
  prioritySum (env_now env)
    (new_incident env req type0 description0 l lat0 lng0 ai) None =
  severityBase (ai_severity ai) + 32 + categoryBonus type0.
Proof.
  unfold prioritySum, ageMinutes, corroborationBoost, distancePenalty,
    verificationBonus, new_incident.
  cbn [severity timestamp upvotes verified status type].
  rewrite Z.sub_diag. replace (0 / 60000) with 0 by lra.
  rewrite timeDecay_zero, Rmin_left by lra.
  unfold statusAdjustment. simpl. lra.
Qed.

Lemma fresh_report_score (env : ReportEnv) (req : ReportRequest)
    (type0 description0 : string) (l : ReqLocation) (lat0 lng0 : R)
    (ai : AiAnalysis) (base : Z) :
  severityBase (ai_severity ai) = IZR base -> (0 <= base <= 100)%Z ->
  (base + 32 <=
   calculatePriority (env_now env)
     (new_incident env req type0 description0 l lat0 lng0 ai) None
   <= base + 42)%Z.
Proof.
  intros Hb Hr. rewrite calculatePriority_formula, fresh_report_sum, Hb.
  pose proof (categoryBonus_range type0) as Hc.
  assert (H1 : (JsMath.round (IZR (base + 32))
                <= JsMath.round (IZR base + 32 + categoryBonus type0))%Z)
    by (apply round_le; rewrite plus_IZR; lra).
  assert (H2 : (JsMath.round (IZR base + 32 + categoryBonus type0)
                <= JsMath.round (IZR (base + 42)))%Z)
    by (apply round_le; rewrite plus_IZR; lra).
  rewrite round_IZR in H1, H2. unfold clamp. lia.
Qed.

(** X4.  The score at which a report is announced when it is created lies
    between 32 and 42 above the base of its severity, so its level is the
    level named like its severity. *)
Theorem fresh_report_level (env : ReportEnv) (req : ReportRequest)
    (type0 description0 : string) (l : ReqLocation) (lat0 lng0 : R)
    (ai : AiAnalysis) :
  let score :=
    calculatePriority (env_now env)
      (new_incident env req type0 description0 l lat0 lng0 ai) None in
  (ai_severity ai = "Critical"%string ->
   (132 <= score <= 142)%Z /\ getPriorityLevel score = "CRITICAL"%string) /\
  (ai_severity ai = "High"%string ->
   (102 <= score <= 112)%Z /\ getPriorityLevel score = "HIGH"%string) /\
  (ai_severity ai = "Medium"%string ->
   (72 <= score <= 82)%Z /\ getPriorityLevel score = "MEDIUM"%string) /\
  (ai_severity ai = "Low"%string ->
   (42 <= score <= 52)%Z /\ getPriorityLevel score = "LOW"%string).
Proof.
  intros score. subst score.
  split; [| split; [| split]]; intros Hsev.
  - pose proof (fresh_report_score env req type0 description0 l lat0 lng0 ai 100)
      as H. rewrite Hsev in H. specialize (H eq_refl ltac:(lia)).
    split; [lia |]. apply getPriorityLevel_spec. lia.
  - pose proof (fresh_report_score env req type0 description0 l lat0 lng0 ai 70)
      as H. rewrite Hsev in H. specialize (H eq_refl ltac:(lia)).
    split; [lia |]. apply getPriorityLevel_spec. lia.
  - pose proof (fresh_report_score env req type0 description0 l lat0 lng0 ai 40)
      as H. rewrite Hsev in H. specialize (H eq_refl ltac:(lia)).
    split; [lia |]. apply getPriorityLevel_spec. lia.
  - pose proof (fresh_report_score env req type0 description0 l lat0 lng0 ai 10)
      as H. rewrite Hsev in H. specialize (H eq_refl ltac:(lia)).
    split; [lia |]. apply getPriorityLevel_spec. lia.
Qed.

Lemma fresh_report_level_witness :
  ai_severity (mkAiAnalysis "High" None None) = "High"%string /\
  getPriorityLevel
    (calculatePriority (env_now (sample_env OracleThrows))
       (new_incident (sample_env OracleThrows) (sample_request "Fire") "Fire"
          "Flames at the depot" sample_location 10 20
          (mkAiAnalysis "High" None None)) None) = "HIGH"%string.
Proof.
  split; [reflexivity |].
  apply (fresh_report_level (sample_env OracleThrows) (sample_request "Fire")
           "Fire" "Flames at the depot" sample_location 10 20
           (mkAiAnalysis "High" None None)).
  reflexivity.
Defined.

(** * Further properties of the distance *)

Lemma atan2_le_PI2 (y x : R) : 0 <= y -> 0 <= x -> JsMath.atan2 y x <= PI / 2.
Proof.
  intros Hy Hx. unfold JsMath.atan2. pose proof PI_RGT_0 as Hpi.
  destruct (Rlt_dec 0 x) as [Hpos | _].
  - pose proof (atan_bound (y / x)). lra.
  - destruct (Rlt_dec x 0); [exfalso; lra |].
    destruct (Rlt_dec 0 y); [lra |].
    destruct (Rlt_dec y 0); lra.
Qed.

(** X5.  For latitudes between -90 and 90 the distance is never negative and
    never more than half the circumference of the sphere. *)
Theorem calculateDistance_bounds (lat1 lng1 lat2 lng2 : R) :
  -90 <= lat1 <= 90 -> -90 <= lat2 <= 90 ->
  0 <= calculateDistance lat1 lng1 lat2 lng2 <= 6371000 * PI.
Proof.
  intros H1 H2. split; [apply calculateDistance_nonneg |].
  unfold calculateDistance.
  pose proof (atan2_le_PI2 _ _ (sqrt_pos
    (sin ((lat2 - lat1) * PI / 180 / 2) * sin ((lat2 - lat1) * PI / 180 / 2) +
     cos (lat1 * PI / 180) * cos (lat2 * PI / 180) *
       sin ((lng2 - lng1) * PI / 180 / 2) * sin ((lng2 - lng1) * PI / 180 / 2)))
    (sqrt_pos (1 -
    (sin ((lat2 - lat1) * PI / 180 / 2) * sin ((lat2 - lat1) * PI / 180 / 2) +
     cos (lat1 * PI / 180) * cos (lat2 * PI / 180) *
       sin ((lng2 - lng1) * PI / 180 / 2) * sin ((lng2 - lng1) * PI / 180 / 2)))))
    as H.
  lra.
Qed.

Lemma calculateDistance_bounds_witness :
  -90 <= 10 <= 90 /\ -90 <= 45 <= 90 /\
  0 <= calculateDistance 10 20 45 (-120) <= 6371000 * PI.
Proof.
  split; [lra | split; [lra |]].
  apply (calculateDistance_bounds 10 20 45 (-120)); lra.
Defined.

(** X6.  Between two points of one meridian the distance is the length of
    the arc between their latitudes, one degree being 6371000 * PI / 180
    meters. *)
Theorem calculateDistance_along_meridian (lat1 lat2 lng0 : R) :
  -180 < lat2 - lat1 < 180 ->
  calculateDistance lat1 lng0 lat2 lng0 =
  6371000 * (Rabs (lat2 - lat1) * PI / 180).
Proof.
  intros [Hlo Hhi].
  destruct (Rle_dec 0 (lat2 - lat1)) as [Hpos | Hneg].
  - rewrite Rabs_right by lra. apply calculateDistance_meridian. lra.
  - rewrite Rabs_left by lra. rewrite calculateDistance_sym.
    rewrite calculateDistance_meridian by lra. lra.
Qed.

Lemma calculateDistance_along_meridian_witness :
  -180 < 11 - 10 < 180 /\
  calculateDistance 10 20 11 20 = 6371000 * (Rabs (11 - 10) * PI / 180).
Proof.
  split; [lra |].
  apply (calculateDistance_along_meridian 10 11 20). lra.
Defined.

(** * Further properties of duplicate detection *)

Lemma round_ge_iff (z : Z) (x : R) :
  (z <= JsMath.round x)%Z <-> IZR z - 1 / 2 <= x.
Proof.
  unfold JsMath.round. split.
  - intros H. apply IZR_le in H.
    pose proof (Zfloor_bound (x + 1 / 2)). lra.
  - intros H. apply Zfloor_lub. lra.
Qed.

(** X7.  A candidate passes the cut of the duplicate check exactly when its
    distance score, time score and category bonus add up to at least 89.1. *)
Theorem candidate_returned_iff (now : Z) (type0 : string)
    (latitude longitude : R) (c : Incident) :
  (40 < confidence (score_candidate now type0 latitude longitude c))%Z <->
  891 / 10 <=
    Rmax 0 (100 - meters_to latitude longitude c / 5)
    + Rmax 0 (100 - IZR (now - timestamp c) / 72000)
    + (if String.eqb (type c) type0 then 20 else 0).
Proof.
  rewrite score_candidate_confidence. unfold heuristicConfidence, clamp.
  set (blend := Rmax 0 (100 - meters_to latitude longitude c / 5)
                + Rmax 0 (100 - IZR (now - timestamp c) / 72000)
                + (if String.eqb (type c) type0 then 20 else 0)).
  pose proof (round_ge_iff 41 (blend / (22 / 10))) as Hr.
  split.
  - intros H. assert (H41 : (41 <= JsMath.round (blend / (22 / 10)))%Z) by lia.
    apply Hr in H41. lra.
  - intros H. assert (H41 : (41 <= JsMath.round (blend / (22 / 10)))%Z)
      by (apply Hr; lra).
    lia.
Qed.

Lemma heuristicConfidence_antitone (d1 d2 e1 e2 : R) (same : bool) :
  d1 <= d2 -> e1 <= e2 ->
  (heuristicConfidence d2 e2 same <= heuristicConfidence d1 e1 same)%Z.
Proof.
  intros Hd He. unfold heuristicConfidence.
  apply clamp_le, round_le.
  assert (H1 : Rmax 0 (100 - d2 / 5) <= Rmax 0 (100 - d1 / 5)).
  { apply Rmax_case_strong; intros; [apply Rmax_l |].
    apply Rle_trans with (100 - d1 / 5); [lra | apply Rmax_r]. }
  assert (H2 : Rmax 0 (100 - e2 / 72000) <= Rmax 0 (100 - e1 / 72000)).
  { apply Rmax_case_strong; intros; [apply Rmax_l |].
    apply Rle_trans with (100 - e1 / 72000); [lra | apply Rmax_r]. }
  lra.
Qed.

(** X8.  Of two candidates that both match, or both miss, the category of
    the report, the one that is not nearer and not newer never gets the
    higher confidence. *)
Theorem confidence_antitone (now : Z) (type0 : string)
    (latitude longitude : R) (c1 c2 : Incident) :
  meters_to latitude longitude c1 <= meters_to latitude longitude c2 ->
  (timestamp c2 <= timestamp c1)%Z ->
  String.eqb (type c1) type0 = String.eqb (type c2) type0 ->
  (confidence (score_candidate now type0 latitude longitude c2)
   <= confidence (score_candidate now type0 latitude longitude c1))%Z.
Proof.
  intros Hd Ht Hty. rewrite !score_candidate_confidence, Hty.
  apply heuristicConfidence_antitone; [exact Hd |].
  apply IZR_le. lia.
Qed.

Lemma confidence_antitone_witness :
  meters_to 10 20 (sample_incident 1 "Fire" "Reported" 80 1000000)
    <= meters_to 10 20 (sample_incident 2 "Fire" "Reported" 150 900000) /\
  (confidence
     (score_candidate 1600000 "Fire" 10 20
        (sample_incident 2 "Fire" "Reported" 150 900000))
   <= confidence
        (score_candidate 1600000 "Fire" 10 20
           (sample_incident 1 "Fire" "Reported" 80 1000000)))%Z.
Proof.
  assert (Hd :
    meters_to 10 20 (sample_incident 1 "Fire" "Reported" 80 1000000)
      <= meters_to 10 20 (sample_incident 2 "Fire" "Reported" 150 900000)).
  { rewrite !meters_to_north_of; lra. }
  split; [exact Hd |].
  apply (confidence_antitone 1600000 "Fire" 10 20
           (sample_incident 1 "Fire" "Reported" 80 1000000)
           (sample_incident 2 "Fire" "Reported" 150 900000) Hd).
  - simpl. lia.
  - reflexivity.
Defined.

Lemma heuristic_confidence_range (now : Z) (type0 : string)
    (latitude longitude : R) (nearby : list Incident) :
  Forall (fun d => (41 <= confidence d <= 100)%Z)
    (heuristic_duplicates now type0 latitude longitude nearby).
Proof.
  apply Forall_forall. intros d Hd.
  apply heuristic_duplicates_In in Hd. destruct Hd as [Hd H40].
  apply in_map_iff in Hd. destruct Hd as (c & <- & _).
  rewrite score_candidate_confidence in *. unfold heuristicConfidence, clamp in *.
  lia.
Qed.

Lemma fuse_confidence_range (ai : list AiDuplicate) (d : DuplicateCandidate) :
  Forall (fun a => 0 <= ai_confidence a <= 100) ai ->
  (41 <= confidence d <= 100)%Z ->
  (21 <= confidence (fuse ai d) <= 100)%Z.
Proof.
  intros Hai Hd. unfold fuse.
  destruct (find _ ai) as [m |] eqn:Hf; [| lia].
  apply find_some in Hf. destruct Hf as [Hin _].
  rewrite Forall_forall in Hai. specialize (Hai m Hin).
  cbn [confidence].
  destruct Hd as [Hlo Hhi]. apply IZR_le in Hlo, Hhi.
  split.
  - apply round_ge_iff. lra.
  - assert (H : (JsMath.round ((IZR (confidence d) + ai_confidence m) / 2)
                 <= JsMath.round (IZR 100))%Z) by (apply round_le; lra).
    rewrite round_IZR in H. exact H.
Qed.

Lemma detectDuplicates_confidences (now : Z) (oracle : OracleOutcome)
    (n : NewIncident) (existing : list Incident) :
  match oracle with
  | OracleArray entries =>
      Forall (fun e => 0 <= oracle_confidence e <= 100) entries
  | _ => True
  end ->
  Forall (fun a => 0 <= ai_confidence a <= 100)
    (detectDuplicates now oracle n existing).
Proof.
  intros Ho. unfold detectDuplicates.
  destruct (filter _ existing); [constructor |].
  destruct oracle as [| | | entries]; try constructor.
  apply Forall_forall. intros a Ha.
  apply filter_In in Ha. destruct Ha as [Ha _].
  apply in_map_iff in Ha. destruct Ha as (e & <- & He).
  rewrite Forall_forall in Ho. apply (Ho e He).
Qed.

(** X9.  Whatever the oracle answers, the duplicate check returns the
    candidates of the heuristic list, none added and none dropped, in
    non-increasing order of their final confidence; when the confidences of
    the oracle lie between 0 and 100, every returned confidence lies between
    21 and 100. *)
Theorem fusion_keeps_candidates (now : Z) (oracle : OracleOutcome)
    (q : CheckQuery) (type0 : string) (latitude longitude : R)
    (nearby : list Incident) :
  q_type q = Some type0 -> type0 <> ""%string ->
  q_lat q = Some latitude -> q_lng q = Some longitude ->
  exists dups : list DuplicateCandidate,
    check_duplicates now oracle q nearby = CheckOk 200 dups /\
    Permutation (map candidate dups)
      (map candidate
         (heuristic_duplicates now type0 latitude longitude nearby)) /\
    descending_sorted confidence dups /\
    (match oracle with
     | OracleArray entries =>
         Forall (fun e => 0 <= oracle_confidence e <= 100) entries
     | _ => True
     end ->
     Forall (fun d => (21 <= confidence d <= 100)%Z) dups).
Proof.
  intros Ht Nt Hla Hln. unfold check_duplicates. rewrite Ht, Hla, Hln.
  assert (E : truthy_string (Some type0) = true)
    by (apply truthy_string_true; eauto).
  rewrite E. cbn [negb].
  destruct nearby as [| c rest].
  { exists []. repeat split; try constructor. }
  set (nearby := c :: rest).
  set (h := heuristic_duplicates now type0 latitude longitude nearby).
  pose proof (heuristic_confidence_range now type0 latitude longitude nearby)
    as Hrange. fold h in Hrange.
  destruct (truthy_string (Some (q_description q))
            && (0 <? Z.of_nat (List.length h))%Z).
  - eexists. split; [reflexivity |]. split; [| split].
    + apply perm_trans with (map candidate (map (fuse
        (detectDuplicates now oracle
           (mkNewIncident type0 (q_description q) (mkLatLng latitude longitude))
           nearby)) h)).
      * apply Permutation_map, sort_perm.
      * rewrite map_map.
        rewrite (map_ext _ candidate (fun d => fuse_candidate _ d)).
        apply Permutation_refl.
    + apply sort_sorted.
    + intros Ho. apply Forall_forall. intros d Hd.
      apply sort_In, in_map_iff in Hd. destruct Hd as (d0 & <- & Hd0).
      apply fuse_confidence_range.
      * apply detectDuplicates_confidences, Ho.
      * rewrite Forall_forall in Hrange. apply Hrange, Hd0.
  - exists h. split; [reflexivity |]. split; [apply Permutation_refl |].
    split; [apply sort_sorted |].
    intros _. eapply Forall_impl; [| exact Hrange].
    intros d Hd. simpl in Hd. lia.
Qed.

Lemma fusion_keeps_candidates_witness :
  q_type (mkCheckQuery (Some "Medical"%string) (Some 10) (Some 20) "Flames")
    = Some "Medical"%string /\
  "Medical"%string <> ""%string /\
  exists dups : list DuplicateCandidate,
    check_duplicates 1000000 (OracleArray [mkOracleEntry 1 90 "Same depot"])
      (mkCheckQuery (Some "Medical"%string) (Some 10) (Some 20) "Flames")
      [sample_incident 1 "Fire" "Reported" 0 1000000] = CheckOk 200 dups /\
    descending_sorted confidence dups.
Proof.
  split; [reflexivity | split; [discriminate |]].
  destruct (fusion_keeps_candidates 1000000
              (OracleArray [mkOracleEntry 1 90 "Same depot"])
              (mkCheckQuery (Some "Medical"%string) (Some 10) (Some 20) "Flames")
              "Medical" 10 20
              [sample_incident 1 "Fire" "Reported" 0 1000000]
              eq_refl ltac:(discriminate) eq_refl eq_refl)
    as (dups & Hrun & _ & Hs & _).
  exists dups. split; [exact Hrun | exact Hs].
Defined.

(** X10.  With an oracle that answers an array, the detector returns one
    warning for each entry whose 1-based index names one of the nearby
    incidents (existing incidents at most two hours old and at most 500 m
    away), in the order of the entries, and nothing for an entry whose index
    is below 1 or above their number. *)
Theorem detectDuplicates_entries (now : Z) (entries : list OracleEntry)
    (n : NewIncident) (existing : list Incident) :
  let nearby :=
    filter (fun inc =>
              (now - 2 * 60 * 60 * 1000 <=? timestamp inc)%Z
              && JsMath.leb
                   (meters_to (lat (new_location n)) (lng (new_location n)) inc)
                   500)
           existing in
  let warning (e : OracleEntry) : list AiDuplicate :=
    match nth_error nearby (Z.to_nat (index e - 1)) with
    | Some inc =>
        if (1 <=? index e)%Z
        then [mkAiDuplicate (Some (_id inc)) (Some inc) (oracle_confidence e)
                (reason e)]
        else []
    | None => []
    end in
  detectDuplicates now (OracleArray entries) n existing =
    flat_map warning entries /\
  (List.length (detectDuplicates now (OracleArray entries) n existing)
   <= List.length entries)%nat /\
  (forall e : OracleEntry,
      (index e < 1)%Z \/ (Z.of_nat (List.length nearby) < index e)%Z ->
      warning e = []).
Proof.
  intros nearby warning.
  assert (Hnear :
    filter (fun incident =>
              if (timestamp incident <? now - 2 * 60 * 60 * 1000)%Z then false
              else
                JsMath.leb
                  (calculateDistance (lat (new_location n)) (lng (new_location n))
                     (lat (location incident)) (lng (location incident)))
                  500) existing = nearby).
  { subst nearby. apply filter_ext. intros inc. unfold meters_to.
    destruct (Z.ltb_spec (timestamp inc) (now - 2 * 60 * 60 * 1000));
      destruct (Z.leb_spec (now - 2 * 60 * 60 * 1000) (timestamp inc));
      try lia; reflexivity. }
  assert (Heq : detectDuplicates now (OracleArray entries) n existing =
                flat_map warning entries).
  { unfold detectDuplicates. cbv zeta. rewrite Hnear.
    assert (Hgen :
      filter (fun d => match incidentId d with Some _ => true | None => false end)
        (map (fun dup =>
                mkAiDuplicate
                  (option_map _id (js_index nearby (index dup - 1)))
                  (js_index nearby (index dup - 1))
                  (oracle_confidence dup) (reason dup)) entries) =
      flat_map warning entries).
    { induction entries as [| e entries IH]; [reflexivity |].
      simpl. rewrite <- IH. subst warning. cbv beta.
      unfold js_index.
      destruct (Z.ltb_spec (index e - 1) 0) as [Hneg | Hpos].
      - destruct (Z.leb_spec 1 (index e)); [lia |].
        simpl. destruct (nth_error nearby _); reflexivity.
      - destruct (Z.leb_spec 1 (index e)); [| lia].
        destruct (nth_error nearby _); reflexivity. }
    destruct nearby as [| c rest] eqn:En; [| exact Hgen].
    clear Hgen. induction entries as [| e entries IH]; [reflexivity |].
    simpl. rewrite <- IH. subst warning. cbv beta.
    destruct (Z.to_nat (index e - 1)); reflexivity. }
  split; [exact Heq | split].
  - rewrite Heq. clear Heq.
    induction entries as [| e entries IH]; [apply Nat.le_refl |].
    simpl. rewrite length_app.
    assert (Hw : (List.length (warning e) <= 1)%nat).
    { subst warning. cbv beta.
      destruct (nth_error nearby _); [| simpl; lia].
      destruct (1 <=? index e)%Z; simpl; lia. }
    lia.
  - intros e [Hlow | Hhigh]; subst warning; cbv beta.
    + destruct (Z.leb_spec 1 (index e)); [lia |].
      destruct (nth_error nearby _); reflexivity.
    + assert (Hnone : nth_error nearby (Z.to_nat (index e - 1)) = None)
        by (apply nth_error_None; lia).
      rewrite Hnone. reflexivity.
Qed.

(** * What a report does to the collection *)

(** The three ways a report can end. *)
Lemma post_report_cases (rev : Revision) (env : ReportEnv)
    (db : list Incident) (req : ReportRequest) :
  (exists code msg, post_report rev env db req = (ReplyError code msg, db)) \/
  (exists type0 description0 l lat0 lng0 m,
      accepted rev req type0 description0 l lat0 lng0 /\
      matchedIncident lat0 lng0
        (find_type_since type0 (env_now env - 30 * 60 * 1000) db) = Some m /\
      post_report rev env db req =
        (ReplyMerged 200 "merged" (set_upvotes (upvotes m + 1) m),
         save_upvotes (set_upvotes (upvotes m + 1) m) db)) \/
  (exists type0 description0 l lat0 lng0 ai dups,
      accepted rev req type0 description0 l lat0 lng0 /\
      matchedIncident lat0 lng0
        (find_type_since type0 (env_now env - 30 * 60 * 1000) db) = None /\
      post_report rev env db req =
        (ReplyCreated 201 "created"
           (new_incident env req type0 description0 l lat0 lng0 ai) ai dups,
         db ++ [new_incident env req type0 description0 l lat0 lng0 ai])).
Proof.
  destruct (post_report_not_error rev env db req)
    as [Herr | (type0 & description0 & l & lat0 & lng0 & Hacc)];
    [left; exact Herr |].
  pose proof (post_report_accepted rev env db req _ _ _ _ _ Hacc) as Hrun.
  destruct (matchedIncident lat0 lng0
              (find_type_since type0 (env_now env - 30 * 60 * 1000) db))
    as [m |] eqn:Hm.
  - right. left. exists type0, description0, l, lat0, lng0, m. auto.
  - cbv zeta in Hrun.
    destruct (schema_accepts _); [| left; eauto].
    right. right.
    exists type0, description0, l, lat0, lng0,
      (report_analysis rev env req description0 type0),
      (match
         detectDuplicates (env_now env) (env_oracle env)
           (mkNewIncident type0 description0 (mkLatLng lat0 lng0))
           (find_since (env_now env - 2 * 60 * 60 * 1000) db)
       with
       | [] => None
       | d :: ds => Some (d :: ds)
       end).
    split; [exact Hacc | split; [exact Hm | exact Hrun]].
Qed.

Lemma save_upvotes_ids (doc : Incident) (db : list Incident) :
  map _id (save_upvotes doc db) = map _id db.
Proof.
  unfold save_upvotes. rewrite map_map. apply map_ext.
  intros i. destruct (_id i =? _id doc)%Z; reflexivity.
Qed.

Lemma matchedIncident_In (lat0 lng0 : R) (l : list Incident) (m : Incident) :
  matchedIncident lat0 lng0 l = Some m -> In m l.
Proof.
  intros H. apply matchedIncident_Some in H.
  destruct H as (pre & post & -> & _). apply in_or_app. right. left. reflexivity.
Qed.

Lemma unique_ids_eq (db : list Incident) (a b : Incident) :
  unique_ids db -> In a db -> In b db -> _id a = _id b -> a = b.
Proof.
  unfold unique_ids. induction db as [| x db IH]; simpl; [contradiction |].
  intros Hnd Ha Hb Hid. inversion Hnd as [| ? ? Hx Hrest]; subst.
  destruct Ha as [-> | Ha], Hb as [-> | Hb].
  - reflexivity.
  - exfalso. apply Hx. rewrite Hid. apply in_map, Hb.
  - exfalso. apply Hx. rewrite <- Hid. apply in_map, Ha.
  - apply IH; assumption.
Qed.

(** X11.  A report never removes or re-identifies a stored record: the
    identities afterwards are the former ones in their order, followed by
    that of the new record when one is created; a former record keeps every
    field but possibly its upvote counter; and an error reply leaves the
    collection as it was. *)
Theorem report_keeps_records (rev : Revision) (env : ReportEnv)
    (db : list Incident) (req : ReportRequest) :
  let reply := fst (post_report rev env db req) in
  let db' := snd (post_report rev env db req) in
  map _id db' =
    map _id db ++
    match reply with
    | ReplyCreated _ _ created _ _ => [_id created]
    | _ => []
    end /\
  Forall2 same_but_upvotes db (firstn (List.length db) db') /\
  (forall code msg, reply = ReplyError code msg -> db' = db).
Proof.
  intros reply db'. subst reply db'.
  assert (Hrefl : forall l, Forall2 same_but_upvotes l l).
  { induction l; constructor; [| assumption].
    unfold same_but_upvotes. repeat split. }
  destruct (post_report_cases rev env db req)
    as [(c & msg & Hrun) | [(t & d & l & la & ln & m & _ & _ & Hrun)
                           | (t & d & l & la & ln & ai & dups & _ & _ & Hrun)]];
    rewrite Hrun; cbn [fst snd].
  - rewrite app_nil_r, firstn_all. repeat split; auto.
  - rewrite save_upvotes_ids, app_nil_r.
    rewrite <- (save_upvotes_length (set_upvotes (upvotes m + 1) m) db) at 1.
    rewrite firstn_all. split; [reflexivity | split; [| discriminate]].
    unfold save_upvotes. clear Hrun.
    induction db as [| r db IH]; simpl; constructor; [| exact IH].
    destruct (_id r =? _)%Z; [apply set_upvotes_same_but_upvotes |].
    unfold same_but_upvotes. repeat split.
  - rewrite map_app. split; [reflexivity | split; [| discriminate]].
    rewrite firstn_app, Nat.sub_diag, firstn_all. simpl. rewrite app_nil_r.
    apply Hrefl.
Qed.

(** X12.  If no stored upvote counter is below 1 before a report, none is
    below 1 after it; and when identities are unique no counter goes down. *)
Theorem report_keeps_upvotes (rev : Revision) (env : ReportEnv)
    (db : list Incident) (req : ReportRequest) :
  let db' := snd (post_report rev env db req) in
  (upvotes_positive db -> upvotes_positive db') /\
  (unique_ids db ->
   Forall2 (fun before after => (upvotes before <= upvotes after)%Z)
     db (firstn (List.length db) db')).
Proof.
  intros db'. subst db'.
  assert (Hrefl : forall l : list Incident,
            Forall2 (fun before after => (upvotes before <= upvotes after)%Z) l l).
  { induction l; constructor; [lia | assumption]. }
  destruct (post_report_cases rev env db req)
    as [(c & msg & Hrun) | [(t & d & l & la & ln & m & _ & Hm & Hrun)
                           | (t & d & l & la & ln & ai & dups & _ & _ & Hrun)]];
    rewrite Hrun; cbn [snd].
  - split; [auto |]. intros _. rewrite firstn_all. apply Hrefl.
  - apply matchedIncident_In, find_type_since_In in Hm.
    destruct Hm as (Hin & _).
    split.
    + unfold upvotes_positive. intros Hpos.
      assert (Hm1 : (1 <= upvotes m)%Z)
        by (rewrite Forall_forall in Hpos; apply Hpos, Hin).
      unfold save_upvotes. apply Forall_forall. intros r Hr.
      apply in_map_iff in Hr. destruct Hr as (r0 & <- & Hr0).
      rewrite Forall_forall in Hpos. specialize (Hpos r0 Hr0).
      destruct (_id r0 =? _)%Z; simpl; lia.
    + intros Huniq.
      rewrite <- (save_upvotes_length (set_upvotes (upvotes m + 1) m) db) at 1.
      rewrite firstn_all. unfold save_upvotes.
      assert (Hall : forall r, In r db ->
                (upvotes r <=
                 upvotes (if (_id r =? _id (set_upvotes (upvotes m + 1) m))%Z
                          then set_upvotes
                                 (upvotes (set_upvotes (upvotes m + 1) m)) r
                          else r))%Z).
      { intros r Hr. simpl.
        destruct (Z.eqb_spec (_id r) (_id m)) as [E | N]; [| lia].
        rewrite (unique_ids_eq db r m Huniq Hr Hin E). simpl. lia. }
      clear Hrun Hin. induction db as [| r db IH]; simpl; constructor.
      * apply Hall. left. reflexivity.
      * apply IH.
        -- unfold unique_ids in *. simpl in Huniq. inversion Huniq. assumption.
        -- intros r0 Hr0. apply Hall. right. exact Hr0.
  - split.
    + unfold upvotes_positive. intros Hpos. apply Forall_app. split; [exact Hpos |].
      constructor; [simpl; lia | constructor].
    + intros _. rewrite firstn_app, Nat.sub_diag, firstn_all. simpl.
      rewrite app_nil_r. apply Hrefl.
Qed.

Lemma report_keeps_upvotes_witness :
  upvotes_positive [sample_incident 1 "Fire" "Reported" 80 1000000] /\
  upvotes_positive
    (snd (post_report Extended (sample_env OracleThrows)
            [sample_incident 1 "Fire" "Reported" 80 1000000]
            (sample_request "Fire"))).
Proof.
  assert (Hpos : upvotes_positive [sample_incident 1 "Fire" "Reported" 80 1000000]).
  { constructor; [simpl; lia | constructor]. }
  split; [exact Hpos |].
  apply (report_keeps_upvotes Extended (sample_env OracleThrows)
           [sample_incident 1 "Fire" "Reported" 80 1000000]
           (sample_request "Fire")).
  exact Hpos.
Defined.

Lemma post_report_ids (rev : Revision) (env : ReportEnv)
    (db : list Incident) (req : ReportRequest) :
  map _id (snd (post_report rev env db req)) = map _id db \/
  map _id (snd (post_report rev env db req)) = map _id db ++ [env_new_id env].
Proof.
  destruct (post_report_cases rev env db req)
    as [(c & msg & Hrun) | [(t & d & l & la & ln & m & _ & _ & Hrun)
                           | (t & d & l & la & ln & ai & dups & _ & _ & Hrun)]];
    rewrite Hrun; cbn [snd].
  - left. reflexivity.
  - left. apply save_upvotes_ids.
  - right. rewrite map_app. reflexivity.
Qed.

(** X13.  Unique identities stay unique through a report, provided the
    identity the store assigns to a new record is not in use. *)
Theorem report_keeps_ids_unique (rev : Revision) (env : ReportEnv)
    (db : list Incident) (req : ReportRequest) :
  unique_ids db ->
  ~ In (env_new_id env) (map _id db) ->
  unique_ids (snd (post_report rev env db req)).
Proof.
  unfold unique_ids. intros Hnd Hfresh.
  destruct (post_report_ids rev env db req) as [E | E]; rewrite E.
  - exact Hnd.
  - apply (Permutation_NoDup (l := env_new_id env :: map _id db)).
    + apply Permutation_cons_append.
    + constructor; assumption.
Qed.

Lemma report_keeps_ids_unique_witness :
  unique_ids [sample_incident 1 "Fire" "Reported" 150 1000000] /\
  ~ In (env_new_id (sample_env OracleThrows))
       (map _id [sample_incident 1 "Fire" "Reported" 150 1000000]) /\
  unique_ids
    (snd (post_report Extended (sample_env OracleThrows)
            [sample_incident 1 "Fire" "Reported" 150 1000000]
            (sample_request "Fire"))).
Proof.
  assert (Hu : unique_ids [sample_incident 1 "Fire" "Reported" 150 1000000]).
  { unfold unique_ids. simpl. constructor; [intros [] | constructor]. }
  assert (Hf : ~ In (env_new_id (sample_env OracleThrows))
                    (map _id [sample_incident 1 "Fire" "Reported" 150 1000000])).
  { simpl. intros [H | []]. discriminate H. }
  split; [exact Hu | split; [exact Hf |]].
  apply (report_keeps_ids_unique Extended (sample_env OracleThrows)
           [sample_incident 1 "Fire" "Reported" 150 1000000]
           (sample_request "Fire") Hu Hf).
Defined.

Lemma matchedIncident_None (lat0 lng0 : R) (l : list Incident) :
  matchedIncident lat0 lng0 l = None ->
  Forall (fun c => 100 < meters_to lat0 lng0 c) l.
Proof.
  unfold meters_to. induction l as [| c l IH]; simpl; [constructor |].
  destruct (JsMath.leb _ 100) eqn:E; [discriminate |].
  intros H. constructor; [apply leb_false_iff; exact E | apply IH, H].
Qed.

(** X14.  If every record lies more than 100 m from each earlier record of
    its category that was at most 30 minutes older, the same holds after a
    report: a record is only created away from the recent records of its
    category. *)
Theorem report_keeps_separation (rev : Revision) (env : ReportEnv)
    (db : list Incident) (req : ReportRequest) :
  tight_separated db ->
  tight_separated (snd (post_report rev env db req)).
Proof.
  intros Hsep.
  destruct (post_report_cases rev env db req)
    as [(c & msg & Hrun) | [(t & d & l & la & ln & m & _ & _ & Hrun)
                           | (t & d & l & la & ln & ai & dups & _ & Hnone & Hrun)]];
    rewrite Hrun; cbn [snd].
  - exact Hsep.
  - unfold tight_separated, save_upvotes. intros j k a b Hjk Ha Hb Hty Hts.
    rewrite nth_error_map in Ha, Hb.
    destruct (nth_error db j) as [a0 |] eqn:Ea; [| discriminate].
    destruct (nth_error db k) as [b0 |] eqn:Eb; [| discriminate].
    simpl in Ha, Hb. injection Ha as Ha'. injection Hb as Hb'.
    assert (Hfa : type a = type a0 /\ timestamp a = timestamp a0 /\
                  location a = location a0).
    { rewrite <- Ha'. destruct (_id a0 =? _)%Z; simpl; auto. }
    assert (Hfb : type b = type b0 /\ timestamp b = timestamp b0 /\
                  location b = location b0).
    { rewrite <- Hb'. destruct (_id b0 =? _)%Z; simpl; auto. }
    destruct Hfa as (Hta & Htsa & Hla). destruct Hfb as (Htb & Htsb & Hlb).
    unfold meters_to. rewrite Hla, Hlb.
    apply (Hsep j k a0 b0 Hjk Ea Eb); [congruence | lia].
  - unfold tight_separated. intros j k a b Hjk Ha Hb Hty Hts.
    assert (Hk : (k < List.length db \/ k = List.length db)%nat).
    { assert (H : (k < List.length (db ++
                     [new_incident env req t d l la ln ai]))%nat)
        by (apply nth_error_Some; rewrite Hb; discriminate).
      rewrite length_app in H. simpl in H. lia. }
    rewrite nth_error_app1 in Ha by lia.
    destruct Hk as [Hk | Hk].
    + rewrite nth_error_app1 in Hb by exact Hk.
      apply (Hsep j k a b Hjk Ha Hb Hty Hts).
    + rewrite nth_error_app2, Hk, Nat.sub_diag in Hb by lia.
      simpl in Hb. injection Hb as Hb'.
      apply matchedIncident_None in Hnone. rewrite Forall_forall in Hnone.
      rewrite <- Hb' in Hty, Hts |- *. simpl in Hty, Hts |- *.
      apply Hnone. apply find_type_since_In.
      split; [apply (nth_error_In _ _ Ha) | split; [exact Hty | exact Hts]].
Qed.

Lemma report_keeps_separation_witness :
  tight_separated [sample_incident 1 "Fire" "Reported" 150 1000000] /\
  tight_separated
    (snd (post_report Extended (sample_env OracleThrows)
            [sample_incident 1 "Fire" "Reported" 150 1000000]
            (sample_request "Fire"))).
Proof.
  assert (Hs : tight_separated [sample_incident 1 "Fire" "Reported" 150 1000000]).
  { intros j k a b Hjk Ha Hb.
    assert (Hk : (k < List.length
                       [sample_incident 1 "Fire" "Reported" 150 1000000])%nat)
      by (apply nth_error_Some; rewrite Hb; discriminate).
    simpl in Hk. lia. }
  split; [exact Hs |].
  apply (report_keeps_separation Extended (sample_env OracleThrows)
           [sample_incident 1 "Fire" "Reported" 150 1000000]
           (sample_request "Fire") Hs).
Defined.

(** * The handlers addressed by an identity *)

Lemma findById_Some (id : Z) (db : list Incident) (i : Incident) :
  findById id db = Some i ->
  exists pre post,
    db = pre ++ i :: post /\ Forall (fun r => _id r <> id) pre /\ _id i = id.
Proof.
  unfold findById. induction db as [| x db IH]; simpl; [discriminate |].
  destruct (Z.eqb_spec (_id x) id) as [E | N].
  - intros H. injection H as <-. exists [], db. repeat split; auto.
  - intros H. destruct (IH H) as (pre & post & -> & Hpre & Hid).
    exists (x :: pre), post. repeat split; auto.
Qed.

Lemma findById_None (id : Z) (db : list Incident) :
  findById id db = None <-> ~ In id (map _id db).
Proof.
  unfold findById. induction db as [| x db IH]; simpl; [tauto |].
  destruct (Z.eqb_spec (_id x) id) as [E | N].
  - split; [discriminate | intros H; exfalso; apply H; left; exact E].
  - rewrite IH. tauto.
Qed.

Lemma findByIdAndUpdate_missing (id : Z) (f : Incident -> Incident)
    (db : list Incident) :
  findById id db = None -> findByIdAndUpdate id f db = (None, db).
Proof.
  unfold findById. induction db as [| x db IH]; simpl; [reflexivity |].
  destruct (_id x =? id)%Z; [discriminate |].
  intros H. rewrite (IH H). reflexivity.
Qed.

Lemma findByIdAndUpdate_found (id : Z) (f : Incident -> Incident)
    (pre post : list Incident) (i : Incident) :
  Forall (fun r => _id r <> id) pre -> _id i = id ->
  findByIdAndUpdate id f (pre ++ i :: post) = (Some (f i), pre ++ f i :: post).
Proof.
  intros Hpre Hid. induction Hpre as [| x pre Hx _ IH]; simpl.
  - apply Z.eqb_eq in Hid. rewrite Hid. reflexivity.
  - apply Z.eqb_neq in Hx. rewrite Hx, IH. reflexivity.
Qed.

Lemma findByIdAndDelete_missing (id : Z) (db : list Incident) :
  findById id db = None -> findByIdAndDelete id db = (None, db).
Proof.
  unfold findById. induction db as [| x db IH]; simpl; [reflexivity |].
  destruct (_id x =? id)%Z; [discriminate |].
  intros H. rewrite (IH H). reflexivity.
Qed.

Lemma findByIdAndDelete_found (id : Z) (pre post : list Incident) (i : Incident) :
  Forall (fun r => _id r <> id) pre -> _id i = id ->
  findByIdAndDelete id (pre ++ i :: post) = (Some i, pre ++ post).
Proof.
  intros Hpre Hid. induction Hpre as [| x pre Hx _ IH]; simpl.
  - apply Z.eqb_eq in Hid. rewrite Hid. reflexivity.
  - apply Z.eqb_neq in Hx. rewrite Hx, IH. reflexivity.
Qed.

Lemma save_upvotes_no_match (doc : Incident) (db : list Incident) :
  ~ In (_id doc) (map _id db) -> save_upvotes doc db = db.
Proof.
  unfold save_upvotes. induction db as [| x db IH]; simpl; [reflexivity |].
  intros H. destruct (Z.eqb_spec (_id x) (_id doc)) as [E | N].
  - exfalso. apply H. left. exact E.
  - rewrite IH; [reflexivity | tauto].
Qed.

Lemma merge_is_upvote (db : list Incident) (m : Incident) :
  unique_ids db -> In m db ->
  findByIdAndUpdate (_id m) (fun i => set_upvotes (upvotes i + 1) i) db =
  (Some (set_upvotes (upvotes m + 1) m),
   save_upvotes (set_upvotes (upvotes m + 1) m) db).
Proof.
  unfold unique_ids. induction db as [| x db IH]; simpl; [contradiction |].
  intros Hnd Hin. inversion Hnd as [| ? ? Hx Hrest]; subst.
  destruct (Z.eqb_spec (_id x) (_id m)) as [E | N].
  - assert (Hxm : x = m).
    { destruct Hin as [H | H]; [exact H |].
      exfalso. apply Hx. rewrite E. apply in_map, H. }
    subst x. rewrite save_upvotes_no_match; [reflexivity | exact Hx].
  - destruct Hin as [H | H]; [subst; contradiction |].
    rewrite (IH Hrest H). reflexivity.
Qed.

(** X15.  When identities are unique, a report that is merged does to the
    collection exactly what [PATCH /:id/upvote] does for the matched record,
    and both replies carry the same counter. *)
Theorem merged_report_is_an_upvote (rev : Revision) (env : ReportEnv)
    (db db' : list Incident) (req : ReportRequest)
    (code : Z) (outcome : string) (merged : Incident) :
  unique_ids db ->
  post_report rev env db req = (ReplyMerged code outcome merged, db') ->
  patch_upvote (_id merged) db = (Success 200 (upvotes merged), db').
Proof.
  intros Huniq Hrun.
  destruct (post_report_cases rev env db req)
    as [(c & msg & H) | [(t & d & l & la & ln & m & _ & Hm & H)
                        | (t & d & l & la & ln & ai & dups & _ & _ & H)]];
    rewrite H in Hrun; try discriminate.
  injection Hrun as _ _ <- <-.
  apply matchedIncident_In, find_type_since_In in Hm. destruct Hm as (Hin & _).
  unfold patch_upvote. cbn [set_upvotes _id].
  rewrite (merge_is_upvote db m Huniq Hin). reflexivity.
Qed.

Lemma merged_report_is_an_upvote_witness :
  unique_ids [sample_incident 1 "Fire" "Reported" 80 1000000] /\
  patch_upvote 1 [sample_incident 1 "Fire" "Reported" 80 1000000] =
  (Success 200 2%Z,
   [set_upvotes 2 (sample_incident 1 "Fire" "Reported" 80 1000000)]).
Proof.
  assert (Hu : unique_ids [sample_incident 1 "Fire" "Reported" 80 1000000]).
  { unfold unique_ids. simpl. constructor; [intros [] | constructor]. }
  split; [exact Hu |].
  apply (merged_report_is_an_upvote Extended (sample_env OracleThrows)
           [sample_incident 1 "Fire" "Reported" 80 1000000]
           [set_upvotes 2 (sample_incident 1 "Fire" "Reported" 80 1000000)]
           (sample_request "Fire") 200 "merged"
           (set_upvotes 2 (sample_incident 1 "Fire" "Reported" 80 1000000)) Hu).
  apply (tight_tier_merge_80m Extended OracleThrows).
Defined.

(** X16.  When no record has the identity, the upvote, verify, status,
    delete and re-analysis handlers all answer 404 and leave the collection
    as it was, and so does the lookup of one incident. *)
Theorem unknown_id_is_404 (id : Z) (db : list Incident) (now : Z)
    (body : StatusBody)
    (analyze : string -> string -> option string -> AiAnalysis) :
  ~ In id (map _id db) ->
  (match sb_status body with
   | Some st => st = ""%string \/ In st validStatuses
   | None => True
   end) ->
  patch_upvote id db = (Failure 404 "Incident not found", db) /\
  patch_verify id db = (Failure 404 "Incident not found", db) /\
  patch_status id body db = (Failure 404 "Incident not found", db) /\
  delete_incident id db = (Failure 404 "Incident not found", db) /\
  post_analyze now analyze id db = (Failure 404 "Incident not found", db) /\
  get_incident now id db = Failure 404 "Incident not found".
Proof.
  intros Hid Hbody. apply findById_None in Hid.
  split; [| split; [| split; [| split; [| split]]]].
  - unfold patch_upvote.
    rewrite (findByIdAndUpdate_missing _ _ _ Hid). reflexivity.
  - unfold patch_verify.
    rewrite (findByIdAndUpdate_missing _ _ _ Hid). reflexivity.
  - unfold patch_status.
    destruct (sb_status body) as [st |];
      [| rewrite (findByIdAndUpdate_missing _ _ _ Hid); reflexivity].
    assert (Hok : truthy_string (Some st)
                  && negb (existsb (String.eqb st) validStatuses) = false).
    { destruct Hbody as [-> | Hin]; [reflexivity |].
      apply existsb_eqb_In in Hin. rewrite Hin. apply andb_false_r. }
    rewrite Hok, (findByIdAndUpdate_missing _ _ _ Hid). reflexivity.
  - unfold delete_incident.
    rewrite (findByIdAndDelete_missing _ _ Hid). reflexivity.
  - unfold post_analyze. rewrite Hid. reflexivity.
  - unfold get_incident. rewrite Hid. reflexivity.
Qed.

Lemma unknown_id_is_404_witness :
  ~ In 5%Z (map _id [sample_incident 1 "Fire" "Reported" 80 1000000]) /\
  delete_incident 5 [sample_incident 1 "Fire" "Reported" 80 1000000] =
  (Failure 404 "Incident not found",
   [sample_incident 1 "Fire" "Reported" 80 1000000]).
Proof.
  assert (Hid : ~ In 5%Z (map _id [sample_incident 1 "Fire" "Reported" 80 1000000])).
  { simpl. intros [H | []]. discriminate H. }
  split; [exact Hid |].
  apply (unknown_id_is_404 5 [sample_incident 1 "Fire" "Reported" 80 1000000]
           0 (mkStatusBody None None None)
           (fun _ _ _ => mkAiAnalysis "High" None None) Hid I).
Defined.

Lemma statusAdjustment_nonpos (st : string) : statusAdjustment st <= 0.
Proof.
  unfold statusAdjustment.
  destruct (String.eqb st "In Progress"); [lra |].
  destruct (String.eqb st "Resolved"); lra.
Qed.

Lemma verified_priority (now : Z) (i : Incident) (r : option LatLng) :
  (calculatePriority now i r
   <= calculatePriority now (set_status "Verified" (set_verified true i)) r)%Z.
Proof.
  rewrite !calculatePriority_formula. apply clamp_le, round_le.
  unfold prioritySum, ageMinutes, distancePenalty, verificationBonus.
  cbn [set_status set_verified severity timestamp upvotes location verified
       status type].
  pose proof (statusAdjustment_nonpos (status i)) as Hs.
  change (statusAdjustment "Verified") with 0.
  destruct (verified i); lra.
Qed.

(** X17.  Verifying an incident marks it verified with status Verified,
    changes no other record, and never lowers its score, whatever the clock
    and the responder position. *)
Theorem verify_never_lowers_priority (id : Z) (db : list Incident)
    (i : Incident) :
  findById id db = Some i ->
  exists pre post : list Incident,
    db = pre ++ i :: post /\
    patch_verify id db =
      (Success 200 (set_status "Verified" (set_verified true i)),
       pre ++ set_status "Verified" (set_verified true i) :: post) /\
    forall (now : Z) (r : option LatLng),
      (calculatePriority now i r
       <= calculatePriority now
            (set_status "Verified" (set_verified true i)) r)%Z.
Proof.
  intros Hfind. apply findById_Some in Hfind.
  destruct Hfind as (pre & post & -> & Hpre & Hid).
  exists pre, post. split; [reflexivity | split].
  - unfold patch_verify.
    rewrite (findByIdAndUpdate_found _ _ _ _ _ Hpre Hid). reflexivity.
  - intros now r. apply verified_priority.
Qed.

Lemma verify_never_lowers_priority_witness :
  findById 1 [sample_incident 1 "Fire" "In Progress" 80 1000000] =
    Some (sample_incident 1 "Fire" "In Progress" 80 1000000) /\
  patch_verify 1 [sample_incident 1 "Fire" "In Progress" 80 1000000] =
  (Success 200
     (set_status "Verified"
        (set_verified true (sample_incident 1 "Fire" "In Progress" 80 1000000))),
   [set_status "Verified"
      (set_verified true (sample_incident 1 "Fire" "In Progress" 80 1000000))]).
Proof.
  split; [reflexivity |].
  destruct (verify_never_lowers_priority 1
              [sample_incident 1 "Fire" "In Progress" 80 1000000]
              (sample_incident 1 "Fire" "In Progress" 80 1000000) eq_refl)
    as (pre & post & _ & Hrun & _).
  reflexivity.
Defined.

(** X18.  A non-empty status outside Reported, Verified, In Progress,
    Dispatched, Resolved and Closed is refused with 400 and nothing is
    written; Pending, which the schema of the collection allows, is such a
    status. *)
Theorem status_rejects_unknown (id : Z) (body : StatusBody)
    (db : list Incident) (st : string) :
  sb_status body = Some st -> st <> ""%string -> ~ In st validStatuses ->
  patch_status id body db =
    (Failure 400
       "Invalid status. Must be one of: Reported, Verified, In Progress, Dispatched, Resolved, Closed",
     db) /\
  ~ In "Pending"%string validStatuses.
Proof.
  intros Hst Nst Hin. split.
  - unfold patch_status. rewrite Hst.
    assert (E1 : truthy_string (Some st) = true)
      by (apply truthy_string_true; eauto).
    assert (E2 : existsb (String.eqb st) validStatuses = false).
    { destruct (existsb (String.eqb st) validStatuses) eqn:E; [| reflexivity].
      apply existsb_eqb_In in E. contradiction. }
    rewrite E1, E2. reflexivity.
  - unfold validStatuses. simpl.
    intros [H | [H | [H | [H | [H | [H | []]]]]]]; discriminate H.
Qed.

Lemma status_rejects_unknown_witness :
  sb_status (mkStatusBody (Some "Pending"%string) None None) =
    Some "Pending"%string /\
  fst (patch_status 1 (mkStatusBody (Some "Pending"%string) None None)
         [sample_incident 1 "Fire" "Reported" 80 1000000]) =
  Failure 400
    "Invalid status. Must be one of: Reported, Verified, In Progress, Dispatched, Resolved, Closed".
Proof.
  split; [reflexivity |].
  destruct (status_rejects_unknown 1
              (mkStatusBody (Some "Pending"%string) None None)
              [sample_incident 1 "Fire" "Reported" 80 1000000] "Pending"
              eq_refl) as [Hrun _].
  - discriminate.
  - simpl. intros [H | [H | [H | [H | [H | [H | []]]]]]]; discriminate H.
  - rewrite Hrun. reflexivity.
Defined.

Lemma priority_queue_members (now : Z) (db : list Incident) (q : QueueQuery)
    (e : QueueEntry) :
  In e (fst (priority_queue now db q)) ->
  In (ranked_incident (entry e)) (find_active db).
Proof.
  unfold priority_queue. cbn [fst]. intros He.
  apply in_map_iff in He. destruct He as (r & <- & Hr). simpl.
  assert (Hin : In r (sortIncidentsByPriority now (find_active db)
                        match pq_lat q with
                        | Some la =>
                            match pq_lng q with
                            | Some ln => Some (mkLatLng la ln)
                            | None => None
                            end
                        | None => None
                        end)).
  { unfold slice0 in Hr. destruct (queue_limit q) as [| z]; [contradiction |].
    destruct (z <? 0)%Z; apply In_firstn in Hr; exact Hr. }
  apply sortIncidentsByPriority_In in Hin. tauto.
Qed.

(** X19.  When identities are unique, setting the status of an incident to
    Resolved or Closed succeeds and takes the incident out of every later
    priority queue, whatever the clock, the responder position and the
    limit. *)
Theorem terminal_status_leaves_queue (id : Z) (body : StatusBody)
    (db : list Incident) (i : Incident) (st : string) :
  unique_ids db ->
  findById id db = Some i ->
  sb_status body = Some st ->
  st = "Resolved"%string \/ st = "Closed"%string ->
  exists db' : list Incident,
    patch_status id body db = (Success 200 (set_status st i), db') /\
    forall (now : Z) (q : QueueQuery),
      Forall (fun e => _id (ranked_incident (entry e)) <> id)
        (fst (priority_queue now db' q)).
Proof.
  intros Huniq Hfind Hst Hterm. apply findById_Some in Hfind.
  destruct Hfind as (pre & post & -> & Hpre & Hid).
  exists (pre ++ set_status st i :: post). split.
  - unfold patch_status. rewrite Hst.
    assert (E1 : truthy_string (Some st) = true)
      by (destruct Hterm as [-> | ->]; reflexivity).
    assert (E2 : existsb (String.eqb st) validStatuses = true)
      by (destruct Hterm as [-> | ->]; reflexivity).
    rewrite E1, E2. cbn [negb andb].
    rewrite (findByIdAndUpdate_found _ _ _ _ _ Hpre Hid). reflexivity.
  - intros now q. apply Forall_forall. intros e He Heq.
    apply priority_queue_members, find_active_In in He.
    destruct He as (Hin & Hres & Hclo).
    set (x := ranked_incident (entry e)) in *.
    assert (Hother : In x pre \/ In x post \/ x = set_status st i).
    { apply in_app_or in Hin. destruct Hin as [H | [H | H]]; auto. }
    unfold unique_ids in Huniq. rewrite map_app in Huniq. simpl in Huniq.
    destruct Hother as [H | [H | H]].
    + rewrite Forall_forall in Hpre. apply (Hpre x H Heq).
    + apply NoDup_remove_2 in Huniq. apply Huniq.
      apply in_or_app. right. rewrite Hid, <- Heq. apply in_map, H.
    + rewrite H in Hres, Hclo. simpl in Hres, Hclo.
      destruct Hterm as [-> | ->]; contradiction.
Qed.

Lemma terminal_status_leaves_queue_witness :
  unique_ids [sample_incident 1 "Fire" "Reported" 80 1000000] /\
  Forall (fun e => _id (ranked_incident (entry e)) <> 1%Z)
    (fst (priority_queue 1600000
            (snd (patch_status 1
                    (mkStatusBody (Some "Resolved"%string) None None)
                    [sample_incident 1 "Fire" "Reported" 80 1000000]))
            (mkQueueQuery None None None))).
Proof.
  assert (Hu : unique_ids [sample_incident 1 "Fire" "Reported" 80 1000000]).
  { unfold unique_ids. simpl. constructor; [intros [] | constructor]. }
  split; [exact Hu |].
  destruct (terminal_status_leaves_queue 1
              (mkStatusBody (Some "Resolved"%string) None None)
              [sample_incident 1 "Fire" "Reported" 80 1000000]
              (sample_incident 1 "Fire" "Reported" 80 1000000) "Resolved"
              Hu eq_refl eq_refl (or_introl eq_refl)) as (db' & Hrun & Hq).
  rewrite Hrun. apply Hq.
Defined.

Lemma findById_app_new (id : Z) (db : list Incident) (i : Incident) :
  ~ In id (map _id db) -> _id i = id -> findById id (db ++ [i]) = Some i.
Proof.
  unfold findById. intros Hfresh Hid.
  induction db as [| x db IH]; simpl.
  - apply Z.eqb_eq in Hid. rewrite Hid. reflexivity.
  - simpl in Hfresh. destruct (Z.eqb_spec (_id x) id) as [E | N]; [tauto |].
    apply IH. tauto.
Qed.

(** X20.  A record created by a report under an identity that was not in use
    is what [GET /:id] returns for that identity afterwards, with the score
    and level of the moment of the lookup. *)
Theorem created_report_can_be_fetched (rev : Revision) (env : ReportEnv)
    (db db' : list Incident) (req : ReportRequest) (code : Z)
    (outcome : string) (created : Incident) (ai : AiAnalysis)
    (dups : option (list AiDuplicate)) (later : Z) :
  ~ In (env_new_id env) (map _id db) ->
  post_report rev env db req = (ReplyCreated code outcome created ai dups, db') ->
  get_incident later (_id created) db' =
  Success 200
    (mkQueueEntry
       (mkRanked created (calculatePriority later created None))
       (getPriorityLevel (calculatePriority later created None))).
Proof.
  intros Hfresh Hrun.
  destruct (post_report_cases rev env db req)
    as [(c & msg & H) | [(t & d & l & la & ln & m & _ & _ & H)
                        | (t & d & l & la & ln & ai0 & dups0 & _ & _ & H)]];
    rewrite H in Hrun; try discriminate.
  injection Hrun as _ _ <- _ _ <-.
  unfold get_incident.
  change (_id (new_incident env req t d l la ln ai0)) with (env_new_id env).
  rewrite (findById_app_new (env_new_id env) db
             (new_incident env req t d l la ln ai0) Hfresh eq_refl).
  reflexivity.
Qed.

Lemma created_report_can_be_fetched_witness :
  ~ In (env_new_id (sample_env OracleThrows))
       (map _id [sample_incident 1 "Fire" "Reported" 150 1000000]) /\
  exists created : Incident,
    _id created = 99%Z /\
    get_incident 1700000 99
      (snd (post_report Extended (sample_env OracleThrows)
              [sample_incident 1 "Fire" "Reported" 150 1000000]
              (sample_request "Fire"))) =
    Success 200
      (mkQueueEntry
         (mkRanked created (calculatePriority 1700000 created None))
         (getPriorityLevel (calculatePriority 1700000 created None))).
Proof.
  assert (Hf : ~ In (env_new_id (sample_env OracleThrows))
                    (map _id [sample_incident 1 "Fire" "Reported" 150 1000000])).
  { simpl. intros [H | []]. discriminate H. }
  split; [exact Hf |].
  destruct (tight_tier_create_150m Extended OracleThrows)
    as (created & ai & dups & Hrun & _ & _ & _ & Hid).
  exists created. split; [exact Hid |].
  rewrite Hrun. cbn [snd]. rewrite <- Hid.
  apply (created_report_can_be_fetched Extended (sample_env OracleThrows)
           [sample_incident 1 "Fire" "Reported" 150 1000000] _
           (sample_request "Fire") 201 "created" created ai dups 1700000 Hf Hrun).
Defined.

Lemma findById_app (id : Z) (l1 l2 : list Incident) :
  findById id (l1 ++ l2) =
  match findById id l1 with
  | Some x => Some x
  | None => findById id l2
  end.
Proof.
  unfold findById. induction l1 as [| x l1 IH]; simpl; [reflexivity |].
  destruct (_id x =? id)%Z; [reflexivity | exact IH].
Qed.

(** X21.  When identities are unique, deleting an existing incident removes
    that record and no other: the identity is unknown afterwards, and every
    other identity is looked up as before. *)
Theorem deleted_incident_is_gone (id : Z) (db : list Incident) (i : Incident) :
  unique_ids db ->
  findById id db = Some i ->
  exists pre post : list Incident,
    db = pre ++ i :: post /\
    delete_incident id db =
      (Success 200 "Incident deleted successfully"%string, pre ++ post) /\
    (forall now : Z,
        get_incident now id (pre ++ post) = Failure 404 "Incident not found") /\
    (forall other : Z,
        other <> id -> findById other (pre ++ post) = findById other db).
Proof.
  intros Huniq Hfind. apply findById_Some in Hfind.
  destruct Hfind as (pre & post & -> & Hpre & Hid).
  exists pre, post. split; [reflexivity | split; [| split]].
  - unfold delete_incident.
    rewrite (findByIdAndDelete_found _ _ _ _ Hpre Hid). reflexivity.
  - intros now. unfold get_incident.
    assert (Hnone : findById id (pre ++ post) = None).
    { apply findById_None. rewrite map_app. intros Hin.
      unfold unique_ids in Huniq. rewrite map_app in Huniq. simpl in Huniq.
      apply NoDup_remove_2 in Huniq. apply Huniq. rewrite Hid. exact Hin. }
    rewrite Hnone. reflexivity.
  - intros other Hother. rewrite !findById_app.
    destruct (findById other pre); [reflexivity |].
    unfold findById. simpl.
    destruct (Z.eqb_spec (_id i) other) as [E | N]; [| reflexivity].
    exfalso. apply Hother. rewrite <- E. exact Hid.
Qed.

Lemma deleted_incident_is_gone_witness :
  unique_ids [sample_incident 1 "Fire" "Reported" 80 1000000;
              sample_incident 2 "Crime" "Reported" 80 1000000] /\
  delete_incident 1 [sample_incident 1 "Fire" "Reported" 80 1000000;
                     sample_incident 2 "Crime" "Reported" 80 1000000] =
  (Success 200 "Incident deleted successfully"%string,
   [sample_incident 2 "Crime" "Reported" 80 1000000]).
Proof.
  assert (Hu : unique_ids [sample_incident 1 "Fire" "Reported" 80 1000000;
                           sample_incident 2 "Crime" "Reported" 80 1000000]).
  { unfold unique_ids. simpl.
    constructor; [intros [H | []]; discriminate H |].
    constructor; [intros [] | constructor]. }
  split; [exact Hu |].
  destruct (deleted_incident_is_gone 1 _
              (sample_incident 1 "Fire" "Reported" 80 1000000) Hu eq_refl)
    as (pre & post & _ & _ & _ & _).
  reflexivity.
Defined.

(** * The analysis of a report *)

Lemma valid_severity_text (v : SeverityValue) :
  valid_severity v -> In (severity_text v) validSeverities.
Proof. intros (s & -> & H). exact H. Qed.

Lemma normalize_severity_valid (a : ParsedAnalysis) :
  valid_severity (an_severity (normalize_analysis a)).
Proof.
  unfold normalize_analysis. cbn [an_severity]. eexists. split; [reflexivity |].
  destruct (parsed_severity a) as [s |]; [| simpl; auto].
  destruct (existsb (String.eqb s) validSeverities) eqn:E.
  - apply existsb_eqb_In. exact E.
  - simpl. auto.
Qed.

Lemma image_check_severity_valid (a : Analysis) :
  valid_severity (an_severity a) ->
  valid_severity (an_severity (image_check a)).
Proof.
  intros H. unfold image_check.
  destruct (an_imageAnalysis a) as [img |]; [| exact H].
  destruct (negb (isEmergency img) || js_lt (img_confidence img) 30);
    [| exact H].
  destruct (severity_is (an_severity a) "Critical"); [| exact H].
  exists "Medium"%string. simpl. auto.
Qed.

Lemma image_check_image (a : Analysis) :
  an_imageAnalysis (image_check a) = an_imageAnalysis a.
Proof.
  unfold image_check. destruct (an_imageAnalysis a) as [img |] eqn:E;
    [| exact E].
  destruct (negb (isEmergency img) || js_lt (img_confidence img) 30);
    [| exact E].
  destruct (severity_is (an_severity a) "Critical"); [reflexivity | exact E].
Qed.

Lemma image_check_not_critical (a : Analysis) (img : ImageAnalysis) :
  an_imageAnalysis a = Some img ->
  isEmergency img = false \/ img_confidence img < 30 ->
  an_severity (image_check a) <> SeverityString "Critical".
Proof.
  intros Himg Hbad. unfold image_check. rewrite Himg.
  assert (Hc : negb (isEmergency img) || js_lt (img_confidence img) 30 = true).
  { destruct Hbad as [H | H]; [rewrite H; reflexivity |].
    unfold js_lt. destruct (Rlt_dec (img_confidence img) 30);
      [apply orb_true_r | contradiction]. }
  rewrite Hc.
  destruct (severity_is (an_severity a) "Critical") eqn:E;
    [simpl; discriminate |].
  intros Hs. rewrite Hs in E. discriminate E.
Qed.

(** The names of [Object.prototype] are no keys of the table, and the
    accepted categories are no names of [Object.prototype]. *)
Lemma inherited_name_not_own (type0 : string) :
  In type0 object_prototype_names ->
  lookup_string typeSeverityMap type0 = InheritedProperty type0.
Proof.
  intros H. unfold object_prototype_names in H. simpl in H.
  repeat (destruct H as [<- | H]; [reflexivity |]). contradiction.
Qed.

Lemma validTypes_not_inherited (rev : Revision) (type0 : string) :
  In type0 (validTypes rev) -> ~ In type0 object_prototype_names.
Proof.
  intros H Hp. destruct rev; simpl in H;
    repeat (destruct H as [<- | H];
            [simpl in Hp; repeat (destruct Hp as [Hp | Hp];
                                  [discriminate Hp |]); exact Hp |]);
    contradiction.
Qed.

Lemma fallback_severity_valid (type0 : string) :
  ~ In type0 object_prototype_names ->
  valid_severity
    (match lookup_string typeSeverityMap type0 with
     | OwnProperty s =>
         if String.eqb s "" then SeverityString "Medium" else SeverityString s
     | InheritedProperty name => SeverityInherited name
     | NoProperty => SeverityString "Medium"
     end).
Proof.
  intros Hn.
  assert (E : existsb (String.eqb type0) object_prototype_names = false).
  { destruct (existsb (String.eqb type0) object_prototype_names) eqn:E;
      [| reflexivity].
    apply existsb_eqb_In in E. contradiction. }
  unfold lookup_string. rewrite E. unfold typeSeverityMap, own_value.
  repeat match goal with
         | |- context [String.eqb ?k type0] => destruct (String.eqb k type0)
         end; cbn [String.eqb]; eexists; (split; [reflexivity |]); simpl; auto.
Qed.

Lemma analyzeIncident_basic_valid (outcome : AnalysisOutcome) :
  valid_severity (an_severity (analyzeIncident_basic outcome)).
Proof.
  destruct outcome; try (exists "Medium"%string; simpl; auto; fail).
  apply normalize_severity_valid.
Qed.

Lemma analyzeIncident_extended_valid (lower : string -> string)
    (outcome : AnalysisOutcome) (type0 : string) :
  (exists a : ParsedAnalysis, outcome = AnalysisObject a) \/
  ~ In type0 object_prototype_names ->
  valid_severity (an_severity (analyzeIncident_extended lower outcome type0)).
Proof.
  intros H.
  destruct outcome as [| | | a];
    try (destruct H as [(a & Ha) | Hn]; [discriminate Ha |];
         apply (fallback_severity_valid _ Hn)).
  apply image_check_severity_valid, normalize_severity_valid.
Qed.

(** X22.  The earlier revision of [analyzeIncident] always returns one of
    the four severities.  The later revision does so whenever the answer of
    the language model parses, and also when it does not, provided that the
    reported type is no property name of [Object.prototype]; for such a name
    (the route [POST /analyze-text] passes the type on unchecked) the
    fallback severity is the inherited property and no string.  The later
    revision never returns Critical for an image that shows no emergency or
    shows one with confidence below 30. *)
Theorem analyzeIncident_severity (lower : string -> string)
    (outcome : AnalysisOutcome) (type0 : string) :
  valid_severity (an_severity (analyzeIncident_basic outcome)) /\
  ((exists a : ParsedAnalysis, outcome = AnalysisObject a) \/
   ~ In type0 object_prototype_names ->
   valid_severity
     (an_severity (analyzeIncident_extended lower outcome type0))) /\
  ((forall a : ParsedAnalysis, outcome <> AnalysisObject a) ->
   In type0 object_prototype_names ->
   an_severity (analyzeIncident_extended lower outcome type0) =
   SeverityInherited type0) /\
  (forall img : ImageAnalysis,
      an_imageAnalysis (analyzeIncident_extended lower outcome type0) = Some img ->
      isEmergency img = false \/ img_confidence img < 30 ->
      an_severity (analyzeIncident_extended lower outcome type0)
        <> SeverityString "Critical").
Proof.
  split; [apply analyzeIncident_basic_valid |].
  split; [apply analyzeIncident_extended_valid |].
  split.
  - intros Hno Hin.
    destruct outcome as [| | | a]; [| | | destruct (Hno a eq_refl)];
      cbn [analyzeIncident_extended an_severity];
      rewrite (inherited_name_not_own _ Hin); reflexivity.
  - intros img Himg Hbad.
    destruct outcome as [| | | a]; try discriminate Himg.
    cbn [analyzeIncident_extended] in *.
    rewrite image_check_image in Himg.
    apply (image_check_not_critical _ img Himg Hbad).
Qed.

Lemma analyzeIncident_severity_witness :
  (an_imageAnalysis
     (analyzeIncident_extended (fun s => s)
        (AnalysisObject
           (mkParsedAnalysis (Some "Critical"%string) None None None None None
              (Some (mkImageAnalysis false 80)))) "Fire") =
     Some (mkImageAnalysis false 80) /\
   an_severity
     (analyzeIncident_extended (fun s => s)
        (AnalysisObject
           (mkParsedAnalysis (Some "Critical"%string) None None None None None
              (Some (mkImageAnalysis false 80)))) "Fire")
     <> SeverityString "Critical") /\
  (~ In "Natural"%string object_prototype_names /\
   valid_severity
     (an_severity (analyzeIncident_extended (fun s => s) AnalysisThrows "Natural"))) /\
  (In "constructor"%string object_prototype_names /\
   an_severity
     (analyzeIncident_extended (fun s => s) AnalysisThrows "constructor") =
   SeverityInherited "constructor").
Proof.
  assert (Hnat : ~ In "Natural"%string object_prototype_names).
  { simpl. intros H.
    repeat (destruct H as [H | H]; [discriminate H |]). exact H. }
  assert (Hcon : In "constructor"%string object_prototype_names)
    by (left; reflexivity).
  split; [| split].
  - split; [reflexivity |].
    destruct (analyzeIncident_severity (fun s => s)
                (AnalysisObject
                   (mkParsedAnalysis (Some "Critical"%string) None None None
                      None None (Some (mkImageAnalysis false 80)))) "Fire")
      as (_ & _ & _ & Himg).
    apply (Himg (mkImageAnalysis false 80)).
    + reflexivity.
    + left. reflexivity.
  - split; [exact Hnat |].
    destruct (analyzeIncident_severity (fun s => s) AnalysisThrows "Natural")
      as (_ & Hvalid & _).
    apply Hvalid. right. exact Hnat.
  - split; [exact Hcon |].
    destruct (analyzeIncident_severity (fun s => s) AnalysisThrows "constructor")
      as (_ & _ & Hinh & _).
    apply Hinh; [discriminate | exact Hcon].
Defined.

Lemma reportSeverityBonus_range (sev : string) :
  10 <= or_else (lookup reportSeverityScores sev) 20 <= 40.
Proof.
  unfold reportSeverityScores, lookup.
  repeat match goal with
         | |- context [String.eqb ?k sev] => destruct (String.eqb k sev)
         end; simpl; try rewrite truthy_nonzero by lra; lra.
Qed.

Lemma adjust_analysis_severity_valid (a : AiAnalysis) :
  In (ai_severity a) validSeverities ->
  In (ai_severity (adjust_analysis a)) validSeverities.
Proof.
  intros H. unfold adjust_analysis.
  destruct (imageAnalysis a) as [img |]; [| exact H].
  destruct (isEmergency img); [exact H |]. cbn [ai_severity].
  destruct (String.eqb (ai_severity a) "Critical"); [simpl; auto |].
  destruct (String.eqb (ai_severity a) "High"); [simpl; auto | exact H].
Qed.

(** X23.  The score the later router stores with the analysis of a new
    report always lies between 10 and 100, and its adjustment keeps a valid
    severity valid; when the image shows no emergency the stored severity is
    neither Critical nor High and the score is at most 60. *)
Theorem adjust_analysis_bounds (a : AiAnalysis) :
  (exists p : R,
      priorityScore (adjust_analysis a) = Some p /\ 10 <= p <= 100) /\
  (In (ai_severity a) validSeverities ->
   In (ai_severity (adjust_analysis a)) validSeverities) /\
  (forall img : ImageAnalysis,
      imageAnalysis a = Some img -> isEmergency img = false ->
      ai_severity (adjust_analysis a) <> "Critical"%string /\
      ai_severity (adjust_analysis a) <> "High"%string /\
      exists p : R, priorityScore (adjust_analysis a) = Some p /\ p <= 60).
Proof.
  pose proof (reportSeverityBonus_range (ai_severity a)) as Hb.
  split; [| split].
  - unfold adjust_analysis.
    destruct (imageAnalysis a) as [img |]; [destruct (isEmergency img) |];
      cbn [priorityScore]; eexists; (split; [reflexivity |]);
      (split; [apply Rmax_l | apply Rmax_lub; [lra | apply Rmin_l]]).
  - apply adjust_analysis_severity_valid.
  - intros img Himg Hem. unfold adjust_analysis. rewrite Himg, Hem.
    cbn [ai_severity priorityScore]. split; [| split].
    + destruct (String.eqb_spec (ai_severity a) "Critical") as [E | N];
        [discriminate |].
      destruct (String.eqb (ai_severity a) "High"); [discriminate | exact N].
    + destruct (String.eqb (ai_severity a) "Critical"); [discriminate |].
      destruct (String.eqb_spec (ai_severity a) "High") as [E | N];
        [discriminate | exact N].
    + eexists. split; [reflexivity |].
      apply Rmax_lub; [lra |].
      apply Rle_trans with (50 + or_else (lookup reportSeverityScores
                                            (ai_severity a)) 20 - 30);
        [apply Rmin_r | lra].
Qed.

Lemma adjust_analysis_bounds_witness :
  imageAnalysis (mkAiAnalysis "Critical" (Some (mkImageAnalysis false 80)) None)
    = Some (mkImageAnalysis false 80) /\
  ai_severity
    (adjust_analysis
       (mkAiAnalysis "Critical" (Some (mkImageAnalysis false 80)) None))
    <> "Critical"%string.
Proof.
  split; [reflexivity |].
  destruct (adjust_analysis_bounds
              (mkAiAnalysis "Critical" (Some (mkImageAnalysis false 80)) None))
    as (_ & _ & Himg).
  destruct (Himg (mkImageAnalysis false 80) eq_refl eq_refl) as (H & _).
  exact H.
Defined.


(** With [analyzeIncident] as the source has it, the analysis of a report
    that passed validation carries one of the four severities. *)
Lemma analysis_env_severity (rev : Revision) (lower : string -> string)
    (answers : string -> string -> option string -> AnalysisOutcome)
    (now new_id : Z) (oracle : OracleOutcome) (req : ReportRequest)
    (type0 description0 : string) :
  In type0 (validTypes rev) ->
  In (ai_severity
        (report_analysis rev (analysis_env rev lower answers now oracle new_id)
           req description0 type0)) validSeverities.
Proof.
  intros Hin. unfold report_analysis, analysis_env. cbn [analyzeIncident].
  destruct rev.
  - cbn [router_view ai_severity].
    apply valid_severity_text, analyzeIncident_basic_valid.
  - apply adjust_analysis_severity_valid. cbn [router_view ai_severity].
    apply valid_severity_text, analyzeIncident_extended_valid.
    right. apply (validTypes_not_inherited Extended), Hin.
Qed.

(** So a report of a category of the schema, with no candidate within
    100 m, is created whatever the language model answers. *)
Lemma post_report_creates (rev : Revision) (lower : string -> string)
    (answers : string -> string -> option string -> AnalysisOutcome)
    (now new_id : Z) (oracle : OracleOutcome) (db : list Incident)
    (req : ReportRequest) (type0 description0 : string) (l : ReqLocation)
    (lat0 lng0 : R) :
  accepted rev req type0 description0 l lat0 lng0 ->
  In type0 schema_types ->
  Forall (fun c => 100 < meters_to lat0 lng0 c)
    (find_type_since type0 (now - 30 * 60 * 1000) db) ->
  exists (created : Incident) (ai : AiAnalysis)
         (dups : option (list AiDuplicate)),
    post_report rev (analysis_env rev lower answers now oracle new_id) db req =
      (ReplyCreated 201 "created" created ai dups, db ++ [created]).
Proof.
  intros Hacc Hty Hfar.
  rewrite (post_report_accepted _ _ _ _ _ _ _ _ _ Hacc).
  cbn [env_now analysis_env].
  rewrite (matchedIncident_none _ _ _ Hfar). cbv zeta.
  rewrite schema_accepts_new_incident by apply Hacc.
  apply existsb_eqb_In in Hty. rewrite Hty. cbn [andb].
  assert (Hsev : existsb
            (String.eqb
               (ai_severity
                  (report_analysis rev
                     (analysis_env rev lower answers now oracle new_id)
                     req description0 type0))) schema_severities = true).
  { apply existsb_eqb_In. apply analysis_env_severity, Hacc. }
  fold (analysis_env rev lower answers now oracle new_id).
  rewrite Hsev. eexists _, _, _. reflexivity.
Qed.



(** * The sort and the limit of the queue *)

Section StableSortUnique.
Context {A : Type}.
Variable key : A -> Z.

Lemma filter_key_In (l : list A) (x : A) :
  In x l -> In x (filter (fun a => (key a =? key x)%Z) l).
Proof. intros H. apply filter_In. split; [exact H | apply Z.eqb_refl]. Qed.

Lemma sorted_same_classes_eq (l1 l2 : list A) :
  descending_sorted key l1 -> descending_sorted key l2 ->
  (forall k : Z,
      filter (fun a => (key a =? k)%Z) l1 = filter (fun a => (key a =? k)%Z) l2) ->
  l1 = l2.
Proof.
  unfold descending_sorted. revert l2.
  induction l1 as [| x t1 IH]; intros l2 H1 H2 Hcls.
  - destruct l2 as [| y t2]; [reflexivity |].
    specialize (Hcls (key y)). simpl in Hcls. rewrite Z.eqb_refl in Hcls.
    discriminate.
  - destruct l2 as [| y t2].
    { specialize (Hcls (key x)). simpl in Hcls. rewrite Z.eqb_refl in Hcls.
      discriminate. }
    inversion H1 as [| ? ? Ht1 Hx]; subst.
    inversion H2 as [| ? ? Ht2 Hy]; subst.
    rewrite Forall_forall in Hx, Hy.
    assert (Hxy : (key x <= key y)%Z).
    { assert (Hin : In x (y :: t2)).
      { pose proof (Hcls (key x)) as E.
        assert (Hx1 : In x (filter (fun a => (key a =? key x)%Z) (x :: t1)))
          by (apply filter_key_In; left; reflexivity).
        rewrite E in Hx1. apply filter_In in Hx1. tauto. }
      destruct Hin as [<- | Hin]; [lia | apply Hy, Hin]. }
    assert (Hyx : (key y <= key x)%Z).
    { assert (Hin : In y (x :: t1)).
      { pose proof (Hcls (key y)) as E.
        assert (Hy1 : In y (filter (fun a => (key a =? key y)%Z) (y :: t2)))
          by (apply filter_key_In; left; reflexivity).
        rewrite <- E in Hy1. apply filter_In in Hy1. tauto. }
      destruct Hin as [<- | Hin]; [lia | apply Hx, Hin]. }
    assert (Hk : key x = key y) by lia.
    pose proof (Hcls (key x)) as Ehead. simpl in Ehead.
    rewrite Z.eqb_refl, <- Hk, Z.eqb_refl in Ehead.
    injection Ehead as Exy Etail. subst y. f_equal.
    apply IH; [exact Ht1 | exact Ht2 |].
    intros k. specialize (Hcls k). simpl in Hcls.
    destruct (key x =? k)%Z eqn:E.
    + injection Hcls as Hcls. exact Hcls.
    + exact Hcls.
Qed.

End StableSortUnique.

(** X25.  The sorted array is determined by the contract of a stable sort
    alone: any arrangement of the incidents with their scores that is in
    non-increasing order of score and keeps the incidents of every one score
    in their original order is the array [sortIncidentsByPriority] returns. *)
Theorem stable_sort_is_unique (now : Z) (incidents : list Incident)
    (responder : option LatLng) (arranged : list Ranked) :
  descending_sorted priority arranged ->
  (forall s : Z,
      filter (fun r => (priority r =? s)%Z) arranged =
      filter (fun r => (priority r =? s)%Z)
        (map (fun i => mkRanked i (calculatePriority now i responder))
           incidents)) ->
  arranged = sortIncidentsByPriority now incidents responder.
Proof.
  intros Hs Hcls. apply (sorted_same_classes_eq priority).
  - exact Hs.
  - unfold sortIncidentsByPriority. apply sort_sorted.
  - intros s. rewrite Hcls. unfold sortIncidentsByPriority.
    symmetry. apply sort_stable.
Qed.

(** Scores of the sample incidents, ten minutes old and with no responder:
    70 for High, 25 of the time decay, 2 for the one upvote, and the bonus
    of the category. *)
Lemma sample_score (id : Z) (type0 : string) (meters : R) :
  calculatePriority 1600000
    (sample_incident id type0 "Reported" meters 1000000) None =
  clamp 0 200 (JsMath.round (97 + categoryBonus type0)).
Proof.
  rewrite calculatePriority_formula. do 2 f_equal.
  unfold prioritySum, ageMinutes, timeDecay, corroborationBoost,
    distancePenalty, verificationBonus, severityBase, statusAdjustment.
  cbn [sample_incident severity timestamp upvotes verified status type
       String.eqb Ascii.eqb Bool.eqb].
  replace (IZR (1600000 - 1000000) / 60000 / 10) with 1 by (simpl; lra).
  rewrite (Zfloor_eq 1 1) by lra.
  rewrite Rmax_right by lra.
  rewrite Rmin_left by lra.
  lra.
Qed.

Lemma sample_score_fire (id : Z) (meters : R) :
  calculatePriority 1600000
    (sample_incident id "Fire" "Reported" meters 1000000) None = 107%Z.
Proof.
  rewrite sample_score. unfold categoryBonus. simpl.
  replace (97 + 10) with (IZR 107) by lra.
  rewrite round_IZR. reflexivity.
Qed.

Lemma sample_score_crime (id : Z) (meters : R) :
  calculatePriority 1600000
    (sample_incident id "Crime" "Reported" meters 1000000) None = 102%Z.
Proof.
  rewrite sample_score. unfold categoryBonus. simpl.
  replace (97 + 5) with (IZR 102) by lra.
  rewrite round_IZR. reflexivity.
Qed.

Lemma stable_sort_is_unique_witness :
  descending_sorted priority
    [mkRanked (sample_incident 1 "Fire" "Reported" 0 1000000) 107;
     mkRanked (sample_incident 3 "Fire" "Reported" 0 1000000) 107;
     mkRanked (sample_incident 2 "Crime" "Reported" 0 1000000) 102] /\
  (forall s : Z,
      filter (fun r => (priority r =? s)%Z)
        [mkRanked (sample_incident 1 "Fire" "Reported" 0 1000000) 107;
         mkRanked (sample_incident 3 "Fire" "Reported" 0 1000000) 107;
         mkRanked (sample_incident 2 "Crime" "Reported" 0 1000000) 102] =
      filter (fun r => (priority r =? s)%Z)
        (map (fun i => mkRanked i (calculatePriority 1600000 i None))
           [sample_incident 1 "Fire" "Reported" 0 1000000;
            sample_incident 2 "Crime" "Reported" 0 1000000;
            sample_incident 3 "Fire" "Reported" 0 1000000])) /\
  [mkRanked (sample_incident 1 "Fire" "Reported" 0 1000000) 107;
   mkRanked (sample_incident 3 "Fire" "Reported" 0 1000000) 107;
   mkRanked (sample_incident 2 "Crime" "Reported" 0 1000000) 102] =
  sortIncidentsByPriority 1600000
    [sample_incident 1 "Fire" "Reported" 0 1000000;
     sample_incident 2 "Crime" "Reported" 0 1000000;
     sample_incident 3 "Fire" "Reported" 0 1000000] None.
Proof.
  assert (Hs : descending_sorted priority
    [mkRanked (sample_incident 1 "Fire" "Reported" 0 1000000) 107;
     mkRanked (sample_incident 3 "Fire" "Reported" 0 1000000) 107;
     mkRanked (sample_incident 2 "Crime" "Reported" 0 1000000) 102]).
  { unfold descending_sorted.
    repeat (constructor; [| repeat (constructor; [simpl; lia |]);
                           constructor]).
    constructor. }
  assert (Hcls : forall s : Z,
      filter (fun r => (priority r =? s)%Z)
        [mkRanked (sample_incident 1 "Fire" "Reported" 0 1000000) 107;
         mkRanked (sample_incident 3 "Fire" "Reported" 0 1000000) 107;
         mkRanked (sample_incident 2 "Crime" "Reported" 0 1000000) 102] =
      filter (fun r => (priority r =? s)%Z)
        (map (fun i => mkRanked i (calculatePriority 1600000 i None))
           [sample_incident 1 "Fire" "Reported" 0 1000000;
            sample_incident 2 "Crime" "Reported" 0 1000000;
            sample_incident 3 "Fire" "Reported" 0 1000000])).
  { intros s. cbn [map].
    rewrite !sample_score_fire, sample_score_crime.
    cbn [filter priority].
    destruct (Z.eqb_spec 107 s), (Z.eqb_spec 102 s);
      try reflexivity; lia. }
  split; [exact Hs | split; [exact Hcls |]].
  apply (stable_sort_is_unique 1600000 _ None _ Hs Hcls).
Defined.

(** X26.  The number of entries of the priority queue for every limit: none
    when the limit is not a number, the whole active set but its last [-z]
    incidents for a negative limit [z], and otherwise the limit or the size
    of the active set, whichever is smaller (20 when no limit is given). *)
Theorem priority_queue_length (now : Z) (db : list Incident) (q : QueueQuery) :
  let active := List.length (find_active db) in
  List.length (fst (priority_queue now db q)) =
  match pq_limit q with
  | None => Nat.min 20 active
  | Some NaN => 0%nat
  | Some (Int z) =>
      if (z <? 0)%Z then Z.to_nat (Z.of_nat active + z)
      else Nat.min (Z.to_nat z) active
  end.
Proof.
  intros active. unfold priority_queue, queue_limit. cbn [fst].
  rewrite length_map.
  set (ranked := sortIncidentsByPriority now (find_active db) _).
  assert (Hlen : List.length ranked = active).
  { subst ranked active. unfold sortIncidentsByPriority.
    rewrite sort_length, length_map. reflexivity. }
  destruct (pq_limit q) as [[| z] |]; unfold slice0.
  - reflexivity.
  - destruct (Z.ltb_spec z 0).
    + rewrite length_firstn, Hlen. lia.
    + rewrite length_firstn, Hlen. reflexivity.
  - cbn [Z.ltb Z.compare]. rewrite length_firstn, Hlen. reflexivity.
Qed.

(** * The statistics *)

Lemma count_in_group_sum (t : string) (groups : list (string * Z)) :
  sum_counts (count_in_group t groups) = (sum_counts groups + 1)%Z.
Proof.
  induction groups as [| [k n] rest IH]; simpl; [reflexivity |].
  destruct (String.eqb k t); simpl; [lia |].
  unfold sum_counts in *. simpl. rewrite IH. lia.
Qed.

Lemma count_in_group_by_type (t t' : string) (groups : list (string * Z)) :
  by_type (count_in_group t groups) t' =
  if String.eqb t t'
  then Some (match by_type groups t with Some n => n + 1 | None => 1 end)%Z
  else by_type groups t'.
Proof.
  induction groups as [| [k n] rest IH]; simpl.
  - destruct (String.eqb t t'); reflexivity.
  - destruct (String.eqb_spec k t) as [Ekt | Nkt]; simpl.
    + subst k. destruct (String.eqb t t'); reflexivity.
    + rewrite IH. destruct (String.eqb_spec t t') as [Ett | Ntt].
      * subst t'. apply String.eqb_neq in Nkt. rewrite Nkt. reflexivity.
      * reflexivity.
Qed.

Lemma group_by_type_count (db : list Incident) (t : string) :
  match by_type (group_by_type db) t with
  | Some n => (0 < n)%Z /\ n = countDocuments (fun i => String.eqb (type i) t) db
  | None => countDocuments (fun i => String.eqb (type i) t) db = 0%Z
  end.
Proof.
  unfold countDocuments. induction db as [| i db IH]; simpl; [reflexivity |].
  rewrite count_in_group_by_type.
  destruct (String.eqb_spec (type i) t) as [E | N].
  - subst t. cbn [List.length]. rewrite Nat2Z.inj_succ.
    destruct (by_type (group_by_type db) (type i)) as [n |].
    + destruct IH as [Hpos Hn]. split; lia.
    + rewrite IH. split; lia.
  - exact IH.
Qed.

Lemma count_le_total (p : Incident -> bool) (db : list Incident) :
  (0 <= countDocuments p db <= countDocuments (fun _ => true) db)%Z.
Proof.
  unfold countDocuments. split; [lia |].
  apply Nat2Z.inj_le. induction db as [| i db IH]; simpl; [lia |].
  destruct (p i); simpl; lia.
Qed.

Lemma count_disjoint (p1 p2 : Incident -> bool) (db : list Incident) :
  (forall i, p1 i = true -> p2 i = false) ->
  (countDocuments p1 db + countDocuments p2 db
   <= countDocuments (fun _ => true) db)%Z.
Proof.
  intros Hdis. unfold countDocuments.
  rewrite <- Nat2Z.inj_add. apply Nat2Z.inj_le.
  induction db as [| i db IH]; simpl; [lia |].
  destruct (p1 i) eqn:E1; [rewrite (Hdis i E1) |]; destruct (p2 i); simpl; lia.
Qed.

Lemma count_or (p1 p2 : Incident -> bool) (db : list Incident) :
  (forall i, p1 i = true -> p2 i = false) ->
  (countDocuments p1 db + countDocuments p2 db
   = countDocuments (fun i => p1 i || p2 i) db)%Z.
Proof.
  intros Hdis. unfold countDocuments. rewrite <- Nat2Z.inj_add. f_equal.
  induction db as [| i db IH]; simpl; [reflexivity |].
  destruct (p1 i) eqn:E1; [rewrite (Hdis i E1) |]; destruct (p2 i); simpl; lia.
Qed.

(** X27.  In the statistics the counts by category add up to the total,
    [byType] lists a category exactly when an incident has it, with the
    number of those incidents; and Critical plus High, like In Progress plus
    Resolved plus pending, never exceed the total. *)
Theorem stats_are_consistent (now : Z) (db : list Incident) :
  let s := get_stats now db in
  st_total s = Z.of_nat (List.length db) /\
  sum_counts (st_byType s) = st_total s /\
  (forall t : string,
      match by_type (st_byType s) t with
      | Some n =>
          (0 < n)%Z /\
          n = Z.of_nat (List.length
                          (filter (fun i => String.eqb (type i) t) db))
      | None => forall i, In i db -> type i <> t
      end) /\
  (st_critical s + st_high s <= st_total s)%Z /\
  (st_inProgress s + st_resolved s + st_pending s <= st_total s)%Z /\
  (0 <= st_last24h s <= st_total s)%Z.
Proof.
  intros s. subst s. unfold get_stats. cbn [st_total st_byType st_critical
    st_high st_inProgress st_resolved st_pending st_last24h].
  split; [| split; [| split; [| split; [| split]]]].
  - unfold countDocuments. f_equal.
    induction db as [| i db IH]; simpl; [reflexivity | rewrite IH; reflexivity].
  - unfold countDocuments, group_by_type.
    induction db as [| i db IH]; simpl; [reflexivity |].
    rewrite count_in_group_sum, IH. lia.
  - intros t. pose proof (group_by_type_count db t) as H.
    destruct (by_type (group_by_type db) t) as [n |]; [exact H |].
    unfold countDocuments in H. intros i Hi Ht.
    assert (Hin : In i (filter (fun i => String.eqb (type i) t) db))
      by (apply filter_In; split; [exact Hi | apply String.eqb_eq, Ht]).
    destruct (filter (fun i => String.eqb (type i) t) db);
      [contradiction | simpl in H; lia].
  - apply count_disjoint. intros i Hi.
    apply String.eqb_eq in Hi. rewrite Hi. reflexivity.
  - pose proof (count_disjoint
                  (fun i => String.eqb (status i) "In Progress"
                            || String.eqb (status i) "Resolved")
                  (fun i => existsb (String.eqb (status i))
                              ["Pending"; "Reported"]%string) db) as H.
    rewrite (count_or (fun i => String.eqb (status i) "In Progress")
               (fun i => String.eqb (status i) "Resolved") db)
      by (intros i Hi; apply String.eqb_eq in Hi; rewrite Hi; reflexivity).
    apply H. intros i Hi.
    apply orb_true_iff in Hi.
    destruct Hi as [Hi | Hi]; apply String.eqb_eq in Hi; rewrite Hi; reflexivity.
  - apply count_le_total.
Qed.

(** * The further theorems at the sample data *)

Lemma detectDuplicates_entries_witness :
  ((index (mkOracleEntry 0 90 "Same depot") < 1)%Z \/
   (Z.of_nat 1 < index (mkOracleEntry 0 90 "Same depot"))%Z) /\
  (List.length
     (detectDuplicates 1600000
        (OracleArray [mkOracleEntry 0 90 "Same depot";
                      mkOracleEntry 7 80 "Same street"])
        (mkNewIncident "Fire" "Flames at the depot" (mkLatLng 10 20))
        [sample_incident 1 "Fire" "Reported" 80 1000000]) <= 2)%nat.
Proof.
  split; [left; simpl; lia |].
  destruct (detectDuplicates_entries 1600000
              [mkOracleEntry 0 90 "Same depot"; mkOracleEntry 7 80 "Same street"]
              (mkNewIncident "Fire" "Flames at the depot" (mkLatLng 10 20))
              [sample_incident 1 "Fire" "Reported" 80 1000000])
    as (_ & Hlen & _).
  exact Hlen.
Defined.

Lemma report_keeps_records_witness :
  fst (post_report Extended (sample_env OracleThrows)
         [sample_incident 1 "Fire" "Reported" 80 1000000]
         (mkReportRequest (Some "Flood"%string)
            (Some "Water in the street"%string) None
            (LocationObject sample_location) None)) =
    ReplyError 400
      "Invalid type. Must be one of: Fire, Accident, Medical, Crime, Infrastructure, Natural, Other" /\
  snd (post_report Extended (sample_env OracleThrows)
         [sample_incident 1 "Fire" "Reported" 80 1000000]
         (mkReportRequest (Some "Flood"%string)
            (Some "Water in the street"%string) None
            (LocationObject sample_location) None)) =
    [sample_incident 1 "Fire" "Reported" 80 1000000].
Proof.
  assert (Hreply :
    fst (post_report Extended (sample_env OracleThrows)
           [sample_incident 1 "Fire" "Reported" 80 1000000]
           (mkReportRequest (Some "Flood"%string)
              (Some "Water in the street"%string) None
              (LocationObject sample_location) None)) =
    ReplyError 400
      "Invalid type. Must be one of: Fire, Accident, Medical, Crime, Infrastructure, Natural, Other").
  { unfold post_report, missing_required, sample_location.
    cbn [body_location body_type body_description req_lat req_lng
         truthy_string truthy_number].
    rewrite !truthy_nonzero by lra. reflexivity. }
  split; [exact Hreply |].
  destruct (report_keeps_records Extended (sample_env OracleThrows)
              [sample_incident 1 "Fire" "Reported" 80 1000000]
              (mkReportRequest (Some "Flood"%string)
                 (Some "Water in the street"%string) None
                 (LocationObject sample_location) None)) as (_ & _ & Herr).
  apply (Herr _ _ Hreply).
Defined.

Lemma stats_are_consistent_witness :
  by_type
    (st_byType
       (get_stats 1600000
          [sample_incident 1 "Fire" "Reported" 80 1000000;
           sample_incident 2 "Crime" "Resolved" 80 1000000;
           sample_incident 3 "Fire" "In Progress" 80 1000000]))
    "Medical" = None /\
  forall i : Incident,
    In i [sample_incident 1 "Fire" "Reported" 80 1000000;
          sample_incident 2 "Crime" "Resolved" 80 1000000;
          sample_incident 3 "Fire" "In Progress" 80 1000000] ->
    type i <> "Medical"%string.
Proof.
  split; [reflexivity |].
  destruct (stats_are_consistent 1600000
              [sample_incident 1 "Fire" "Reported" 80 1000000;
               sample_incident 2 "Crime" "Resolved" 80 1000000;
               sample_incident 3 "Fire" "In Progress" 80 1000000])
    as (_ & _ & Hby & _).
  exact (Hby "Medical"%string).
Defined.
